(** * An offline-first todo application: repository and service worker

    A shallow embedding of [src/lib/db/repo.ts], [src/lib/db/dexie.ts] and
    [src/public/sw.js], with the properties of the specification stated and
    settled against that embedding.

    The repository talks to an IndexedDB table through Dexie.  The table is
    a finite map from primary key to record; an operation of the repository
    is a computation over a [World] that holds the table together with two
    counters, one for the readings of the clock and one for the requests
    sent to the storage engine.  The clock and the storage engine are
    oracles: [clock k] is the text returned by the [k]-th evaluation of
    [new Date().toISOString()], and [fault k] tells whether the storage
    engine rejects the [k]-th request.

    The callers of the repository are embedded beside it: the form and the
    quick-add field, as functions from their state to the data they hand
    on, and the hook [useTodos], as computations over the database together
    with the state the hook shows. *)

From Stdlib Require Import String Ascii Bool Arith Lia.
From stdpp Require Import base option gmap strings list sorting fin_maps.

Set Default Proof Using "Type".
Set Warnings "-clear-no-such-hyp".
Open Scope string_scope.

(** ** JavaScript string primitives used by the sources *)

Module JS.

(** White space removed by [String.prototype.trim], restricted to the
    ASCII range: TAB, LF, VT, FF, CR and SPACE. *)
Definition is_space (c : ascii) : bool :=
  let n := nat_of_ascii c in
  (Nat.leb 9 n && Nat.leb n 13) || Nat.eqb n 32.

Fixpoint trimStart (s : string) : string :=
  match s with
  | EmptyString => EmptyString
  | String c s' => if is_space c then trimStart s' else s
  end.

Fixpoint trimEnd (s : string) : string :=
  match s with
  | EmptyString => EmptyString
  | String c s' =>
      match trimEnd s' with
      | EmptyString => if is_space c then EmptyString else String c EmptyString
      | String c' r => String c (String c' r)
      end
  end.

Definition trim (s : string) : string := trimEnd (trimStart s).

(** [toLowerCase] on the ASCII letters. *)
Definition lower_ascii (c : ascii) : ascii :=
  let n := nat_of_ascii c in
  if Nat.leb 65 n && Nat.leb n 90 then ascii_of_nat (n + 32) else c.

Fixpoint toLowerCase (s : string) : string :=
  match s with
  | EmptyString => EmptyString
  | String c s' => String (lower_ascii c) (toLowerCase s')
  end.

Definition startsWith (s p : string) : bool := String.prefix p s.

Definition endsWith (s p : string) : bool :=
  String.prefix (String.rev p) (String.rev s).

(** [s.includes(sub)]: [sub] occurs somewhere in [s]. *)
Fixpoint includes (s sub : string) : bool :=
  String.prefix sub s ||
  match s with
  | EmptyString => false
  | String _ s' => includes s' sub
  end.

(** Truthiness of a string value: every string but the empty one. *)
Definition truthy (s : string) : bool := negb (String.eqb s "").

(** Truthiness of an optional string property: [undefined] and the empty
    string are falsy. *)
Definition truthy_opt (o : option string) : bool :=
  match o with
  | Some s => truthy s
  | None => false
  end.

(** Comparison of two strings with [<] and [<=]: lexicographic on the
    character codes. *)
Definition lt (a b : string) : bool := String.ltb a b.
Definition le (a b : string) : bool := String.leb a b.

End JS.

(** ** Data model ([types.ts])

    Timestamps are the texts [toISOString] produces; the code compares them
    as strings, and so does the embedding. *)

Inductive Priority := low | normal | high.

Global Instance Priority_eq_dec : EqDecision Priority.
Proof. solve_decision. Defined.

Record Todo := mkTodo {
  id : string;
  title : string;
  notes : option string;
  dueDate : option string;
  priority : Priority;
  tags : list string;
  completed : bool;
  createdAt : string;
  updatedAt : string
}.

Global Instance Todo_eq_dec : EqDecision Todo.
Proof. solve_decision. Defined.

Record CreateTodoDto := mkCreate {
  c_title : string;
  c_notes : option string;
  c_dueDate : option string;
  c_priority : option Priority;
  c_tags : option (list string)
}.

Record UpdateTodoDto := mkUpdate {
  u_title : option string;
  u_notes : option string;
  u_dueDate : option string;
  u_priority : option Priority;
  u_tags : option (list string);
  u_completed : option bool
}.

Record TodoFilter := mkFilter {
  f_completed : option bool;
  f_tag : option string;
  f_dueBefore : option string;
  f_dueAfter : option string;
  f_priority : option Priority;
  f_search : option string
}.

(** The empty filter [{}] and the empty update [{}]. *)
Definition no_filter : TodoFilter := mkFilter None None None None None None.
Definition no_update : UpdateTodoDto := mkUpdate None None None None None None.

(** Errors.  [TodoNotFoundError] and [DatabaseError] are the two classes of
    [types.ts]; the others are what the platform throws. *)
Inductive Exn :=
| TodoNotFoundError (key : string)
| DatabaseError (message : string) (cause : Exn)
| ConstraintError
| StorageError
| SyntaxError
| TypeError
| Error (message : string).

Definition is_TodoNotFoundError (e : Exn) : bool :=
  match e with
  | TodoNotFoundError _ => true
  | _ => false
  end.

(** ** The world and the monad of asynchronous computations *)

Record World := mkWorld {
  todos : gmap string Todo;
  ticks : nat;
  reqs : nat
}.

Definition with_todos (m : gmap string Todo) (w : World) : World :=
  mkWorld m (ticks w) (reqs w).

(** The world after one more reading of the clock, and after one more
    request to the storage engine. *)
Definition ticked (w : World) : World := mkWorld (todos w) (S (ticks w)) (reqs w).
Definition sent (w : World) : World := mkWorld (todos w) (ticks w) (S (reqs w)).

Inductive Outcome (S A : Type) :=
| Ok (a : A) (s : S)
| Throw (e : Exn) (s : S).
Arguments Ok {S A} a s.
Arguments Throw {S A} e s.

Definition state_of {S A} (o : Outcome S A) : S :=
  match o with
  | Ok _ s => s
  | Throw _ s => s
  end.

(** An asynchronous function over a state [S]: awaited, it either yields a
    value or throws, and leaves a new state. *)
Definition Async (S A : Type) : Type := S -> Outcome S A.

Definition ret {S A} (a : A) : Async S A := fun s => Ok a s.

Definition throw {S A} (e : Exn) : Async S A := fun s => Throw e s.

Definition bind {S A B} (m : Async S A) (k : A -> Async S B) : Async S B :=
  fun s =>
    match m s with
    | Ok a s' => k a s'
    | Throw e s' => Throw e s'
    end.

(** [try { m } catch (error) { h error }] *)
Definition try_catch {S A} (m : Async S A) (h : Exn -> Async S A) : Async S A :=
  fun s =>
    match m s with
    | Ok a s' => Ok a s'
    | Throw e s' => h e s'
    end.

Declare Scope async_scope.
Delimit Scope async_scope with async.
Notation "x <- m ;; k" := (bind m (fun x => k))
  (at level 100, m at next level, right associativity) : async_scope.
Notation "m ;;; k" := (bind m (fun _ => k))
  (at level 100, right associativity) : async_scope.
Open Scope async_scope.

(** [for (const x of xs) { await body x }] *)
Fixpoint for_of {S X} (xs : list X) (body : X -> Async S unit) : Async S unit :=
  match xs with
  | [] => ret tt
  | x :: xs' => body x ;;; for_of xs' body
  end.

(** Computations of the repository run over the [World]. *)
Abbreviation Db := (Async World).

(** ** The environment: clock and storage engine *)

Record Env := mkEnv {
  clock : nat -> string;
  fault : nat -> bool
}.

(** Modifications handed to [Table.update]: a [Partial<Todo>] restricted to
    the properties the repository ever sets. *)
Record Modifications := mkMods {
  m_title : option string;
  m_notes : option string;
  m_dueDate : option string;
  m_priority : option Priority;
  m_tags : option (list string);
  m_completed : option bool;
  m_updatedAt : option string
}.

Definition apply_mods (m : Modifications) (t : Todo) : Todo :=
  {| id := id t;
     title := default (title t) (m_title m);
     notes := match m_notes m with Some n => Some n | None => notes t end;
     dueDate := match m_dueDate m with Some d => Some d | None => dueDate t end;
     priority := default (priority t) (m_priority m);
     tags := default (tags t) (m_tags m);
     completed := default (completed t) (m_completed m);
     createdAt := createdAt t;
     updatedAt := default (updatedAt t) (m_updatedAt m) |}.

(** Dexie's [modify] writes a record back only when one of the given
    properties differs from the stored one ([origVal !== val]); an array is
    compared by reference, so a given [tags] always differs. *)
Definition differs {A} `{EqDecision A} (o : option A) (old : A) : bool :=
  match o with
  | Some v => negb (bool_decide (v = old))
  | None => false
  end.

Definition differs_opt {A} `{EqDecision A} (o : option A) (old : option A) : bool :=
  match o with
  | Some v => negb (bool_decide (Some v = old))
  | None => false
  end.

Definition anythingModified (m : Modifications) (t : Todo) : bool :=
  differs (m_title m) (title t)
  || differs_opt (m_notes m) (notes t)
  || differs_opt (m_dueDate m) (dueDate t)
  || differs (m_priority m) (priority t)
  || bool_decide (is_Some (m_tags m))
  || differs (m_completed m) (completed t)
  || differs (m_updatedAt m) (updatedAt t).

(** Order of the [createdAt] index: by [createdAt], then by primary key. *)
Definition createdAt_index_le (a b : Todo) : Prop :=
  match String.compare (createdAt a) (createdAt b) with
  | Lt => True
  | Eq => String.le (id a) (id b)
  | Gt => False
  end.

Global Instance createdAt_index_le_dec : RelDecision createdAt_index_le.
Proof.
  intros a b. unfold createdAt_index_le.
  destruct (String.compare (createdAt a) (createdAt b)); apply _.
Defined.

(** Order of the primary index. *)
Definition primary_le (a b : string * Todo) : Prop := String.le (fst a) (fst b).

Global Instance primary_le_dec : RelDecision primary_le.
Proof. intros a b. unfold primary_le. apply _. Defined.

(** The records of a table, in the order of the primary index. *)
Definition records (m : gmap string Todo) : list Todo :=
  snd <$> merge_sort primary_le (map_to_list m).

(** A record of an imported JSON array.  [id], [title] and [completed] are
    the properties the import inspects: [None] stands for a property that is
    missing, and for [completed] also for one that is not a boolean. *)
Record ImportRecord := mkImport {
  i_id : option string;
  i_title : option string;
  i_completed : option bool;
  i_notes : option string;
  i_dueDate : option string;
  i_priority : Priority;
  i_tags : list string;
  i_createdAt : string;
  i_updatedAt : string
}.

(** The outcome of [JSON.parse] on the text given to the import. *)
Inductive Parsed :=
| ParseFailure
| NotAnArray
| JsonArray (rs : list ImportRecord).

(** The object as [put] receives it once the validation has accepted it. *)
Definition as_todo (r : ImportRecord) : Todo :=
  {| id := default "" (i_id r);
     title := default "" (i_title r);
     notes := i_notes r;
     dueDate := i_dueDate r;
     priority := i_priority r;
     tags := i_tags r;
     completed := default false (i_completed r);
     createdAt := i_createdAt r;
     updatedAt := i_updatedAt r |}.

(** The record [JSON.stringify] writes for an entity. *)
Definition of_todo (t : Todo) : ImportRecord :=
  {| i_id := Some (id t);
     i_title := Some (title t);
     i_completed := Some (completed t);
     i_notes := notes t;
     i_dueDate := dueDate t;
     i_priority := priority t;
     i_tags := tags t;
     i_createdAt := createdAt t;
     i_updatedAt := updatedAt t |}.

(** [!todo.id || !todo.title || typeof todo.completed !== 'boolean'] *)
Definition invalid_record (r : ImportRecord) : bool :=
  negb (JS.truthy_opt (i_id r))
  || negb (JS.truthy_opt (i_title r))
  || negb (bool_decide (is_Some (i_completed r))).

Record Stats := mkStats {
  s_total : nat;
  s_completed : nat;
  s_pending : nat;
  s_overdue : nat
}.

(** [obj.createdAt = n; obj.updatedAt = n] *)
Definition stamp (n : string) (obj : Todo) : Todo :=
  {| id := id obj; title := title obj; notes := notes obj;
     dueDate := dueDate obj; priority := priority obj; tags := tags obj;
     completed := completed obj; createdAt := n; updatedAt := n |}.

(** The object [createTodo] builds from its argument, the id it drew and
    the clock reading it took. *)
Definition new_todo (uuid now_ : string) (dto : CreateTodoDto) : Todo :=
  {| id := uuid;
     title := JS.trim (c_title dto);
     notes := JS.trim <$> c_notes dto;
     dueDate := c_dueDate dto;
     priority := default normal (c_priority dto);
     tags := default [] (c_tags dto);
     completed := false;
     createdAt := now_;
     updatedAt := now_ |}.

(** The [updates] object [updateTodo] builds: [updatedAt], and each
    property of the argument that is not [undefined]. *)
Definition update_mods (now_ : string) (dto : UpdateTodoDto) : Modifications :=
  {| m_updatedAt := Some now_;
     m_title := JS.trim <$> u_title dto;
     m_notes := JS.trim <$> u_notes dto;
     m_dueDate := u_dueDate dto;
     m_priority := u_priority dto;
     m_tags := u_tags dto;
     m_completed := u_completed dto |}.

(** The [updates] object of [bulkComplete]: [{completed: true, updatedAt: n}]. *)
Definition completion (n : string) : Modifications :=
  {| m_completed := Some true;
     m_updatedAt := Some n;
     m_title := None; m_notes := None; m_dueDate := None;
     m_priority := None; m_tags := None |}.

(** The argument [toggleTodo] gives to [updateTodo]: [{completed: !c}]. *)
Definition negated (c : bool) : UpdateTodoDto :=
  {| u_completed := Some (negb c);
     u_title := None; u_notes := None; u_dueDate := None;
     u_priority := None; u_tags := None |}.

(** ** Dexie: the [todos] table with its hooks ([dexie.ts]) *)

Section Dexie.
Context (E : Env).

(** [new Date().toISOString()] *)
Definition now : Db string :=
  fun w => Ok (clock E (ticks w)) (ticked w).

(** One request to the storage engine, which may reject it. *)
Definition request : Db unit :=
  fun w => if fault E (reqs w) then Throw StorageError (sent w) else Ok tt (sent w).

Definition store (m : gmap string Todo -> gmap string Todo) : Db unit :=
  fun w => Ok tt (with_todos (m (todos w)) w).

Definition snapshot : Db (gmap string Todo) :=
  fun w => Ok (todos w) w.

(** [hook('creating')]: stamps the object about to be stored. *)
Definition creating_hook (obj : Todo) : Db Todo :=
  n <- now ;;
  ret (stamp n obj).

(** [hook('updating')]: reads the clock and assigns to the [modifications]
    argument, but returns nothing.  Dexie (from version 3, whose [Table]
    export [dexie.ts] imports) hands the hook a description of the
    difference and takes additional modifications from the value the hook
    returns, so the record written is the one the caller asked for. *)
Definition updating_hook (obj : Todo) : Db Todo :=
  _ <- now ;;
  ret obj.

(** [db.todos.get(key)] *)
Definition table_get (key : string) : Db (option Todo) :=
  request ;;;
  m <- snapshot ;;
  ret (m !! key).

(** [db.todos.add(obj)]: fails when the key is taken. *)
Definition table_add (obj : Todo) : Db string :=
  request ;;;
  obj' <- creating_hook obj ;;
  m <- snapshot ;;
  match m !! id obj' with
  | Some _ => throw ConstraintError
  | None => store (insert (id obj') obj') ;;; ret (id obj')
  end.

(** [db.todos.put(obj)]: creates the record or replaces the one stored
    under the same key. *)
Definition table_put (obj : Todo) : Db string :=
  request ;;;
  m <- snapshot ;;
  obj' <- match m !! id obj with
          | None => creating_hook obj
          | Some _ => updating_hook obj
          end ;;
  store (insert (id obj') obj') ;;;
  ret (id obj').

(** [db.todos.update(key, changes)]: the number of records written, 0 when
    the key is absent or when nothing differs. *)
Definition table_update (key : string) (changes : Modifications) : Db nat :=
  request ;;;
  m <- snapshot ;;
  match m !! key with
  | None => ret 0
  | Some old =>
      if anythingModified changes old then
        obj' <- updating_hook (apply_mods changes old) ;;
        store (insert key obj') ;;;
        ret 1
      else ret 0
  end.

(** [db.todos.delete(key)]: succeeds whether or not the key is present. *)
Definition table_delete (key : string) : Db unit :=
  request ;;;
  store (delete key).

(** [db.todos.clear()] *)
Definition table_clear : Db unit :=
  request ;;;
  store (fun _ => ∅).

(** [db.todos.toArray()] *)
Definition table_toArray : Db (list Todo) :=
  request ;;;
  m <- snapshot ;;
  ret (records m).

(** [db.todos.orderBy('createdAt').reverse()] followed by the filters and
    [toArray()]: the records in decreasing order of the index, those the
    predicate rejects left out. *)
Definition orderBy_createdAt_reverse (p : Todo -> bool) : Db (list Todo) :=
  request ;;;
  m <- snapshot ;;
  ret (filter (fun t => p t = true) (reverse (merge_sort createdAt_index_le (records m)))).

(** [db.transaction('rw', db.todos, body)]: when [body] throws, the writes
    it made to the table are undone and the error is thrown again. *)
Definition transaction {A} (body : Db A) : Db A :=
  fun w =>
    match body w with
    | Ok a w' => Ok a w'
    | Throw e w' => Throw e (with_todos (todos w) w')
    end.

End Dexie.

(** ** The repository ([repo.ts]) *)

Section Repository.
Context (E : Env).

(** [catch (error) { throw new DatabaseError(message, error) }] *)
Definition wrap {A} (message : string) : Exn -> Db A :=
  fun error => throw (DatabaseError message error).

(** [catch (error) { if (error instanceof TodoNotFoundError) throw error;
    throw new DatabaseError(message, error) }] *)
Definition rethrow_not_found {A} (message : string) : Exn -> Db A :=
  fun error =>
    if is_TodoNotFoundError error then throw error
    else throw (DatabaseError message error).

(** [createTodo(dto)]; [uuid] is the value [crypto.randomUUID()] returns. *)
Definition createTodo (uuid : string) (dto : CreateTodoDto) : Db string :=
  try_catch
    (let id := uuid in
     now_ <- now E ;;
     let todo := new_todo id now_ dto in
     table_add E todo ;;;
     ret id)
    (wrap "Failed to create todo").

Definition getTodo (id : string) : Db Todo :=
  try_catch
    (todo <- table_get E id ;;
     match todo with
     | None => throw (TodoNotFoundError id)
     | Some todo => ret todo
     end)
    (rethrow_not_found ("Failed to get todo " +:+ id)).

(** A Dexie collection under construction: the conjunction of the
    predicates given to [filter] so far. *)
Definition and_filter (collection p : Todo -> bool) : Todo -> bool :=
  fun todo => collection todo && p todo.

(** The collection [listTodos] builds before it reads it: the index in
    reverse order, narrowed by one [filter] for each property given. *)
Definition build_collection (filter : TodoFilter) : Todo -> bool :=
  let collection : Todo -> bool := fun _ => true in
  let collection :=
    match f_completed filter with
    | Some c => and_filter collection (fun todo => Bool.eqb (completed todo) c)
    | None => collection
    end in
  let collection :=
    if JS.truthy_opt (f_tag filter) then
      and_filter collection
        (fun todo => bool_decide (default "" (f_tag filter) ∈ tags todo))
    else collection in
  let collection :=
    match f_priority filter with
    | Some p => and_filter collection (fun todo => bool_decide (priority todo = p))
    | None => collection
    end in
  let collection :=
    if JS.truthy_opt (f_dueBefore filter) then
      and_filter collection
        (fun todo =>
           JS.truthy_opt (dueDate todo)
           && JS.le (default "" (dueDate todo)) (default "" (f_dueBefore filter)))
    else collection in
  let collection :=
    if JS.truthy_opt (f_dueAfter filter) then
      and_filter collection
        (fun todo =>
           JS.truthy_opt (dueDate todo)
           && JS.le (default "" (f_dueAfter filter)) (default "" (dueDate todo)))
    else collection in
  let collection :=
    if JS.truthy_opt (f_search filter) then
      let searchTerm := JS.toLowerCase (default "" (f_search filter)) in
      and_filter collection
        (fun todo =>
           JS.includes (JS.toLowerCase (title todo)) searchTerm
           || match notes todo with
              | Some n => JS.includes (JS.toLowerCase n) searchTerm
              | None => false
              end
           || existsb (fun tag => JS.includes (JS.toLowerCase tag) searchTerm)
                (tags todo))
    else collection in
  collection.

Definition listTodos (filter : TodoFilter) : Db (list Todo) :=
  try_catch
    (orderBy_createdAt_reverse E (build_collection filter))
    (wrap "Failed to list todos").

Definition updateTodo (id : string) (dto : UpdateTodoDto) : Db unit :=
  try_catch
    (existingTodo <- getTodo id ;;
     now_ <- now E ;;
     let updates := update_mods now_ dto in
     result <- table_update E id updates ;;
     if Nat.eqb result 0 then throw (TodoNotFoundError id) else ret tt)
    (rethrow_not_found ("Failed to update todo " +:+ id)).

Definition bulkComplete (ids : list string) : Db unit :=
  try_catch
    (transaction
       (now_ <- now E ;;
        let updates := completion now_ in
        for_of ids (fun id => _ <- table_update E id updates ;; ret tt)))
    (wrap "Failed to bulk complete todos").

Definition bulkDelete (ids : list string) : Db unit :=
  try_catch
    (transaction (for_of ids (fun id => table_delete E id)))
    (wrap "Failed to bulk delete todos").

Definition toggleTodo (id : string) : Db unit :=
  try_catch
    (todo <- getTodo id ;;
     updateTodo id (negated (completed todo)))
    (rethrow_not_found ("Failed to toggle todo " +:+ id)).

Definition getStats : Db Stats :=
  try_catch
    (todos_ <- table_toArray E ;;
     now_ <- now E ;;
     let completed_ := length (filter (fun todo => completed todo = true) todos_) in
     let pending_ := length (filter (fun todo => negb (completed todo) = true) todos_) in
     let overdue_ :=
       length
         (filter
            (fun todo =>
               negb (completed todo)
               && JS.truthy_opt (dueDate todo)
               && JS.lt (default "" (dueDate todo)) now_ = true)
            todos_) in
     ret {| s_total := length todos_;
            s_completed := completed_;
            s_pending := pending_;
            s_overdue := overdue_ |})
    (wrap "Failed to get todo statistics").

(** The body of the loop of [importTodos]: the validation of one record,
    then its [put]. *)
Definition import_step (todo : ImportRecord) : Db unit :=
  if invalid_record todo then throw (Error "Invalid todo format")
  else _ <- table_put E (as_todo todo) ;; ret tt.

(** [importTodos(jsonData, overwrite)]; [jsonData] is given by what
    [JSON.parse] makes of it. *)
Definition importTodos (jsonData : Parsed) (overwrite : bool) : Db nat :=
  try_catch
    (todos_ <- match jsonData with
               | ParseFailure => throw SyntaxError
               | NotAnArray =>
                   throw (Error "Invalid JSON format: expected array of todos")
               | JsonArray rs => ret rs
               end ;;
     (if overwrite then table_clear E else ret tt) ;;;
     transaction (for_of todos_ import_step) ;;;
     ret (length todos_))
    (wrap "Failed to import todos").

End Repository.

(** The form's validation ([todo-form.tsx], [validateForm]) as far as the
    title goes, and the guard of the quick-add field. *)
Definition title_accepted (title : string) : bool := JS.truthy (JS.trim title).

(** ** The service worker ([sw.js]) *)

Record Response := mkResponse {
  status : nat;
  contentType : string;
  body : string
}.

Global Instance Response_eq_dec : EqDecision Response.
Proof. solve_decision. Defined.

(** [response.ok]: the status is in the range 200-299. *)
Definition ok (r : Response) : bool :=
  Nat.leb 200 (status r) && Nat.leb (status r) 299.

(** A request, with the origin and the path [new URL(request.url)] gives. *)
Record Request := mkRequest {
  method : string;
  url : string;
  origin : string;
  pathname : string
}.

(** The phases of a worker's life, as the platform defines them. *)
Inductive Phase := Installing | Waiting | Activating | Activated | Redundant.

(** The state the worker acts on: the cache storage (cache name to the
    entries of that cache, keyed by URL), whether [skipWaiting()] has been
    called, and the console. *)
Record Worker := mkWorker {
  caches : gmap string (gmap string Response);
  skipWaitingCalled : bool;
  console : list string
}.

(** The surroundings of the worker: its own origin and the network.
    [network u = None] when fetching [u] fails. *)
Record Net := mkNet {
  self_origin : string;
  network : string -> option Response
}.

Definition CACHE_NAME : string := "todo-pwa-v1".
Definition OFFLINE_URL : string := "/offline".

Definition STATIC_CACHE_FILES : list string :=
  ["/"; "/offline"; "/today"; "/completed"; "/manifest.webmanifest"].

Definition RUNTIME_CACHE_pages : string := "pages-cache-v1".
Definition RUNTIME_CACHE_api : string := "api-cache-v1".
Definition RUNTIME_CACHE_static : string := "static-cache-v1".
Definition RUNTIME_CACHE_images : string := "images-cache-v1".

(** The document [getOfflineFallback] builds when the offline page is not
    cached; its markup is abbreviated to its heading. *)
Definition generated_offline_page : Response :=
  mkResponse 200 "text/html" "You're offline".

Section ServiceWorker.
Context (N : Net).

Definition console_log (message : string) : Async Worker unit :=
  fun s => Ok tt (mkWorker (caches s) (skipWaitingCalled s) (console s ++ [message])).

(** [caches.open(name)]: the cache is created when it does not exist. *)
Definition caches_open (name : string) : Async Worker string :=
  fun s =>
    match caches s !! name with
    | Some _ => Ok name s
    | None => Ok name (mkWorker (<[name := ∅]> (caches s)) (skipWaitingCalled s) (console s))
    end.

Definition entries (name : string) (s : Worker) : gmap string Response :=
  default ∅ (caches s !! name).

(** [cache.match(key)] *)
Definition cache_match (cache : string) (key : string) : Async Worker (option Response) :=
  fun s => Ok (entries cache s !! key) s.

(** [cache.put(key, response)] *)
Definition cache_put (cache : string) (key : string) (r : Response) : Async Worker unit :=
  fun s =>
    Ok tt (mkWorker (<[cache := <[key := r]> (entries cache s)]> (caches s))
             (skipWaitingCalled s) (console s)).

(** [fetch(request)]: rejects with a [TypeError] when the network fails. *)
Definition fetch (key : string) : Async Worker Response :=
  fun s =>
    match network N key with
    | Some r => Ok r s
    | None => Throw TypeError s
    end.

(** The URL a path given to the cache resolves to. *)
Definition resolve (path : string) : string := self_origin N +:+ path.

(** The responses [addAll] needs: every resource fetched, each with an
    [ok] status; [None] as soon as one of them is missing. *)
Fixpoint fetch_all (paths : list string) : option (list (string * Response)) :=
  match paths with
  | [] => Some []
  | p :: ps =>
      match network N (resolve p) with
      | Some r =>
          if ok r then
            match fetch_all ps with
            | Some rs => Some ((resolve p, r) :: rs)
            | None => None
            end
          else None
      | None => None
      end
  end.

(** [cache.addAll(paths)]: either every response is stored or the call
    rejects and nothing is stored. *)
Definition cache_addAll (cache : string) (paths : list string) : Async Worker unit :=
  match fetch_all paths with
  | Some rs => for_of rs (fun kr => cache_put cache (fst kr) (snd kr))
  | None => throw TypeError
  end.

(** [self.skipWaiting()] *)
Definition skipWaiting : Async Worker unit :=
  fun s => Ok tt (mkWorker (caches s) true (console s)).

(** The promise the install listener hands to [event.waitUntil]. *)
Definition install_listener : Async Worker unit :=
  console_log "[SW] Install event" ;;;
  try_catch
    (cache <- caches_open CACHE_NAME ;;
     console_log "[SW] Caching static files" ;;;
     cache_addAll cache STATIC_CACHE_FILES ;;;
     console_log "[SW] Static files cached successfully" ;;;
     skipWaiting)
    (fun error => console_log "[SW] Failed to cache static files:").

(** What the platform does with an installing worker once the promise given
    to [waitUntil] settles: a rejection makes the worker redundant, a
    fulfilment makes it installed, that is, waiting. *)
Definition install (s : Worker) : Phase * Worker :=
  match install_listener s with
  | Ok _ s' => (Waiting, s')
  | Throw _ s' => (Redundant, s')
  end.

Definition cacheFirst (request : Request) (cacheName : string) : Async Worker (option Response) :=
  cache <- caches_open cacheName ;;
  cachedResponse <- cache_match cache (url request) ;;
  match cachedResponse with
  | Some r => ret (Some r)
  | None =>
      try_catch
        (networkResponse <- fetch (url request) ;;
         (if ok networkResponse then cache_put cache (url request) networkResponse
          else ret tt) ;;;
         ret (Some networkResponse))
        (fun error => console_log "[SW] Cache first failed:" ;;; throw error)
  end.

Definition networkFirst (request : Request) (cacheName : string) : Async Worker (option Response) :=
  cache <- caches_open cacheName ;;
  try_catch
    (networkResponse <- fetch (url request) ;;
     (if ok networkResponse then cache_put cache (url request) networkResponse
      else ret tt) ;;;
     ret (Some networkResponse))
    (fun error =>
       console_log "[SW] Network failed, trying cache:" ;;;
       cachedResponse <- cache_match cache (url request) ;;
       match cachedResponse with
       | Some r => ret (Some r)
       | None => throw error
       end).

(** The background fetch is run to its end before the function returns;
    its result is only used when nothing was cached, and is [undefined]
    ([None]) when it failed. *)
Definition staleWhileRevalidate (request : Request) (cacheName : string) : Async Worker (option Response) :=
  cache <- caches_open cacheName ;;
  cachedResponse <- cache_match cache (url request) ;;
  fetched <- try_catch
               (response <- fetch (url request) ;;
                (if ok response then cache_put cache (url request) response
                 else ret tt) ;;;
                ret (Some response))
               (fun error => console_log "[SW] Background update failed:" ;;; ret None) ;;
  match cachedResponse with
  | Some r => ret (Some r)
  | None => ret fetched
  end.

Definition getOfflineFallback : Async Worker (option Response) :=
  cache <- caches_open CACHE_NAME ;;
  offlineResponse <- cache_match cache (resolve OFFLINE_URL) ;;
  match offlineResponse with
  | Some r => ret (Some r)
  | None => ret (Some generated_offline_page)
  end.

Definition networkFirstWithOfflineFallback (request : Request) : Async Worker (option Response) :=
  cache <- caches_open RUNTIME_CACHE_pages ;;
  try_catch
    (networkResponse <- fetch (url request) ;;
     (if ok networkResponse then cache_put cache (url request) networkResponse
      else ret tt) ;;;
     ret (Some networkResponse))
    (fun error =>
       console_log "[SW] Network failed for page, trying cache:" ;;;
       cachedResponse <- cache_match cache (url request) ;;
       match cachedResponse with
       | Some r => ret (Some r)
       | None => getOfflineFallback
       end).

(** A line terminator, which [.] does not match in a regular expression
    (among the ASCII characters: line feed and carriage return). *)
Definition line_terminator (c : ascii) : bool :=
  let n := nat_of_ascii c in
  Nat.eqb n 10 || Nat.eqb n 13.

(** What is left of [s] once the prefix [p] is taken off. *)
Fixpoint strip_prefix (p s : string) : option string :=
  match p, s with
  | EmptyString, _ => Some s
  | String a p', String b s' => if Ascii.eqb a b then strip_prefix p' s' else None
  | String _ _, EmptyString => None
  end.

(** [pathname.match(/\\.(png|jpg|jpeg|svg|webp|gif)$/)].  The source
    writes two backslashes before the dot, so the expression asks for a
    backslash, then any character but a line terminator, then one of the
    extensions, at the end of the path; the path is read from its end. *)
Definition image_extension (pathname : string) : bool :=
  existsb
    (fun extension =>
       match strip_prefix (String.rev extension) (String.rev pathname) with
       | Some (String any (String backslash _)) =>
           negb (line_terminator any) && Ascii.eqb backslash "\"
       | _ => false
       end)
    ["png"; "jpg"; "jpeg"; "svg"; "webp"; "gif"].

Definition handleRequest (request : Request) : Async Worker (option Response) :=
  let pathname := pathname request in
  try_catch
    (if JS.startsWith pathname "/api/" then
       networkFirst request RUNTIME_CACHE_api
     else if JS.startsWith pathname "/_next/static/" then
       cacheFirst request RUNTIME_CACHE_static
     else if JS.startsWith pathname "/icons/" || image_extension pathname then
       cacheFirst request RUNTIME_CACHE_images
     else if String.eqb pathname "/manifest.webmanifest" then
       staleWhileRevalidate request CACHE_NAME
     else networkFirstWithOfflineFallback request)
    (fun error => console_log "[SW] Request handling failed:" ;;; getOfflineFallback).

(** The fetch listener: [None] when the worker leaves the request to the
    browser, otherwise the promise given to [event.respondWith]. *)
Definition fetch_listener (request : Request) : option (Async Worker (option Response)) :=
  if negb (String.eqb (method request) "GET") then None
  else if negb (String.eqb (origin request) (self_origin N)) then None
  else Some (handleRequest request).

End ServiceWorker.

(** ** Properties the specification speaks of *)

(** No request to the storage engine is rejected. *)
Definition no_fault (E : Env) : Prop := forall k, fault E k = false.

(** The invariant of an entity: it was not updated before it was created,
    and its title is not empty once trimmed. *)
Definition entity_ok (t : Todo) : Prop :=
  String.le (createdAt t) (updatedAt t) /\ JS.trim (title t) <> "".

Definition store_ok (m : gmap string Todo) : Prop :=
  forall k t, m !! k = Some t -> entity_ok t.

(** Every stored entity was created no later than the clock reading [n]. *)
Definition created_by (n : string) (m : gmap string Todo) : Prop :=
  forall k t, m !! k = Some t -> String.le (createdAt t) n.

(** The free-text predicate of a filter: the term occurs in the title, in
    the notes or in one of the tags, letter case set aside. *)
Definition text_match (term : string) (t : Todo) : Prop :=
  JS.includes (JS.toLowerCase (title t)) (JS.toLowerCase term) = true
  \/ (exists n, notes t = Some n
       /\ JS.includes (JS.toLowerCase n) (JS.toLowerCase term) = true)
  \/ (exists g, g ∈ tags t
       /\ JS.includes (JS.toLowerCase g) (JS.toLowerCase term) = true).

(** The entity satisfies every predicate the filter provides.  A textual
    predicate is provided when the property is present and not the empty
    text, which is the test the repository makes. *)
Definition satisfies (f : TodoFilter) (t : Todo) : Prop :=
  (forall c, f_completed f = Some c -> completed t = c)
  /\ (forall g, f_tag f = Some g -> g <> "" -> g ∈ tags t)
  /\ (forall p, f_priority f = Some p -> priority t = p)
  /\ (forall b, f_dueBefore f = Some b -> b <> "" ->
        exists d, dueDate t = Some d /\ d <> "" /\ String.le d b)
  /\ (forall a, f_dueAfter f = Some a -> a <> "" ->
        exists d, dueDate t = Some d /\ d <> "" /\ String.le a d)
  /\ (forall q, f_search f = Some q -> q <> "" -> text_match q t).

(** An entity is overdue at [now_]: it is incomplete, it has a due date
    (a non-empty text) and that date is strictly before [now_]. *)
Definition is_overdue (now_ : string) (t : Todo) : Prop :=
  completed t = false
  /\ exists d, dueDate t = Some d /\ d <> "" /\ String.compare d now_ = Lt.

Global Instance is_overdue_dec now_ t : Decision (is_overdue now_ t).
Proof.
  unfold is_overdue. destruct (dueDate t) as [d|].
  - destruct (decide (completed t = false));
      [destruct (decide (d = ""));
         [right; intros (_ & d' & Hd & Hne & _); congruence|
          destruct (decide (String.compare d now_ = Lt));
            [left; eauto|right; intros (_ & d' & Hd & _ & Hlt); congruence]]|
       right; intros [? _]; done].
  - right. intros (_ & d' & Hd & _). discriminate.
Defined.

(** The last record of an imported array that carries the key [k]. *)
Definition last_with_id (k : string) (rs : list ImportRecord) : option ImportRecord :=
  last (filter (fun r => id (as_todo r) = k) rs).

(** A clock and a storage engine to run the operations on: six readings one
    second apart, and an engine that accepts every request. *)
Definition sample_clock (k : nat) : string :=
  match k with
  | 0 => "2024-05-01T08:00:00.000Z"
  | 1 => "2024-05-01T08:00:01.000Z"
  | 2 => "2024-05-01T08:00:02.000Z"
  | 3 => "2024-05-01T08:00:03.000Z"
  | 4 => "2024-05-01T08:00:04.000Z"
  | _ => "2024-05-01T08:00:05.000Z"
  end.

Definition sample_env : Env := mkEnv sample_clock (fun _ => false).

Definition sample_todo (key : string) (done : bool) (tgs : list string) (created : string) : Todo :=
  {| id := key; title := "Call the bank"; notes := None; dueDate := None;
     priority := normal; tags := tgs; completed := done;
     createdAt := created; updatedAt := created |}.

Definition sample_world : World :=
  mkWorld
    (<["a" := sample_todo "a" false ["work"] "2024-04-01T10:00:00.000Z"]>
       (<["c" := sample_todo "c" true ["home"] "2024-04-02T10:00:00.000Z"]> ∅))
    0 0.

(** Networks and a worker to run the service worker on: a network that
    serves every path but [/today], a network that is down, a network that
    serves every path, and a worker with no cache yet. *)
Definition sample_origin : string := "https://todo.example".

Definition sample_page : Response := mkResponse 200 "text/html" "<html>".

Definition flaky_net : Net :=
  mkNet sample_origin
    (fun u => if String.eqb u "https://todo.example/today" then None else Some sample_page).

Definition offline_net : Net := mkNet sample_origin (fun _ => None).

Definition served_net : Net := mkNet sample_origin (fun _ => Some sample_page).

Definition fresh_worker : Worker := mkWorker ∅ false [].

Definition api_request : Request :=
  mkRequest "GET" "https://todo.example/api/todos" sample_origin "/api/todos".

(** ** The rest of the repository, of the table and of the worker *)

(** [Array.prototype.sort] with a comparison function: a stable sort, here
    by insertion; [le x y] tells that [x] need not come after [y]. *)
Fixpoint insert_sorted {A} (le : A -> A -> bool) (x : A) (l : list A) : list A :=
  match l with
  | [] => [x]
  | y :: l' => if le x y then x :: y :: l' else y :: insert_sorted le x l'
  end.

Fixpoint js_sort {A} (le : A -> A -> bool) (l : list A) : list A :=
  match l with
  | [] => []
  | x :: l' => insert_sorted le x (js_sort le l')
  end.

(** [tagSet.add(tag)]: a [Set] keeps its elements in the order they were
    first added. *)
Definition set_add (tag : string) (s : list string) : list string :=
  if bool_decide (tag ∈ s) then s else s ++ [tag].

(** [todos.forEach(todo => todo.tags.forEach(tag => tagSet.add(tag)))] *)
Definition collect_tags (todos_ : list Todo) : list string :=
  foldl (fun s todo => foldl (fun s' tag => set_add tag s') s (tags todo)) [] todos_.

(** [result === 0] for the [undefined] that [Table.delete] resolves to. *)
Definition undefined_is_zero (result : unit) : bool := false.

Section RepositoryRest.
Context (E : Env).

(** [db.todos.count()] *)
Definition table_count : Db nat :=
  request E ;;;
  m <- snapshot ;;
  ret (size m).

(** [db.todos.filter(p).sortBy(keyPath)]: the records the predicate
    accepts, read in the order of the primary index and then sorted by the
    key. *)
Definition table_filter_sortBy (p : Todo -> bool) (key : Todo -> string) : Db (list Todo) :=
  request E ;;;
  m <- snapshot ;;
  ret (js_sort (fun a b => JS.le (key a) (key b))
         (filter (fun t => p t = true) (records m))).

(** [isSeeded()] and [clearAll()] of the database class ([dexie.ts]). *)
Definition isSeeded : Db bool :=
  count <- table_count ;;
  ret (Nat.ltb 0 count).

Definition clearAll : Db unit := table_clear E.

(** [getTodosForToday()]; [endOfDay] is what [setHours(23, 59, 59, 999)]
    followed by [toISOString()] makes of the clock reading: the last
    millisecond of the local day. *)
Definition getTodosForToday (endOfDay : string -> string) : Db (list Todo) :=
  try_catch
    (today <- now E ;;
     let todayIso := endOfDay today in
     table_filter_sortBy
       (fun todo =>
          negb (completed todo)
          && JS.truthy_opt (dueDate todo)
          && JS.le (default "" (dueDate todo)) todayIso)
       (fun todo => default "" (dueDate todo)))
    (wrap "Failed to get today's todos").

Definition getAllTags : Db (list string) :=
  try_catch
    (todos_ <- table_toArray E ;;
     let tagSet := collect_tags todos_ in
     ret (js_sort JS.le tagSet))
    (wrap "Failed to get tags").

Definition deleteTodo (id : string) : Db unit :=
  try_catch
    (result <- table_delete E id ;;
     if undefined_is_zero result then throw (TodoNotFoundError id) else ret tt)
    (rethrow_not_found ("Failed to delete todo " +:+ id)).

(** [exportTodos()]; the text [JSON.stringify] writes is given, as the
    argument of [importTodos] is, by what [JSON.parse] makes of it. *)
Definition exportTodos : Db Parsed :=
  try_catch
    (todos_ <- table_toArray E ;;
     ret (JsonArray (of_todo <$> todos_)))
    (wrap "Failed to export todos").

End RepositoryRest.

(** The worker together with what [clients.claim()] leaves behind. *)
Record Controlled := mkControlled {
  worker : Worker;
  clientsClaimed : bool
}.

(** A computation of the worker, run inside the larger state. *)
Definition on_worker {A} (m : Async Worker A) : Async Controlled A :=
  fun c =>
    match m (worker c) with
    | Ok a s => Ok a (mkControlled s (clientsClaimed c))
    | Throw e s => Throw e (mkControlled s (clientsClaimed c))
    end.

(** What the platform may refuse while the worker activates: the
    enumeration of the caches, the deletion of a cache, the claim of the
    clients.  A refused operation rejects its promise. *)
Record Refusals := mkRefusals {
  keys_rejected : bool;
  delete_rejected : string -> bool;
  claim_rejected : bool
}.

(** [Promise.all(xs.map(body))]: every [body x] is started, and runs to its
    end whatever becomes of the others; the whole rejects when one of them
    does, here with the rejection of the first in the list. *)
Fixpoint promise_all {S X A} (xs : list X) (body : X -> Async S A) : Async S (list A) :=
  match xs with
  | [] => ret []
  | x :: xs' =>
      fun s =>
        match body x s with
        | Ok a s1 =>
            match promise_all xs' body s1 with
            | Ok rest s2 => Ok (a :: rest) s2
            | Throw e s2 => Throw e s2
            end
        | Throw e s1 => Throw e (state_of (promise_all xs' body s1))
        end
  end.

(** [Object.values(RUNTIME_CACHE)] *)
Definition RUNTIME_CACHE_values : list string :=
  [RUNTIME_CACHE_pages; RUNTIME_CACHE_api; RUNTIME_CACHE_static; RUNTIME_CACHE_images].

(** [name !== CACHE_NAME && !Object.values(RUNTIME_CACHE).includes(name)] *)
Definition old_cache (name : string) : bool :=
  negb (String.eqb name CACHE_NAME)
  && negb (bool_decide (name ∈ RUNTIME_CACHE_values)).

Section Activation.
Context (R : Refusals).

(** [caches.keys()]; the order of the names only shows in the order of the
    lines the activation logs. *)
Definition caches_keys : Async Worker (list string) :=
  fun s =>
    if keys_rejected R then Throw StorageError s
    else Ok ((map_to_list (caches s)).*1) s.

(** [caches.delete(name)] *)
Definition caches_delete (name : string) : Async Worker bool :=
  fun s =>
    if delete_rejected R name then Throw StorageError s
    else
      Ok (bool_decide (is_Some (caches s !! name)))
        (mkWorker (delete name (caches s)) (skipWaitingCalled s) (console s)).

(** [self.clients.claim()] *)
Definition clients_claim : Async Controlled unit :=
  fun c =>
    if claim_rejected R then Throw StorageError c
    else Ok tt (mkControlled (worker c) true).

(** The promise the activate listener hands to [event.waitUntil]. *)
Definition activate_listener : Async Controlled unit :=
  on_worker (console_log "[SW] Activate event") ;;;
  try_catch
    (cacheNames <- on_worker caches_keys ;;
     let deletionPromises :=
       promise_all (filter (fun name => old_cache name = true) cacheNames)
         (fun name =>
            console_log "[SW] Deleting old cache:" ;;;
            caches_delete name) in
     _ <- on_worker deletionPromises ;;
     clients_claim ;;;
     on_worker (console_log "[SW] Service worker activated and took control"))
    (fun error => on_worker (console_log "[SW] Activation failed:")).

End Activation.

(** The caches the activation sets out to delete. *)
Definition stale_names (s : Worker) : list string :=
  filter (fun name => old_cache name = true) (map_to_list (caches s)).*1.

(** One of the operations the activation comes to is refused. *)
Definition activation_refused (R : Refusals) (s : Worker) : bool :=
  keys_rejected R
  || existsb (delete_rejected R) (stale_names s)
  || claim_rejected R.

(** A platform that refuses nothing, and one that refuses to delete the
    cache [todo-pwa-v0]. *)
Definition no_refusals : Refusals := mkRefusals false (fun _ => false) false.

Definition stubborn_cache : Refusals :=
  mkRefusals false (fun name => String.eqb name "todo-pwa-v0") false.

(** The store keys every entity by its own id. *)
Definition keys_ok (m : gmap string Todo) : Prop :=
  forall k t, m !! k = Some t -> id t = k.

(** The entity passes the validation of the import. *)
Definition importable (t : Todo) : Prop := id t <> "" /\ title t <> "".

(** The text is all lower case, as far as [toLowerCase] goes. *)
Definition lower_case (s : string) : Prop := JS.toLowerCase s = s.

(** A worker with two stale caches beside the caches of the current
    generation. *)
Definition crowded_worker : Controlled :=
  mkControlled
    (mkWorker
       (<["todo-pwa-v0" := {["https://todo.example/" := sample_page]}]>
          (<["todo-pwa-beta" := ∅]>
             (<[CACHE_NAME := {["https://todo.example/offline" := sample_page]}]>
                (<[RUNTIME_CACHE_pages := ∅]> ∅))))
       true [])
    false.

(** A store with due dates, and the end of the day of the sample clock for
    a zone two hours east of Greenwich. *)
Definition due_todo (key : string) (done : bool) (due : option string) : Todo :=
  {| id := key; title := "Pay the rent"; notes := Some "by transfer"; dueDate := due;
     priority := high; tags := ["money"; "home"]; completed := done;
     createdAt := "2024-04-01T10:00:00.000Z"; updatedAt := "2024-04-01T10:00:00.000Z" |}.

Definition due_world : World :=
  mkWorld
    (<["p" := due_todo "p" false (Some "2024-05-01T12:00:00.000Z")]>
       (<["q" := due_todo "q" false (Some "2024-04-20T12:00:00.000Z")]>
          (<["r" := due_todo "r" true (Some "2024-04-10T12:00:00.000Z")]>
             (<["s" := due_todo "s" false (Some "2024-05-03T12:00:00.000Z")]>
                (<["t" := due_todo "t" false None]> ∅)))))
    0 0.

Definition sample_endOfDay (reading : string) : string := "2024-05-01T21:59:59.999Z".

(** A clock that stands still at the time the sample entity [a] was last
    written. *)
Definition frozen_env : Env :=
  mkEnv (fun _ => "2024-04-01T10:00:00.000Z") (fun _ => false).

(** A worker whose static cache holds a script, requests for that script,
    for the manifest and for a page, and a network that serves a newer
    response everywhere. *)
Definition old_script : Response := mkResponse 200 "text/javascript" "v1".

Definition new_script : Response := mkResponse 200 "text/javascript" "v2".

Definition script_request : Request :=
  mkRequest "GET" "https://todo.example/_next/static/app.js" sample_origin
    "/_next/static/app.js".

Definition manifest_request : Request :=
  mkRequest "GET" "https://todo.example/manifest.webmanifest" sample_origin
    "/manifest.webmanifest".

Definition page_request : Request :=
  mkRequest "GET" "https://todo.example/settings" sample_origin "/settings".

Definition warm_worker : Worker :=
  mkWorker
    (<[RUNTIME_CACHE_static := {["https://todo.example/_next/static/app.js" := old_script]}]>
       (<[CACHE_NAME := {["https://todo.example/manifest.webmanifest" := old_script]}]> ∅))
    false [].

Definition fresh_net : Net := mkNet sample_origin (fun _ => Some new_script).

(** ** The form and the quick-add field ([todo-form.tsx], [quick-add-todo.tsx]) *)

(** [value || undefined] *)
Definition or_undefined (value : string) : option string :=
  if JS.truthy value then Some value else None.

(** The object the form hands to [onSubmit]; the page gives it to
    [createTodo] or, when a todo is being edited, to [updateTodo]. *)
Record SubmitData := mkSubmitData {
  d_title : string;
  d_notes : option string;
  d_dueDate : option string;
  d_priority : Priority;
  d_tags : list string
}.

Definition as_CreateTodoDto (d : SubmitData) : CreateTodoDto :=
  mkCreate (d_title d) (d_notes d) (d_dueDate d) (Some (d_priority d)) (Some (d_tags d)).

Definition as_UpdateTodoDto (d : SubmitData) : UpdateTodoDto :=
  mkUpdate (Some (d_title d)) (d_notes d) (d_dueDate d) (Some (d_priority d))
    (Some (d_tags d)) None.

Module TodoForm.

Record FormData := mkFormData {
  title : string;
  notes : string;
  dueDate : string;
  priority : Priority;
  tags : list string
}.

Record State := mkState {
  formData : FormData;
  newTag : string;
  errors : gmap string string
}.

Section Form.
(** [isNaN(new Date(value).getTime())] and [fromDateInputValue] of
    [date.ts] are the platform's date arithmetic. *)
Context (invalid_date : string -> bool) (fromDateInputValue : string -> string).

Definition validateForm (s : State) : bool * State :=
  let newErrors : gmap string string := ∅ in
  let newErrors :=
    if negb (JS.truthy (JS.trim (title (formData s))))
    then <["title" := "Title is required"]> newErrors
    else newErrors in
  let newErrors :=
    if JS.truthy (dueDate (formData s)) then
      if invalid_date (dueDate (formData s))
      then <["dueDate" := "Invalid date format"]> newErrors
      else newErrors
    else newErrors in
  (Nat.eqb (size newErrors) 0, mkState (formData s) (newTag s) newErrors).

(** [handleSubmit]: the state it leaves, and the data it hands to
    [onSubmit] when it calls it. *)
Definition handleSubmit (isLoading : bool) (s : State) : option SubmitData * State :=
  let (valid, s') := validateForm s in
  if negb valid || isLoading then (None, s')
  else
    let submitData :=
      {| d_title := JS.trim (title (formData s));
         d_notes := or_undefined (JS.trim (notes (formData s)));
         d_dueDate := if JS.truthy (dueDate (formData s))
                      then Some (fromDateInputValue (dueDate (formData s)))
                      else None;
         d_priority := priority (formData s);
         d_tags := tags (formData s) |} in
    (Some submitData, s').

End Form.

Definition setNewTag (value : string) (s : State) : State :=
  mkState (formData s) value (errors s).

Definition with_tags (tags_ : list string) (prev : FormData) : FormData :=
  mkFormData (title prev) (notes prev) (dueDate prev) (priority prev) tags_.

Definition handleAddTag (s : State) : State :=
  let trimmedTag := JS.toLowerCase (JS.trim (newTag s)) in
  if JS.truthy trimmedTag && negb (bool_decide (trimmedTag ∈ tags (formData s))) then
    mkState (with_tags (tags (formData s) ++ [trimmedTag]) (formData s)) "" (errors s)
  else s.

Definition handleRemoveTag (tagToRemove : string) (s : State) : State :=
  mkState
    (with_tags (filter (fun tag => tag <> tagToRemove) (tags (formData s))) (formData s))
    (newTag s) (errors s).

(** What the user does with the tag field. *)
Inductive TagEvent :=
| TypeTag (value : string)
| AddTag
| RemoveTag (tag : string).

Definition handle (s : State) (e : TagEvent) : State :=
  match e with
  | TypeTag value => setNewTag value s
  | AddTag => handleAddTag s
  | RemoveTag tag => handleRemoveTag tag s
  end.

End TodoForm.

Module QuickAddTodo.

Record State := mkState {
  title : string;
  isSubmitting : bool
}.

(** [handleSubmit]: the data it hands to [onAdd] when it calls it. *)
Definition handleSubmit (isLoading : bool) (s : State) : option CreateTodoDto :=
  let trimmedTitle := JS.trim (title s) in
  if negb (JS.truthy trimmedTitle) || isSubmitting s || isLoading then None
  else Some (mkCreate trimmedTitle None None None None).

End QuickAddTodo.

(** ** The hook [useTodos] ([use-todos.ts]) *)

(** [try { m } finally { f }] *)
Definition try_finally {S A} (m : Async S A) (f : Async S unit) : Async S A :=
  fun s =>
    match m s with
    | Ok a s' =>
        match f s' with
        | Ok _ s'' => Ok a s''
        | Throw e s'' => Throw e s''
        end
    | Throw e s' =>
        match f s' with
        | Ok _ s'' => Throw e s''
        | Throw e' s'' => Throw e' s''
        end
    end.

Module UseTodos.

Inductive Toast :=
| toast_success (title : string)
| toast_error (title : string) (description : option string).

(** The state of the hook, the toasts it raised and what it wrote to the
    console. *)
Record State := mkState {
  h_todos : list Todo;
  h_loading : bool;
  h_error : option string;
  h_stats : Stats;
  h_toasts : list Toast;
  h_console : list string
}.

(** The database together with the state of the hook. *)
Record App := mkApp {
  db : World;
  ui : State
}.

Definition on_db {A} (m : Db A) : Async App A :=
  fun a =>
    match m (db a) with
    | Ok x w => Ok x (mkApp w (ui a))
    | Throw e w => Throw e (mkApp w (ui a))
    end.

Definition set_ui (f : State -> State) : Async App unit :=
  fun a => Ok tt (mkApp (db a) (f (ui a))).

Definition setTodos (v : list Todo) : Async App unit :=
  set_ui (fun s => mkState v (h_loading s) (h_error s) (h_stats s) (h_toasts s) (h_console s)).

Definition setLoading (v : bool) : Async App unit :=
  set_ui (fun s => mkState (h_todos s) v (h_error s) (h_stats s) (h_toasts s) (h_console s)).

Definition setError (v : option string) : Async App unit :=
  set_ui (fun s => mkState (h_todos s) (h_loading s) v (h_stats s) (h_toasts s) (h_console s)).

Definition setStats (v : Stats) : Async App unit :=
  set_ui (fun s => mkState (h_todos s) (h_loading s) (h_error s) v (h_toasts s) (h_console s)).

Definition toast (v : Toast) : Async App unit :=
  set_ui (fun s => mkState (h_todos s) (h_loading s) (h_error s) (h_stats s)
                     (h_toasts s ++ [v]) (h_console s)).

Definition console_error (v : string) : Async App unit :=
  set_ui (fun s => mkState (h_todos s) (h_loading s) (h_error s) (h_stats s)
                     (h_toasts s) (h_console s ++ [v])).

Section Hook.
(** [t] is the translation of a message key; [platform_message] the
    message of an error that is not of the classes of [types.ts]; [filter]
    the option the hook was given. *)
Context (E : Env) (t : string -> string) (platform_message : Exn -> string)
  (filter : TodoFilter).

(** [err.message]; every error is an [Error], so the text the code falls
    back to is never used. *)
Definition message (err : Exn) : string :=
  match err with
  | TodoNotFoundError key => "Todo with id " +:+ key +:+ " not found"
  | DatabaseError message _ => message
  | Error message => message
  | _ => platform_message err
  end.

Definition loadTodos : Async App unit :=
  try_finally
    (try_catch
       (setError None ;;;
        todosData <- on_db (listTodos E filter) ;;
        setTodos todosData ;;;
        statsData <- on_db (getStats E) ;;
        setStats statsData)
       (fun err =>
          setError (Some (message err)) ;;;
          console_error "Failed to load todos:"))
    (setLoading false).

(** [uuid] is the value [crypto.randomUUID()] returns in the repository. *)
Definition createTodo (uuid : string) (data : CreateTodoDto) : Async App (option string) :=
  try_catch
    (id <- on_db (createTodo E uuid data) ;;
     loadTodos ;;;
     toast (toast_success (t "messages.todoAdded")) ;;;
     ret (Some id))
    (fun err =>
       toast (toast_error (t "messages.databaseError") (Some (message err))) ;;;
       console_error "Failed to create todo:" ;;;
       ret None).

Definition updateTodo (id : string) (data : UpdateTodoDto) : Async App bool :=
  try_catch
    (on_db (updateTodo E id data) ;;;
     loadTodos ;;;
     toast (toast_success (t "messages.todoUpdated")) ;;;
     ret true)
    (fun err =>
       (if is_TodoNotFoundError err then toast (toast_error "Todo not found" None)
        else toast (toast_error (t "messages.databaseError") (Some (message err)))) ;;;
       console_error "Failed to update todo:" ;;;
       ret false).

Definition deleteTodo (id : string) : Async App bool :=
  try_catch
    (on_db (deleteTodo E id) ;;;
     loadTodos ;;;
     toast (toast_success (t "messages.todoDeleted")) ;;;
     ret true)
    (fun err =>
       (if is_TodoNotFoundError err then toast (toast_error "Todo not found" None)
        else toast (toast_error (t "messages.databaseError") (Some (message err)))) ;;;
       console_error "Failed to delete todo:" ;;;
       ret false).

Definition toggleTodo (id : string) : Async App bool :=
  try_catch
    (on_db (toggleTodo E id) ;;;
     loadTodos ;;;
     ret true)
    (fun err =>
       (if is_TodoNotFoundError err then toast (toast_error "Todo not found" None)
        else toast (toast_error (t "messages.databaseError") (Some (message err)))) ;;;
       console_error "Failed to toggle todo:" ;;;
       ret false).

Definition bulkComplete (ids : list string) : Async App bool :=
  try_catch
    (on_db (bulkComplete E ids) ;;;
     loadTodos ;;;
     toast (toast_success (t "messages.todosCompleted")) ;;;
     ret true)
    (fun err =>
       toast (toast_error (t "messages.databaseError") (Some (message err))) ;;;
       console_error "Failed to bulk complete todos:" ;;;
       ret false).

Definition bulkDelete (ids : list string) : Async App bool :=
  try_catch
    (on_db (bulkDelete E ids) ;;;
     loadTodos ;;;
     toast (toast_success (t "messages.todosDeleted")) ;;;
     ret true)
    (fun err =>
       toast (toast_error (t "messages.databaseError") (Some (message err))) ;;;
       console_error "Failed to bulk delete todos:" ;;;
       ret false).

Definition refreshTodos : Async App unit :=
  setLoading true ;;;
  loadTodos.

(** [todos.find(todo => todo.id === id)] *)
Definition getTodoById (key : string) (s : State) : option Todo :=
  List.find (fun todo => String.eqb (id todo) key) (h_todos s).

End Hook.

End UseTodos.

(** ** Seeding ([dexie.ts]) *)

(** An element of [sampleTodos]: a todo without [id], [createdAt] and
    [updatedAt]. *)
Record SampleTodo := mkSample {
  st_title : string;
  st_notes : option string;
  st_dueDate : option string;
  st_priority : Priority;
  st_tags : list string;
  st_completed : bool
}.

(** [{...todo, id, createdAt, updatedAt}] *)
Definition seeded (todo : SampleTodo) (id_ createdAt_ updatedAt_ : string) : Todo :=
  {| id := id_; title := st_title todo; notes := st_notes todo;
     dueDate := st_dueDate todo; priority := st_priority todo; tags := st_tags todo;
     completed := st_completed todo; createdAt := createdAt_; updatedAt := updatedAt_ |}.

(** The array [sampleTodos], given the three due dates it computes; the
    quotation marks inside the fourth note are left out. *)
Definition sampleTodos (tomorrow today in_two_days : string) : list SampleTodo :=
  [ mkSample "Complete the Todo PWA project"
      (Some "Build an offline-first PWA with Next.js and IndexedDB")
      (Some tomorrow) high ["work"; "programming"] false;
    mkSample "Buy groceries" (Some "Milk, bread, eggs, vegetables")
      (Some today) normal ["personal"; "shopping"] false;
    mkSample "Exercise for 30 minutes" (Some "Go for a run or do some yoga")
      None normal ["health"; "daily"] false;
    mkSample "Read a book chapter" (Some "Continue reading Clean Code")
      None low ["learning"; "books"] true;
    mkSample "Plan weekend trip" (Some "Research destinations and book accommodation")
      (Some in_two_days) low ["travel"; "planning"] false ].

Section Seeding.
(** [later ms n] is the text of the moment [ms] milliseconds after the
    clock reading [n]; [uuid i] is what the [i]-th call of
    [crypto.randomUUID()] returns. *)
Context (E : Env) (later : N -> string -> string) (uuid : nat -> string).

Definition seed_step (entry : nat * SampleTodo) : Db unit :=
  let id_ := uuid (fst entry) in
  createdAt_ <- now E ;;
  updatedAt_ <- now E ;;
  _ <- table_add E (seeded (snd entry) id_ createdAt_ updatedAt_) ;;
  ret tt.

Definition seedDatabase : Db unit :=
  n0 <- now E ;;
  n1 <- now E ;;
  n2 <- now E ;;
  let sampleTodos_ := sampleTodos (later 86400000%N n0) n1 (later 172800000%N n2) in
  transaction (for_of (imap (fun i todo => (i, todo)) sampleTodos_) seed_step).

(** What the module does when it is loaded in development. *)
Definition initialize : Db unit :=
  isSeeded_ <- isSeeded E ;;
  if negb isSeeded_ then seedDatabase else ret tt.

End Seeding.

(** The list the hook shows is the list [listTodos] gives for the store as
    it is, the total it shows is the size of the store, and it shows
    neither an error nor that it is loading. *)
Definition in_sync (f : TodoFilter) (a : UseTodos.App) : Prop :=
  UseTodos.h_todos (UseTodos.ui a)
  = filter (fun t => build_collection f t = true)
      (reverse (merge_sort createdAt_index_le (records (todos (UseTodos.db a)))))
  /\ s_total (UseTodos.h_stats (UseTodos.ui a)) = size (todos (UseTodos.db a))
  /\ UseTodos.h_error (UseTodos.ui a) = None
  /\ UseTodos.h_loading (UseTodos.ui a) = false.

(** The hook's function answers as the repository's does: [good x] when
    the repository returns [x], [bad] when it throws; it never throws
    itself, writes nothing of its own to the store, and raises an error
    toast, leaving what it shows as it was, when the repository throws. *)
Definition mirrors {A B} (E : Env) (f : TodoFilter) (repo : Db A)
    (hook : Async UseTodos.App B) (good : A -> B) (bad : B) : Prop :=
  forall a : UseTodos.App,
    exists (r : B) (a' : UseTodos.App),
      hook a = Ok r a'
      /\ match repo (UseTodos.db a) with
         | Ok x w' =>
             r = good x
             /\ todos (UseTodos.db a') = todos w'
             /\ UseTodos.h_loading (UseTodos.ui a') = false
             /\ (fault E (reqs w') = false -> fault E (S (reqs w')) = false ->
                 in_sync f a')
         | Throw e w' =>
             r = bad
             /\ UseTodos.db a' = w'
             /\ UseTodos.h_todos (UseTodos.ui a') = UseTodos.h_todos (UseTodos.ui a)
             /\ UseTodos.h_stats (UseTodos.ui a') = UseTodos.h_stats (UseTodos.ui a)
             /\ UseTodos.h_error (UseTodos.ui a') = UseTodos.h_error (UseTodos.ui a)
             /\ UseTodos.h_loading (UseTodos.ui a') = UseTodos.h_loading (UseTodos.ui a)
             /\ exists title_ description,
                  UseTodos.h_toasts (UseTodos.ui a')
                  = (UseTodos.h_toasts (UseTodos.ui a)
                     ++ [UseTodos.toast_error title_ description])%list
         end.

(** A form being filled in: a title with blanks around it, no notes, a
    day, and a tag typed but not yet added. *)
Definition sample_form : TodoForm.State :=
  TodoForm.mkState
    (TodoForm.mkFormData "  Call the bank " "   " "2024-05-02" high ["money"])
    " Urgent " ∅.

Definition sample_invalid_date (value : string) : bool := false.

Definition sample_fromDateInputValue (value : string) : string :=
  value +:+ "T00:00:00.000Z".

Definition sample_quick : QuickAddTodo.State :=
  QuickAddTodo.mkState " Water the plants  " false.

Definition sample_app : UseTodos.App :=
  UseTodos.mkApp sample_world
    (UseTodos.mkState [] true None (mkStats 0 0 0 0) [] []).

Definition sample_t (key : string) : string := key.

Definition sample_platform_message (e : Exn) : string := "".

(** * Theorems *)

(** *** The operations on small inputs *)

Example trim_both_ends : JS.trim "  Buy milk " = "Buy milk".
Proof. reflexivity. Qed.

Example trim_blank : JS.trim "   " = "".
Proof. reflexivity. Qed.

Example trim_inner_space_kept : JS.trim "a  b" = "a  b".
Proof. reflexivity. Qed.

Example includes_lowered :
  JS.includes (JS.toLowerCase "Call the Bank") (JS.toLowerCase "BANK") = true.
Proof. reflexivity. Qed.

Example image_extension_png : image_extension "/photos/cat.png" = false.
Proof. reflexivity. Qed.

Example image_extension_backslash : image_extension "/photos/cat\.png" = true.
Proof. reflexivity. Qed.

Example image_extension_page : image_extension "/today" = false.
Proof. reflexivity. Qed.

Example listTodos_all :
  listTodos sample_env no_filter sample_world
  = Ok [sample_todo "c" true ["home"] "2024-04-02T10:00:00.000Z";
        sample_todo "a" false ["work"] "2024-04-01T10:00:00.000Z"]
      (sent sample_world).
Proof. reflexivity. Qed.

Example listTodos_incomplete_work :
  listTodos sample_env (mkFilter (Some false) (Some "work") None None None None)
    sample_world
  = Ok [sample_todo "a" false ["work"] "2024-04-01T10:00:00.000Z"] (sent sample_world).
Proof. reflexivity. Qed.

Example getStats_sample :
  getStats sample_env sample_world
  = Ok {| s_total := 2; s_completed := 1; s_pending := 1; s_overdue := 0 |}
      (ticked (sent sample_world)).
Proof. reflexivity. Qed.

Example getTodo_unknown :
  getTodo sample_env "zz" sample_world = Throw (TodoNotFoundError "zz") (sent sample_world).
Proof. reflexivity. Qed.

Example createTodo_engine_down :
  createTodo (mkEnv sample_clock (fun _ => true)) "u-1"
    (mkCreate "Buy milk" None None None None) sample_world
  = Throw (DatabaseError "Failed to create todo" StorageError)
      (sent (ticked sample_world)).
Proof. reflexivity. Qed.

(** *** Strings *)

Lemma compare_refl (s : string) : String.compare s s = Eq.
Proof.
  induction s as [|c s IH]; simpl; [done|].
  unfold Ascii.compare. by rewrite N.compare_refl.
Qed.

Lemma le_compare (a b : string) : String.le a b <-> String.compare a b <> Gt.
Proof.
  unfold String.le, String.leb.
  destruct (String.compare a b); simpl; split; intros; try done.
Qed.

Lemma compare_Lt_le (a b : string) : String.compare a b = Lt -> String.le a b.
Proof. intros H. apply le_compare. by rewrite H. Qed.

Lemma compare_Lt_trans (a b c : string) :
  String.compare a b = Lt -> String.compare b c = Lt -> String.compare a c = Lt.
Proof.
  intros Hab Hbc.
  assert (String.le a c) as Hac.
  { etrans; eapply compare_Lt_le; eauto. }
  apply le_compare in Hac.
  destruct (String.compare a c) eqn:Heq; [|done..].
  apply String.compare_eq_iff in Heq as ->.
  assert (b = c) as ->.
  { apply (anti_symm String.le); by apply compare_Lt_le. }
  by rewrite compare_refl in Hab.
Qed.

Lemma compare_Gt_Lt (a b : string) : String.compare a b = Gt <-> String.compare b a = Lt.
Proof.
  rewrite (String.compare_antisym b a).
  destruct (String.compare a b); simpl; split; congruence.
Qed.

Global Instance createdAt_index_le_trans : Transitive createdAt_index_le.
Proof.
  intros a b c. unfold createdAt_index_le.
  destruct (String.compare (createdAt a) (createdAt b)) eqn:Hab; [| |done].
  - apply String.compare_eq_iff in Hab. rewrite Hab.
    destruct (String.compare (createdAt b) (createdAt c)); [|done..].
    intros ??. by etrans.
  - destruct (String.compare (createdAt b) (createdAt c)) eqn:Hbc; [| |done].
    + apply String.compare_eq_iff in Hbc. rewrite <- Hbc, Hab. done.
    + by rewrite (compare_Lt_trans _ _ _ Hab Hbc).
Qed.

Global Instance createdAt_index_le_total : Total createdAt_index_le.
Proof.
  intros a b. unfold createdAt_index_le.
  rewrite (String.compare_antisym (createdAt b) (createdAt a)).
  destruct (String.compare (createdAt a) (createdAt b)); simpl; auto.
  apply (total String.le).
Qed.

Lemma createdAt_index_le_createdAt a b :
  createdAt_index_le a b -> String.le (createdAt a) (createdAt b).
Proof.
  unfold createdAt_index_le. intros H. apply le_compare.
  by destruct (String.compare (createdAt a) (createdAt b)).
Qed.

(** *** Sorted lists *)

Lemma StronglySorted_filter {A} (R : relation A) (P : A -> Prop)
    `{!forall x, Decision (P x)} (l : list A) :
  StronglySorted R l -> StronglySorted R (filter P l).
Proof.
  induction 1 as [|x l Hl IH Hx]; [constructor|].
  rewrite filter_cons. destruct (decide (P x)); [|done].
  constructor; [done|].
  apply Forall_forall. intros y Hy%list_elem_of_filter.
  rewrite Forall_forall in Hx. apply Hx, Hy.
Qed.

Lemma StronglySorted_weaken {A} (R R' : relation A) (l : list A) :
  (forall x y, R x y -> R' x y) -> StronglySorted R l -> StronglySorted R' l.
Proof.
  intros HR. induction 1 as [|x l Hl IH Hx]; constructor; [done|].
  eapply Forall_impl; eauto.
Qed.

Lemma records_perm (m : gmap string Todo) : records m ≡ₚ (map_to_list m).*2.
Proof. unfold records. by rewrite merge_sort_Permutation. Qed.

Lemma elem_of_records (m : gmap string Todo) (t : Todo) :
  t ∈ records m <-> exists k, m !! k = Some t.
Proof.
  rewrite records_perm, list_elem_of_fmap. split.
  - intros [[k t'] [-> Hin]]. exists k. by apply elem_of_map_to_list.
  - intros [k Hk]. exists (k, t). split; [done|]. by apply elem_of_map_to_list.
Qed.

Lemma length_records (m : gmap string Todo) : length (records m) = size m.
Proof. by rewrite records_perm, length_fmap, length_map_to_list. Qed.

(** *** The filter of [listTodos] *)

Lemma truthy_true (s : string) : JS.truthy s = true <-> s <> "".
Proof.
  unfold JS.truthy. rewrite negb_true_iff. apply String.eqb_neq.
Qed.

Lemma truthy_opt_true (o : option string) :
  JS.truthy_opt o = true <-> exists s, o = Some s /\ s <> "".
Proof.
  destruct o as [s|]; simpl.
  - rewrite truthy_true. naive_solver.
  - naive_solver.
Qed.

Lemma stage_option {A} (o : option A) (c : Todo -> bool) (p : A -> Todo -> bool) t :
  match o with Some x => and_filter c (p x) | None => c end t = true
  <-> c t = true /\ (forall x, o = Some x -> p x t = true).
Proof.
  destruct o as [x|]; unfold and_filter; [rewrite andb_true_iff|]; naive_solver.
Qed.

Lemma stage_text (o : option string) (c p : Todo -> bool) t :
  (if JS.truthy_opt o then and_filter c p else c) t = true
  <-> c t = true /\ (forall s, o = Some s -> s <> "" -> p t = true).
Proof.
  destruct (JS.truthy_opt o) eqn:Ho.
  - apply truthy_opt_true in Ho as (s & -> & Hs).
    unfold and_filter. rewrite andb_true_iff. naive_solver.
  - split; [|naive_solver]. intros Hc. split; [done|]. intros s -> Hs.
    assert (JS.truthy_opt (Some s) = true) by (apply truthy_opt_true; eauto).
    congruence.
Qed.

Lemma due_test_true (d : option string) (f : string -> bool) :
  JS.truthy_opt d && f (default "" d) = true
  <-> exists x, d = Some x /\ x <> "" /\ f x = true.
Proof.
  rewrite andb_true_iff, truthy_opt_true. split.
  - intros [(x & -> & Hx) Hf]. eauto.
  - intros (x & -> & Hx & Hf). eauto.
Qed.

Lemma leb_le (a b : string) : JS.le a b = true <-> String.le a b.
Proof. unfold JS.le, String.le. by rewrite Is_true_true. Qed.

Lemma search_test_true (term : string) (t : Todo) :
  JS.includes (JS.toLowerCase (title t)) (JS.toLowerCase term)
  || match notes t with
     | Some n => JS.includes (JS.toLowerCase n) (JS.toLowerCase term)
     | None => false
     end
  || existsb (fun tag => JS.includes (JS.toLowerCase tag) (JS.toLowerCase term)) (tags t)
  = true <-> text_match term t.
Proof.
  unfold text_match. rewrite !orb_true_iff, existsb_exists.
  setoid_rewrite <- list_elem_of_In.
  destruct (notes t) as [n|]; naive_solver.
Qed.

Lemma build_collection_satisfies (f : TodoFilter) (t : Todo) :
  build_collection f t = true <-> satisfies f t.
Proof.
  unfold build_collection, satisfies. cbv zeta.
  rewrite stage_text, stage_text, stage_text, stage_option, stage_text, stage_option.
  split.
  - intros [[[[[[_ Hc] Hg] Hp] Hb] Ha] Hq].
    split_and!.
    + intros c Hc'. by apply eqb_prop, Hc.
    + intros g Hg' Hne. specialize (Hg g Hg' Hne). rewrite Hg' in Hg.
      by apply bool_decide_eq_true in Hg.
    + intros p Hp'. specialize (Hp p Hp'). by apply bool_decide_eq_true in Hp.
    + intros b Hb' Hne. specialize (Hb b Hb' Hne). rewrite Hb' in Hb. simpl in Hb.
      apply (due_test_true _ (fun x => JS.le x b)) in Hb as (d & ? & ? & ?%leb_le). eauto.
    + intros a Ha' Hne. specialize (Ha a Ha' Hne). rewrite Ha' in Ha. simpl in Ha.
      apply (due_test_true _ (fun x => JS.le a x)) in Ha as (d & ? & ? & ?%leb_le). eauto.
    + intros q Hq' Hne. specialize (Hq q Hq' Hne). rewrite Hq' in Hq. simpl in Hq.
      by apply search_test_true.
  - intros (Hc & Hg & Hp & Hb & Ha & Hq). split_and!; [done|..].
    + intros c Hc'. rewrite (Hc c Hc'). by destruct c.
    + intros g Hg' Hne. rewrite Hg'. apply bool_decide_eq_true. eauto.
    + intros p Hp'. apply bool_decide_eq_true. eauto.
    + intros b Hb' Hne. rewrite Hb'. simpl.
      apply (due_test_true _ (fun x => JS.le x b)).
      destruct (Hb b Hb' Hne) as (d & ? & ? & ?%leb_le). eauto.
    + intros a Ha' Hne. rewrite Ha'. simpl.
      apply (due_test_true _ (fun x => JS.le a x)).
      destruct (Ha a Ha' Hne) as (d & ? & ? & ?%leb_le). eauto.
    + intros q Hq' Hne. rewrite Hq'. simpl. apply search_test_true. eauto.
Qed.

(** *** Running the table operations *)

(** Runs a table operation whose request the engine accepts, or rejects,
    as the hypothesis [Hf] on [fault] says. *)
Ltac run_table Hf :=
  unfold table_get, table_add, table_put, table_update, table_delete,
    table_clear, table_toArray, orderBy_createdAt_reverse,
    creating_hook, updating_hook;
  unfold bind, request, snapshot, now, store, ret;
  cbv beta; rewrite Hf; simpl.

Section TableFacts.
Context (E : Env).

Lemma table_get_run key w :
  fault E (reqs w) = false ->
  table_get E key w = Ok (todos w !! key) (sent w).
Proof. intros Hf. by run_table Hf. Qed.

Lemma table_get_fault key w :
  fault E (reqs w) = true ->
  table_get E key w = Throw StorageError (sent w).
Proof. intros Hf. by run_table Hf. Qed.

Lemma getTodo_found key t w :
  fault E (reqs w) = false -> todos w !! key = Some t ->
  getTodo E key w = Ok t (sent w).
Proof.
  intros Hf Hk. unfold getTodo, try_catch, bind.
  rewrite table_get_run by done. by rewrite Hk.
Qed.

Lemma getTodo_missing key w :
  fault E (reqs w) = false -> todos w !! key = None ->
  getTodo E key w = Throw (TodoNotFoundError key) (sent w).
Proof.
  intros Hf Hk. unfold getTodo, try_catch, bind.
  rewrite table_get_run by done. by rewrite Hk.
Qed.

Lemma orderBy_createdAt_reverse_run p w :
  fault E (reqs w) = false ->
  orderBy_createdAt_reverse E p w
  = Ok (filter (fun t => p t = true)
          (reverse (merge_sort createdAt_index_le (records (todos w))))) (sent w).
Proof. intros Hf. by run_table Hf. Qed.

Lemma index_reverse_sorted (l : list Todo) :
  StronglySorted (fun a b => String.le (createdAt b) (createdAt a))
    (reverse (merge_sort createdAt_index_le l)).
Proof.
  apply (StronglySorted_weaken (flip createdAt_index_le)).
  { intros a b. apply createdAt_index_le_createdAt. }
  apply Sorted_StronglySorted.
  { intros a b c Hab Hbc. unfold flip in *. by etrans. }
  apply Sorted_reverse, Sorted_merge_sort, _.
Qed.

Lemma index_reverse_perm (m : gmap string Todo) :
  reverse (merge_sort createdAt_index_le (records m)) ≡ₚ (map_to_list m).*2.
Proof. by rewrite reverse_Permutation, merge_sort_Permutation, records_perm. Qed.

End TableFacts.

(** C7.  For every filter, [listTodos] returns exactly the stored entities
    that satisfy all the predicates the filter provides, each as often as
    it is stored, in decreasing order of [createdAt]; the store is left as
    it was.  For the filter [{completed: false, tag: "work"}] these are the
    incomplete entities whose tags contain ["work"].  (The request to the
    storage engine is taken to succeed.) *)
Theorem listTodos_conjunction_sorted (E : Env) (w : World) :
  fault E (reqs w) = false ->
  (forall f : TodoFilter,
     exists l : list Todo,
       listTodos E f w = Ok l (sent w)
       /\ (forall t, t ∈ l <-> (exists k, todos w !! k = Some t) /\ satisfies f t)
       /\ (exists p : Todo -> bool,
             (forall t, p t = true <-> satisfies f t)
             /\ l ≡ₚ filter (fun t => p t = true) (map_to_list (todos w)).*2)
       /\ StronglySorted (fun a b => String.le (createdAt b) (createdAt a)) l)
  /\ (exists l : list Todo,
        listTodos E (mkFilter (Some false) (Some "work") None None None None) w
        = Ok l (sent w)
        /\ (forall t, t ∈ l <->
              (exists k, todos w !! k = Some t)
              /\ completed t = false /\ "work" ∈ tags t)
        /\ StronglySorted (fun a b => String.le (createdAt b) (createdAt a)) l).
Proof.
  intros Hf.
  assert (forall f : TodoFilter,
     exists l : list Todo,
       listTodos E f w = Ok l (sent w)
       /\ (forall t, t ∈ l <-> (exists k, todos w !! k = Some t) /\ satisfies f t)
       /\ (exists p : Todo -> bool,
             (forall t, p t = true <-> satisfies f t)
             /\ l ≡ₚ filter (fun t => p t = true) (map_to_list (todos w)).*2)
       /\ StronglySorted (fun a b => String.le (createdAt b) (createdAt a)) l)
    as Hgen.
  { intros f. eexists. split; [|split; [|split]].
    - unfold listTodos, try_catch. by rewrite orderBy_createdAt_reverse_run.
    - intros t. rewrite list_elem_of_filter, index_reverse_perm.
      rewrite build_collection_satisfies, <- records_perm, elem_of_records.
      tauto.
    - exists (build_collection f). split; [apply build_collection_satisfies|].
      by rewrite index_reverse_perm.
    - apply StronglySorted_filter, index_reverse_sorted. }
  split; [done|].
  destruct (Hgen (mkFilter (Some false) (Some "work") None None None None))
    as (l & Hrun & Hmem & _ & Hsorted).
  exists l. split; [done|]. split; [|done].
  intros t. rewrite Hmem. unfold satisfies. simpl. split.
  - intros (Hk & Hc & Hg & _). split; [done|]. split; [by apply Hc|by apply Hg].
  - intros (Hk & Hc & Hg). split; [done|].
    split_and!; try done; intros ? [= <-]; done.
Qed.

Lemma listTodos_conjunction_sorted_witness :
  exists l : list Todo,
    listTodos sample_env (mkFilter (Some false) (Some "work") None None None None)
      sample_world = Ok l (sent sample_world)
    /\ (forall t, t ∈ l <->
          (exists k, todos sample_world !! k = Some t)
          /\ completed t = false /\ "work" ∈ tags t)
    /\ StronglySorted (fun a b => String.le (createdAt b) (createdAt a)) l.
Proof.
  exact (proj2 (listTodos_conjunction_sorted sample_env sample_world eq_refl)).
Defined.

(** *** Counting *)

Lemma length_filter_split {A} (p : A -> bool) (l : list A) :
  length (filter (fun x => p x = true) l)
  + length (filter (fun x => negb (p x) = true) l) = length l.
Proof.
  induction l as [|x l IH]; [done|].
  rewrite !filter_cons. destruct (p x) eqn:Hp; simpl.
  - destruct (decide (true = true)); [|done].
    destruct (decide (false = true)); [done|]. simpl. lia.
  - destruct (decide (false = true)); [done|].
    destruct (decide (true = true)); [|done]. simpl. lia.
Qed.

Lemma length_filter_mono {A} (P Q : A -> Prop)
    `{!forall x, Decision (P x)} `{!forall x, Decision (Q x)} (l : list A) :
  (forall x, P x -> Q x) ->
  length (filter P l) <= length (filter Q l).
Proof.
  intros HPQ. induction l as [|x l IH]; [done|].
  rewrite !filter_cons.
  destruct (decide (P x)) as [HP|]; destruct (decide (Q x)) as [|HQ]; simpl; try lia.
  destruct HQ. auto.
Qed.

Lemma lt_compare (a b : string) : JS.lt a b = true <-> String.compare a b = Lt.
Proof.
  unfold JS.lt, String.ltb. destruct (String.compare a b); split; congruence.
Qed.

Lemma overdue_test_true (now_ : string) (t : Todo) :
  negb (completed t) && JS.truthy_opt (dueDate t)
  && JS.lt (default "" (dueDate t)) now_ = true
  <-> is_overdue now_ t.
Proof.
  unfold is_overdue.
  rewrite <- andb_assoc, andb_true_iff, negb_true_iff.
  rewrite (due_test_true (dueDate t) (fun d => JS.lt d now_)).
  setoid_rewrite lt_compare. done.
Qed.

(** C9.  The counts [getStats] returns are consistent: completed and
    pending add up to the total, which is the number of stored entities;
    overdue is at most pending; and overdue is the number of stored entities
    that are incomplete, have a due date and have it strictly before the
    clock reading the operation takes.  (The request to the storage engine is
    taken to succeed.) *)
Theorem getStats_consistent (E : Env) (w : World) :
  fault E (reqs w) = false ->
  exists st : Stats,
    getStats E w = Ok st (ticked (sent w))
    /\ s_total st = size (todos w)
    /\ s_completed st + s_pending st = s_total st
    /\ s_overdue st <= s_pending st
    /\ s_overdue st
       = length (filter (is_overdue (clock E (ticks w))) (map_to_list (todos w)).*2).
Proof.
  intros Hf. eexists. split.
  { unfold getStats, table_toArray, try_catch, bind, request, snapshot, now, ret.
    cbv beta. rewrite Hf. reflexivity. }
  simpl. split; [apply length_records|]. split; [|split].
  - apply (length_filter_split completed).
  - apply length_filter_mono. intros t Ht.
    rewrite <- andb_assoc in Ht. by apply andb_true_iff in Ht as [? _].
  - rewrite <- records_perm.
    f_equal. apply list_filter_iff. intros t. apply overdue_test_true.
Qed.

Lemma getStats_consistent_witness :
  exists st : Stats,
    getStats sample_env sample_world = Ok st (ticked (sent sample_world))
    /\ s_total st = size (todos sample_world)
    /\ s_completed st + s_pending st = s_total st
    /\ s_overdue st <= s_pending st
    /\ s_overdue st
       = length (filter (is_overdue (clock sample_env (ticks sample_world)))
                   (map_to_list (todos sample_world)).*2).
Proof. exact (getStats_consistent sample_env sample_world eq_refl). Defined.

(** *** Creating and reading back *)

Section CreateFacts.
Context (E : Env).

Lemma table_add_run obj w :
  fault E (reqs w) = false ->
  todos w !! id obj = None ->
  table_add E obj w
  = Ok (id obj)
      (mkWorld (<[id obj := stamp (clock E (ticks w)) obj]> (todos w))
         (S (ticks w)) (S (reqs w))).
Proof.
  intros Hf Hk.
  run_table Hf. by rewrite Hk.
Qed.

Lemma table_add_taken obj w :
  fault E (reqs w) = false ->
  is_Some (todos w !! id obj) ->
  table_add E obj w = Throw ConstraintError (ticked (sent w)).
Proof.
  intros Hf [old Hk].
  run_table Hf. by rewrite Hk.
Qed.

Lemma createTodo_run uuid dto w :
  fault E (reqs w) = false ->
  todos w !! uuid = None ->
  createTodo E uuid dto w
  = Ok uuid
      (mkWorld
         (<[uuid := stamp (clock E (S (ticks w))) (new_todo uuid (clock E (ticks w)) dto)]>
            (todos w))
         (S (S (ticks w))) (S (reqs w))).
Proof.
  intros Hf Hk. unfold createTodo, try_catch, bind at 1, now.
  unfold bind. rewrite table_add_run by done. done.
Qed.

Lemma createTodo_taken uuid dto w :
  fault E (reqs w) = false ->
  is_Some (todos w !! uuid) ->
  createTodo E uuid dto w
  = Throw (DatabaseError "Failed to create todo" ConstraintError)
      (ticked (sent (ticked w))).
Proof.
  intros Hf Hk. unfold createTodo, try_catch, bind at 1, now.
  unfold bind. rewrite table_add_taken by done. done.
Qed.

End CreateFacts.

Lemma title_accepted_false (s : string) :
  title_accepted s = false <-> JS.trim s = "".
Proof.
  unfold title_accepted, JS.truthy. rewrite negb_false_iff. apply String.eqb_eq.
Qed.

(** C3, as the code has it.  [createTodo] makes no check of the title: it
    trims it and stores what is left, be it empty; the check is made by the
    form, which accepts a title exactly when it is not empty once trimmed.
    When the drawn id is free, [createTodo] returns it and [getTodo] then
    returns the entity: trimmed title, not completed, priority [normal]
    and no tags unless given, [createdAt] and [updatedAt] both the clock
    reading taken as the record is stored; the other entities are untouched.
    When the id is taken, [createTodo] fails and stores nothing.  (The
    requests to the storage engine are taken to succeed.) *)
Theorem createTodo_then_getTodo (E : Env) (uuid : string) (dto : CreateTodoDto) (w : World) :
  fault E (reqs w) = false ->
  fault E (S (reqs w)) = false ->
  (title_accepted (c_title dto) = false <-> JS.trim (c_title dto) = "")
  /\ match todos w !! uuid with
     | None =>
         exists (w1 : World) (t : Todo),
           createTodo E uuid dto w = Ok uuid w1
           /\ getTodo E uuid w1 = Ok t (sent w1)
           /\ id t = uuid
           /\ title t = JS.trim (c_title dto)
           /\ completed t = false
           /\ priority t = default normal (c_priority dto)
           /\ tags t = default [] (c_tags dto)
           /\ createdAt t = clock E (S (ticks w))
           /\ updatedAt t = clock E (S (ticks w))
           /\ (forall k, k <> uuid -> todos w1 !! k = todos w !! k)
     | Some _ =>
         exists w1 : World,
           createTodo E uuid dto w
           = Throw (DatabaseError "Failed to create todo" ConstraintError) w1
           /\ todos w1 = todos w
     end.
Proof.
  intros Hf1 Hf2. split; [apply title_accepted_false|].
  destruct (todos w !! uuid) as [old|] eqn:Hk.
  - eexists. split; [by apply createTodo_taken|done].
  - eexists _, _. split; [by apply createTodo_run|].
    split.
    { apply getTodo_found; [done|]. simpl. apply lookup_insert_eq. }
    simpl. split_and!; try done.
    intros k Hne. by rewrite lookup_insert_ne.
Qed.

Lemma createTodo_then_getTodo_witness :
  exists (w1 : World) (t : Todo),
    createTodo sample_env "u-1" (mkCreate "Buy milk" None None None None) sample_world
    = Ok "u-1" w1
    /\ getTodo sample_env "u-1" w1 = Ok t (sent w1)
    /\ id t = "u-1"
    /\ title t = "Buy milk"
    /\ completed t = false
    /\ priority t = normal
    /\ tags t = []
    /\ createdAt t = "2024-05-01T08:00:01.000Z"
    /\ updatedAt t = "2024-05-01T08:00:01.000Z"
    /\ (forall k, k <> "u-1" -> todos w1 !! k = todos sample_world !! k).
Proof.
  exact (proj2 (createTodo_then_getTodo sample_env "u-1"
                  (mkCreate "Buy milk" None None None None) sample_world
                  eq_refl eq_refl)).
Defined.

(** C3 as stated fails: a title of two spaces is not rejected; the entity
    is stored with the empty title. *)
Lemma createTodo_blank_title_stored :
  exists w1 : World,
    createTodo sample_env "u-1" (mkCreate "  " None None None None) sample_world
    = Ok "u-1" w1
    /\ title <$> todos w1 !! "u-1" = Some "".
Proof.
  eexists. split; [apply createTodo_run; reflexivity|].
  simpl. by rewrite lookup_insert_eq.
Qed.

(** *** Updating and toggling *)

Section UpdateFacts.
Context (E : Env).

Lemma table_update_run key changes old w :
  fault E (reqs w) = false ->
  todos w !! key = Some old ->
  table_update E key changes w
  = if anythingModified changes old
    then Ok 1 (mkWorld (<[key := apply_mods changes old]> (todos w))
                 (S (ticks w)) (S (reqs w)))
    else Ok 0 (sent w).
Proof.
  intros Hf Hk.
  run_table Hf. rewrite Hk.
  by destruct (anythingModified changes old).
Qed.

Lemma table_update_missing key changes w :
  fault E (reqs w) = false ->
  todos w !! key = None ->
  table_update E key changes w = Ok 0 (sent w).
Proof.
  intros Hf Hk.
  run_table Hf. by rewrite Hk.
Qed.

Lemma table_update_fault key changes w :
  fault E (reqs w) = true ->
  table_update E key changes w = Throw StorageError (sent w).
Proof.
  intros Hf. by run_table Hf.
Qed.

Lemma updateTodo_missing key dto w :
  fault E (reqs w) = false ->
  todos w !! key = None ->
  updateTodo E key dto w = Throw (TodoNotFoundError key) (sent w).
Proof.
  intros Hf Hk. unfold updateTodo, try_catch, bind.
  by rewrite getTodo_missing.
Qed.

Lemma updateTodo_run key dto old w :
  fault E (reqs w) = false ->
  fault E (S (reqs w)) = false ->
  todos w !! key = Some old ->
  anythingModified (update_mods (clock E (ticks w)) dto) old = true ->
  updateTodo E key dto w
  = Ok tt (mkWorld (<[key := apply_mods (update_mods (clock E (ticks w)) dto) old]> (todos w))
             (S (S (ticks w))) (S (S (reqs w)))).
Proof.
  intros Hf1 Hf2 Hk Hmod. unfold updateTodo, try_catch, bind at 1.
  rewrite (getTodo_found E key old) by done.
  unfold bind at 1, now. unfold bind.
  rewrite (table_update_run key _ old) by done.
  simpl. by rewrite Hmod.
Qed.

Lemma negated_modifies n (t : Todo) :
  anythingModified (update_mods n (negated (completed t))) t = true.
Proof.
  unfold anythingModified. simpl.
  destruct (completed t); simpl; by rewrite ?orb_true_r.
Qed.

Lemma toggleTodo_missing key w :
  fault E (reqs w) = false ->
  todos w !! key = None ->
  toggleTodo E key w = Throw (TodoNotFoundError key) (sent w).
Proof.
  intros Hf Hk. unfold toggleTodo, try_catch, bind.
  by rewrite getTodo_missing.
Qed.

Lemma toggleTodo_as_update key t w :
  fault E (reqs w) = false ->
  fault E (S (reqs w)) = false ->
  fault E (S (S (reqs w))) = false ->
  todos w !! key = Some t ->
  toggleTodo E key w = updateTodo E key (negated (completed t)) (sent w).
Proof.
  intros Hf1 Hf2 Hf3 Hk. unfold toggleTodo, try_catch, bind.
  rewrite (getTodo_found E key t) by done.
  rewrite (updateTodo_run key _ t) by (try done; apply negated_modifies).
  done.
Qed.

End UpdateFacts.

(** C8, as the code has it.  [toggleTodo] on an id that is not stored fails
    with [TodoNotFoundError], as [updateTodo] does.  On a stored entity it
    does what [updateTodo] does with the negated flag once the entity has
    been read: the flag is flipped, [updatedAt] is the clock reading of the
    call, and nothing else changes.  Toggling twice gives back the original
    flag.  Each toggle sets [updatedAt] to the reading of the clock it takes,
    so [updatedAt] strictly increases on a toggle exactly when that reading
    is strictly later than the value stored before; nothing in the code
    makes it so.  (The requests to the storage engine are taken to
    succeed.) *)
Theorem toggleTodo_twice (E : Env) (key : string) (w : World) :
  no_fault E ->
  match todos w !! key with
  | None =>
      toggleTodo E key w = Throw (TodoNotFoundError key) (sent w)
      /\ forall dto, updateTodo E key dto w = Throw (TodoNotFoundError key) (sent w)
  | Some t =>
      exists (w1 w2 : World) (t1 t2 : Todo),
        toggleTodo E key w = Ok tt w1
        /\ toggleTodo E key w = updateTodo E key (negated (completed t)) (sent w)
        /\ todos w1 !! key = Some t1
        /\ t1 = {| id := id t; title := title t; notes := notes t;
                   dueDate := dueDate t; priority := priority t; tags := tags t;
                   completed := negb (completed t);
                   createdAt := createdAt t;
                   updatedAt := clock E (ticks w) |}
        /\ toggleTodo E key w1 = Ok tt w2
        /\ todos w2 !! key = Some t2
        /\ completed t2 = completed t
        /\ updatedAt t2 = clock E (ticks w1)
        /\ ticks w1 = S (S (ticks w))
        /\ (String.compare (updatedAt t) (updatedAt t1) = Lt
            <-> String.compare (updatedAt t) (clock E (ticks w)) = Lt)
        /\ (String.compare (updatedAt t1) (updatedAt t2) = Lt
            <-> String.compare (clock E (ticks w)) (clock E (S (S (ticks w)))) = Lt)
  end.
Proof.
  intros Hnf. destruct (todos w !! key) as [t|] eqn:Hk.
  - pose proof (toggleTodo_as_update E key t w (Hnf _) (Hnf _) (Hnf _) Hk) as Heq.
    pose proof (updateTodo_run E key (negated (completed t)) t (sent w)
                  (Hnf _) (Hnf _) Hk (negated_modifies _ t)) as Hrun.
    rewrite <- Heq in Hrun.
    set (t1 := apply_mods (update_mods (clock E (ticks w)) (negated (completed t))) t) in *.
    set (w1 := mkWorld (<[key:=t1]> (todos (sent w))) (S (S (ticks (sent w))))
                 (S (S (reqs (sent w))))) in *.
    assert (todos w1 !! key = Some t1) as Hk1 by apply lookup_insert_eq.
    pose proof (toggleTodo_as_update E key t1 w1 (Hnf _) (Hnf _) (Hnf _) Hk1) as Heq1.
    pose proof (updateTodo_run E key (negated (completed t1)) t1 (sent w1)
                  (Hnf _) (Hnf _) Hk1 (negated_modifies _ t1)) as Hrun1.
    rewrite <- Heq1 in Hrun1.
    eexists w1, _, t1, _.
    split; [exact Hrun|]. split; [exact Heq|]. split; [exact Hk1|].
    split; [done|]. split; [exact Hrun1|].
    split; [apply lookup_insert_eq|].
    split; [simpl; apply negb_involutive|].
    split; [done|]. split; [done|]. split; [done|]. done.
  - split; [by apply toggleTodo_missing|].
    intros dto. by apply updateTodo_missing.
Qed.

Lemma toggleTodo_twice_witness :
  exists (w1 w2 : World) (t1 t2 : Todo),
    toggleTodo sample_env "a" sample_world = Ok tt w1
    /\ todos w1 !! "a" = Some t1
    /\ completed t1 = true
    /\ toggleTodo sample_env "a" w1 = Ok tt w2
    /\ todos w2 !! "a" = Some t2
    /\ completed t2 = false
    /\ String.compare "2024-04-01T10:00:00.000Z" (updatedAt t1) = Lt
    /\ String.compare (updatedAt t1) (updatedAt t2) = Lt.
Proof.
  destruct (toggleTodo_twice sample_env "a" sample_world (fun k => eq_refl))
    as (w1 & w2 & t1 & t2 & H1 & _ & H2 & H3 & H4 & H5 & H6 & H7 & H8 & H9 & H10).
  exists w1, w2, t1, t2.
  split; [exact H1|]. split; [exact H2|]. split; [by rewrite H3|].
  split; [exact H4|]. split; [exact H5|]. split; [exact H6|].
  split; [apply (proj2 H9); reflexivity|apply (proj2 H10); reflexivity].
Defined.

(** C8 as stated fails: with a clock that reads the same when the entity is
    toggled as when it was last written, two toggles succeed and give back
    the original flag, and [updatedAt] is after each of them what it was
    before. *)
Lemma toggleTodo_same_reading_keeps_updatedAt :
  exists (w1 w2 : World) (t1 t2 : Todo),
    todos sample_world !! "a" = Some (sample_todo "a" false ["work"] "2024-04-01T10:00:00.000Z")
    /\ toggleTodo frozen_env "a" sample_world = Ok tt w1
    /\ todos w1 !! "a" = Some t1
    /\ completed t1 = true
    /\ toggleTodo frozen_env "a" w1 = Ok tt w2
    /\ todos w2 !! "a" = Some t2
    /\ completed t2 = false
    /\ updatedAt t1 = "2024-04-01T10:00:00.000Z"
    /\ updatedAt t2 = "2024-04-01T10:00:00.000Z"
    /\ String.compare "2024-04-01T10:00:00.000Z" (updatedAt t1) <> Lt
    /\ String.compare (updatedAt t1) (updatedAt t2) <> Lt.
Proof.
  exists (state_of (toggleTodo frozen_env "a" sample_world)),
    (state_of (toggleTodo frozen_env "a"
                 (state_of (toggleTodo frozen_env "a" sample_world)))),
    (sample_todo "a" true ["work"] "2024-04-01T10:00:00.000Z"),
    (sample_todo "a" false ["work"] "2024-04-01T10:00:00.000Z").
  split; [vm_compute; reflexivity|]. split; [vm_compute; reflexivity|].
  split; [vm_compute; reflexivity|]. split; [reflexivity|].
  split; [vm_compute; reflexivity|]. split; [vm_compute; reflexivity|].
  split; [reflexivity|]. split; [reflexivity|]. split; [reflexivity|].
  split; vm_compute; discriminate.
Qed.

(** *** Bulk operations *)

Lemma differs_false {A} `{EqDecision A} (o : option A) (old : A) :
  differs o old = false -> default old o = old.
Proof.
  destruct o as [v|]; simpl; [|done].
  rewrite negb_false_iff. by intros ?%bool_decide_eq_true.
Qed.

Lemma differs_opt_false {A} `{EqDecision A} (o old : option A) :
  differs_opt o old = false ->
  match o with Some v => Some v | None => old end = old.
Proof.
  destruct o as [v|]; simpl; [|done].
  rewrite negb_false_iff. by intros ?%bool_decide_eq_true.
Qed.

Lemma apply_mods_unmodified (m : Modifications) (t : Todo) :
  anythingModified m t = false -> apply_mods m t = t.
Proof.
  unfold anythingModified. rewrite !orb_false_iff.
  intros [[[[[[H1 H2] H3] H4] H5] H6] H7].
  apply bool_decide_eq_false in H5.
  destruct (m_tags m) as [g|] eqn:Hg; [destruct H5; eauto|].
  destruct t as [i ti no du pr ta co cr up]. unfold apply_mods. simpl in *.
  rewrite Hg. simpl.
  rewrite (differs_false _ _ H1), (differs_opt_false _ _ H2),
    (differs_opt_false _ _ H3), (differs_false _ _ H4),
    (differs_false _ _ H6), (differs_false _ _ H7).
  done.
Qed.

Lemma apply_mods_idemp (m : Modifications) (t : Todo) :
  apply_mods m (apply_mods m t) = apply_mods m t.
Proof.
  destruct m as [a b c d e f g], t as [i ti no du pr ta co cr up].
  unfold apply_mods. simpl.
  destruct a, b, c, d, e, f, g; reflexivity.
Qed.

Section BulkFacts.
Context (E : Env).

Lemma table_delete_run key w :
  fault E (reqs w) = false ->
  table_delete E key w = Ok tt (mkWorld (delete key (todos w)) (ticks w) (S (reqs w))).
Proof.
  intros Hf. by run_table Hf.
Qed.

Lemma table_delete_fault key w :
  fault E (reqs w) = true ->
  table_delete E key w = Throw StorageError (sent w).
Proof.
  intros Hf. by run_table Hf.
Qed.

(** The outcome of [update] seen from the table alone. *)
Lemma table_update_effect key changes w :
  fault E (reqs w) = false ->
  exists n w',
    table_update E key changes w = Ok n w'
    /\ reqs w' = S (reqs w)
    /\ forall k, todos w' !! k
                 = if decide (k = key) then apply_mods changes <$> todos w !! k
                   else todos w !! k.
Proof.
  intros Hf. destruct (todos w !! key) as [old|] eqn:Hk.
  - rewrite (table_update_run E key changes old) by done.
    destruct (anythingModified changes old) eqn:Hmod; eexists _, _; (split; [done|]);
      (split; [done|]); intros k; simpl; case_decide as Hkk; subst.
    + by rewrite lookup_insert_eq, Hk.
    + by rewrite lookup_insert_ne.
    + rewrite Hk. simpl. by rewrite apply_mods_unmodified.
    + done.
  - rewrite table_update_missing by done. eexists _, _. split; [done|].
    split; [done|]. intros k. simpl. case_decide; subst; [by rewrite Hk|done].
Qed.

Lemma delete_loop ids w :
  match for_of ids (table_delete E) w with
  | Ok _ w' =>
      (forall j, j < length ids -> fault E (reqs w + j) = false)
      /\ forall k, todos w' !! k = if decide (k ∈ ids) then None else todos w !! k
  | Throw e w' =>
      e = StorageError /\ exists j, j < length ids /\ fault E (reqs w + j) = true
  end.
Proof.
  revert w. induction ids as [|x ids IH]; intros w.
  { simpl. split; [intros j; lia|]. done. }
  change (for_of (x :: ids) (table_delete E) w)
    with (bind (table_delete E x) (fun _ => for_of ids (table_delete E)) w).
  unfold bind. destruct (fault E (reqs w)) eqn:Hf.
  - rewrite table_delete_fault by done. split; [done|].
    exists 0. simpl. split; [lia|]. by rewrite Nat.add_0_r.
  - rewrite table_delete_run by done.
    specialize (IH (mkWorld (delete x (todos w)) (ticks w) (S (reqs w)))).
    destruct (for_of ids (table_delete E) _) as [[] w'|e w']; simpl in IH.
    + destruct IH as [Hnf IH]. split.
      * intros [|j] Hj; [by rewrite Nat.add_0_r|].
        replace (reqs w + S j) with (S (reqs w + j)) by lia.
        apply Hnf. simpl in Hj. lia.
      * intros k. rewrite IH. destruct (decide (k = x)) as [->|Hne].
        -- rewrite lookup_delete_eq.
           rewrite (decide_True (P := x ∈ x :: ids)) by (by left).
           by case_decide.
        -- rewrite lookup_delete_ne by done.
           destruct (decide (k ∈ ids)) as [Hin|Hin].
           ++ by rewrite decide_True by (by right).
           ++ rewrite decide_False; [done|].
              intros [?|?]%elem_of_cons; done.
    + destruct IH as [-> (j & Hj & Hfj)]. split; [done|].
      exists (S j). simpl. split; [lia|].
      by replace (reqs w + S j) with (S (reqs w + j)) by lia.
Qed.

Lemma complete_loop changes ids w :
  match for_of ids (fun key => _ <- table_update E key changes ;; ret tt) w with
  | Ok _ w' =>
      (forall j, j < length ids -> fault E (reqs w + j) = false)
      /\ forall k, todos w' !! k
                   = if decide (k ∈ ids) then apply_mods changes <$> todos w !! k
                     else todos w !! k
  | Throw e w' =>
      e = StorageError /\ exists j, j < length ids /\ fault E (reqs w + j) = true
  end.
Proof.
  revert w. induction ids as [|x ids IH]; intros w.
  { simpl. split; [intros j; lia|]. done. }
  change (for_of (x :: ids) (fun key => _ <- table_update E key changes ;; ret tt) w)
    with (bind (bind (table_update E x changes) (fun _ => ret tt))
            (fun _ => for_of ids (fun key => _ <- table_update E key changes ;; ret tt)) w).
  unfold bind at 1 2. destruct (fault E (reqs w)) eqn:Hf.
  - rewrite table_update_fault by done. split; [done|].
    exists 0. simpl. split; [lia|]. by rewrite Nat.add_0_r.
  - destruct (table_update_effect x changes w Hf) as (n & w1 & -> & Hreqs & Hw1).
    unfold ret. specialize (IH w1). rewrite Hreqs in IH.
    destruct (for_of ids _ w1) as [[] w'|e w']; simpl in IH.
    + destruct IH as [Hnf IH]. split.
      * intros [|j] Hj; [by rewrite Nat.add_0_r|].
        replace (reqs w + S j) with (S (reqs w) + j) by lia.
        apply Hnf. simpl in Hj. lia.
      * intros k. rewrite IH, Hw1. destruct (decide (k = x)) as [->|Hne].
        -- rewrite (decide_True (P := x ∈ x :: ids)) by (by left).
           case_decide; [|done].
           destruct (todos w !! x); simpl; [|done]. by rewrite apply_mods_idemp.
        -- destruct (decide (k ∈ ids)) as [Hin|Hin].
           ++ by rewrite decide_True by (by right).
           ++ rewrite decide_False; [done|].
              intros [?|?]%elem_of_cons; done.
    + destruct IH as [-> (j & Hj & Hfj)]. split; [done|].
      exists (S j). simpl. split; [lia|].
      by replace (reqs w + S j) with (S (reqs w) + j) by lia.
Qed.

End BulkFacts.

(** C2, as the code has it.  [bulkDelete] and [bulkComplete] make all their
    writes in one transaction.  When the call returns, every listed id that
    is stored has been deleted, respectively completed with [updatedAt] the
    clock reading of the call, and the other entities are untouched; an id
    that is not stored is passed over and is no failure.  When the call
    fails, the table is as it was before the call.  The call returns when
    the storage engine accepts the request made for each id, and fails when
    it rejects one of them. *)
Theorem bulk_operations_atomic (E : Env) (ids : list string) (w : World) :
  match bulkDelete E ids w with
  | Ok _ w' =>
      forall k, todos w' !! k = if decide (k ∈ ids) then None else todos w !! k
  | Throw e w' =>
      todos w' = todos w
      /\ e = DatabaseError "Failed to bulk delete todos" StorageError
  end
  /\ match bulkComplete E ids w with
     | Ok _ w' =>
         forall k, todos w' !! k
                   = if decide (k ∈ ids)
                     then apply_mods (completion (clock E (ticks w))) <$> todos w !! k
                     else todos w !! k
     | Throw e w' =>
         todos w' = todos w
         /\ e = DatabaseError "Failed to bulk complete todos" StorageError
     end
  /\ ((forall j, j < length ids -> fault E (reqs w + j) = false) ->
      (exists w1, bulkDelete E ids w = Ok tt w1)
      /\ (exists w2, bulkComplete E ids w = Ok tt w2))
  /\ ((exists j, j < length ids /\ fault E (reqs w + j) = true) ->
      (exists e1 w1, bulkDelete E ids w = Throw e1 w1)
      /\ (exists e2 w2, bulkComplete E ids w = Throw e2 w2)).
Proof.
  pose proof (delete_loop E ids w) as Hd.
  pose proof (complete_loop E (completion (clock E (ticks w))) ids (ticked w)) as Hc.
  unfold bulkDelete, bulkComplete, try_catch, transaction, wrap, throw.
  unfold bind at 1 3 5, now.
  change (for_of ids (fun id0 : string => table_delete E id0))
    with (for_of ids (table_delete E)).
  destruct (for_of ids (table_delete E) w) as [[] wd|ed wd];
    destruct (for_of ids _ (ticked w)) as [[] wc|ec wc]; simpl in Hc.
  - destruct Hd as [Hnf Hd], Hc as [_ Hc]. split_and!; try done; [eauto|].
    intros (j & Hj & Hfj). rewrite Hnf in Hfj by done. done.
  - destruct Hd as [Hnf _], Hc as [_ (j & Hj & Hfj)].
    rewrite Hnf in Hfj by done. done.
  - destruct Hc as [Hnf _], Hd as [_ (j & Hj & Hfj)].
    rewrite Hnf in Hfj by done. done.
  - destruct Hd as [-> Hd], Hc as [-> _]. split_and!; try done; [|eauto 10].
    intros Hnf. destruct Hd as (j & Hj & Hfj). rewrite Hnf in Hfj by done. done.
Qed.

Lemma bulk_operations_atomic_witness :
  (exists w1, bulkDelete sample_env ["a"; "b"; "c"] sample_world = Ok tt w1)
  /\ (exists w2, bulkComplete sample_env ["a"; "b"; "c"] sample_world = Ok tt w2).
Proof.
  apply (bulk_operations_atomic sample_env ["a"; "b"; "c"] sample_world).
  intros j _. reflexivity.
Defined.

(** C2 as stated fails: with [a] and [c] stored and [b] not,
    [bulkDelete(["a", "b", "c"])] succeeds and deletes [a] and [c]. *)
Lemma bulkDelete_missing_id_deletes_others :
  todos sample_world !! "b" = None
  /\ is_Some (todos sample_world !! "a")
  /\ is_Some (todos sample_world !! "c")
  /\ exists w1 : World,
       bulkDelete sample_env ["a"; "b"; "c"] sample_world = Ok tt w1
       /\ todos w1 !! "a" = None
       /\ todos w1 !! "c" = None.
Proof.
  split; [reflexivity|]. split; [by eexists|]. split; [by eexists|].
  eexists. split; [reflexivity|]. split; reflexivity.
Qed.

(** *** Import *)

Section ImportFacts.
Context (E : Env).

Lemma importTodos_unfold rs overwrite :
  importTodos E (JsonArray rs) overwrite
  = try_catch
      ((if overwrite then table_clear E else ret tt) ;;;
       transaction (for_of rs (import_step E)) ;;;
       ret (length rs))
      (wrap "Failed to import todos").
Proof. reflexivity. Qed.

Lemma table_put_run obj w :
  fault E (reqs w) = false ->
  table_put E obj w
  = Ok (id obj)
      (mkWorld
         (<[id obj := match todos w !! id obj with
                      | None => stamp (clock E (ticks w)) obj
                      | Some _ => obj
                      end]> (todos w))
         (S (ticks w)) (S (reqs w))).
Proof.
  intros Hf.
  run_table Hf. by destruct (todos w !! id obj).
Qed.

Lemma table_put_fault obj w :
  fault E (reqs w) = true ->
  table_put E obj w = Throw StorageError (sent w).
Proof.
  intros Hf. by run_table Hf.
Qed.

Lemma table_clear_run w :
  fault E (reqs w) = false ->
  table_clear E w = Ok tt (mkWorld ∅ (ticks w) (S (reqs w))).
Proof.
  intros Hf. by run_table Hf.
Qed.

Lemma table_clear_fault w :
  fault E (reqs w) = true ->
  table_clear E w = Throw StorageError (sent w).
Proof.
  intros Hf. by run_table Hf.
Qed.

Lemma import_loop_invalid rs w :
  Exists (fun r => invalid_record r = true) rs ->
  exists e w', for_of rs (import_step E) w = Throw e w'.
Proof.
  intros Hex. revert w. induction Hex as [r rs Hr|r rs Hex IH]; intros w.
  - simpl. unfold bind, import_step. rewrite Hr. unfold throw. eauto.
  - simpl. unfold bind. destruct (import_step E r w) as [[] w1|e w1]; [|eauto].
    apply IH.
Qed.

(** Without [overwrite], a failed import leaves the table as it was. *)
Lemma importTodos_keep_atomic jsonData w e w' :
  importTodos E jsonData false w = Throw e w' -> todos w' = todos w.
Proof.
  destruct jsonData as [| |rs]; [by intros [= <- <-]..|].
  rewrite importTodos_unfold.
  unfold try_catch, bind, transaction, wrap, throw, ret.
  destruct (for_of rs (import_step E) w) as [[] w1|e1 w1]; [done|].
  by intros [= <- <-].
Qed.

(** With [overwrite], an import that finds an invalid record fails, and
    leaves the table empty. *)
Lemma importTodos_overwrite_invalid rs w :
  fault E (reqs w) = false ->
  Exists (fun r => invalid_record r = true) rs ->
  exists e w',
    importTodos E (JsonArray rs) true w = Throw e w' /\ todos w' = ∅.
Proof.
  intros Hf Hex. rewrite importTodos_unfold.
  unfold try_catch, bind at 1. rewrite table_clear_run by done.
  unfold bind, transaction, wrap, throw.
  destruct (import_loop_invalid rs (mkWorld ∅ (ticks w) (S (reqs w))) Hex)
    as (e & w1 & ->).
  eauto.
Qed.

Lemma last_with_id_cons k r rs :
  last_with_id k (r :: rs)
  = match last_with_id k rs with
    | Some y => Some y
    | None => if decide (id (as_todo r) = k) then Some r else None
    end.
Proof.
  unfold last_with_id. rewrite filter_cons.
  destruct (decide (id (as_todo r) = k)); [|by destruct (last _)].
  by rewrite last_cons.
Qed.

Lemma import_loop_valid rs w :
  Forall (fun r => invalid_record r = false) rs ->
  (forall j, j < length rs -> fault E (reqs w + j) = false) ->
  exists w',
    for_of rs (import_step E) w = Ok tt w'
    /\ (forall k, last_with_id k rs = None -> todos w' !! k = todos w !! k)
    /\ (forall k r, last_with_id k rs = Some r -> is_Some (todos w' !! k))
    /\ (forall k r, last_with_id k rs = Some r -> is_Some (todos w !! k) ->
          todos w' !! k = Some (as_todo r)).
Proof.
  intros Hv. revert w. induction Hv as [|r rs Hr Hv IH]; intros w Hnf.
  { exists w. split; [done|]. split; [done|]. split; intros ?? [=]. }
  change (for_of (r :: rs) (import_step E) w)
    with (bind (import_step E r) (fun _ => for_of rs (import_step E)) w).
  unfold bind at 1, import_step at 1. rewrite Hr.
  unfold bind at 1. rewrite table_put_run by (rewrite <- (Nat.add_0_r (reqs w)); apply Hnf; simpl; lia).
  unfold ret.
  set (x := match todos w !! id (as_todo r) with
            | None => stamp (clock E (ticks w)) (as_todo r)
            | Some _ => as_todo r
            end).
  set (w1 := mkWorld (<[id (as_todo r) := x]> (todos w)) (S (ticks w)) (S (reqs w))).
  destruct (IH w1) as (w' & Hrun & Hnone & Hsome & Hrepl).
  { intros j Hj. simpl. replace (S (reqs w + j)) with (reqs w + S j) by lia.
    apply Hnf. simpl. lia. }
  exists w'. split; [done|]. split; [|split].
  - intros k. rewrite last_with_id_cons.
    destruct (last_with_id k rs) eqn:Hl; [done|]. case_decide as Hk; [done|].
    intros _. rewrite Hnone by done. simpl. by rewrite lookup_insert_ne.
  - intros k r'. rewrite last_with_id_cons.
    destruct (last_with_id k rs) as [y|] eqn:Hl; [eauto|].
    case_decide as Hk; [|done]. intros _. rewrite Hnone by done.
    subst k. simpl. rewrite lookup_insert_eq. eauto.
  - intros k r'. rewrite last_with_id_cons.
    destruct (last_with_id k rs) as [y|] eqn:Hl.
    + intros [= <-] Hex. apply Hrepl; [done|]. simpl.
      destruct (decide (id (as_todo r) = k)) as [<-|Hne].
      * rewrite lookup_insert_eq. eauto.
      * by rewrite lookup_insert_ne.
    + case_decide as Hk; [|done]. intros [= <-] [old Hold].
      rewrite Hnone by done. subst k. simpl. rewrite lookup_insert_eq.
      subst x. by rewrite Hold.
Qed.

End ImportFacts.

(** C1, where the code departs from it.  The store holds two entities; an
    import with [overwrite] whose second record has an empty id fails, and
    the store is left empty: the clearing is not undone, as it was made
    before the transaction of the inserts was opened. *)
Theorem importTodos_overwrite_failure_clears :
  let good := of_todo (sample_todo "n" false [] "2024-04-03T10:00:00.000Z") in
  let bad :=
    mkImport (Some "") (Some "No id") (Some false) None None normal []
      "2024-04-03T10:00:00.000Z" "2024-04-03T10:00:00.000Z" in
  size (todos sample_world) = 2
  /\ invalid_record good = false
  /\ invalid_record bad = true
  /\ exists w1 : World,
       importTodos sample_env (JsonArray [good; bad]) true sample_world
       = Throw (DatabaseError "Failed to import todos" (Error "Invalid todo format")) w1
       /\ todos w1 = ∅.
Proof.
  split; [reflexivity|]. split; [reflexivity|]. split; [reflexivity|].
  eexists. split; reflexivity.
Qed.

(** C10.  [importTodos] without [overwrite], given an array of valid
    records, puts each of them and returns the length of the array.  A
    record whose id is already stored replaces the stored entity (the last
    such record of the array is the one that stays); ids that occur in no
    record keep their entity.  When every id of the array is already
    stored, the store has as many entities as before, and the count
    returned is still the length of the array.  (The requests to the storage
    engine are taken to succeed.) *)
Theorem importTodos_upserts (E : Env) (rs : list ImportRecord) (w : World) :
  Forall (fun r => invalid_record r = false) rs ->
  (forall j, j < length rs -> fault E (reqs w + j) = false) ->
  exists w' : World,
    importTodos E (JsonArray rs) false w = Ok (length rs) w'
    /\ (forall k r, last_with_id k rs = Some r -> is_Some (todos w !! k) ->
          todos w' !! k = Some (as_todo r))
    /\ (forall k r, last_with_id k rs = Some r -> is_Some (todos w' !! k))
    /\ (forall k, last_with_id k rs = None -> todos w' !! k = todos w !! k)
    /\ ((forall k r, last_with_id k rs = Some r -> is_Some (todos w !! k)) ->
        size (todos w') = size (todos w)).
Proof.
  intros Hv Hnf.
  destruct (import_loop_valid E rs w Hv Hnf) as (w' & Hrun & Hnone & Hsome & Hrepl).
  exists w'. split.
  { rewrite importTodos_unfold.
    unfold try_catch, bind, transaction, ret. by rewrite Hrun. }
  split; [done|]. split; [done|]. split; [done|].
  intros Hall. rewrite <- !size_dom. f_equal. apply set_eq. intros k.
  rewrite !elem_of_dom.
  destruct (last_with_id k rs) as [r|] eqn:Hl.
  - split; intros _; eauto.
  - by rewrite Hnone.
Qed.

Lemma importTodos_upserts_witness :
  exists w' : World,
    importTodos sample_env
      (JsonArray [of_todo (sample_todo "a" true ["later"] "2024-04-09T10:00:00.000Z")])
      false sample_world = Ok 1 w'
    /\ todos w' !! "a" = Some (sample_todo "a" true ["later"] "2024-04-09T10:00:00.000Z")
    /\ size (todos w') = size (todos sample_world).
Proof.
  destruct (importTodos_upserts sample_env
              [of_todo (sample_todo "a" true ["later"] "2024-04-09T10:00:00.000Z")]
              sample_world)
    as (w' & Hrun & Hrepl & _ & _ & Hsize).
  - repeat constructor.
  - intros j _. reflexivity.
  - exists w'. split; [exact Hrun|]. split.
    + apply (Hrepl "a" _ eq_refl). by eexists.
    + apply Hsize. intros k r Hl. unfold last_with_id in Hl. simpl in Hl.
      rewrite filter_cons in Hl. simpl in Hl.
      destruct (decide ("a" = k)) as [<-|]; [by eexists|discriminate].
Defined.

(** *** Trimming *)

Lemma trimStart_length (s : string) :
  String.length (JS.trimStart s) <= String.length s.
Proof.
  induction s as [|c s IH]; simpl; [done|].
  destruct (JS.is_space c); simpl; lia.
Qed.

Lemma trimStart_idemp (s : string) :
  JS.trimStart (JS.trimStart s) = JS.trimStart s.
Proof.
  induction s as [|c s IH]; simpl; [done|].
  destruct (JS.is_space c) eqn:Hc; [done|]. simpl. by rewrite Hc.
Qed.

Lemma trimEnd_idemp (s : string) : JS.trimEnd (JS.trimEnd s) = JS.trimEnd s.
Proof.
  induction s as [|c s IH]; simpl; [done|].
  destruct (JS.trimEnd s) as [|c' r] eqn:Hr.
  - destruct (JS.is_space c) eqn:Hc; simpl; [done|]. by rewrite Hc.
  - change (JS.trimEnd (String c (String c' r)))
      with (match JS.trimEnd (String c' r) with
            | EmptyString => if JS.is_space c then EmptyString else String c EmptyString
            | String c'' r' => String c (String c'' r')
            end).
    by rewrite IH.
Qed.

Lemma trimStart_trimEnd (s : string) :
  JS.trimStart s = s -> JS.trimStart (JS.trimEnd s) = JS.trimEnd s.
Proof.
  destruct s as [|c s]; simpl; [done|].
  destruct (JS.is_space c) eqn:Hc.
  - intros Heq. pose proof (trimStart_length s) as Hlen.
    rewrite Heq in Hlen. simpl in Hlen. lia.
  - intros _. destruct (JS.trimEnd s); simpl; by rewrite Hc.
Qed.

Lemma trim_idemp (s : string) : JS.trim (JS.trim s) = JS.trim s.
Proof.
  unfold JS.trim.
  rewrite (trimStart_trimEnd (JS.trimStart s)) by apply trimStart_idemp.
  apply trimEnd_idemp.
Qed.

Lemma title_accepted_trim (s : string) :
  title_accepted s = true -> JS.trim (JS.trim s) <> "".
Proof.
  rewrite trim_idemp. unfold title_accepted. by rewrite truthy_true.
Qed.

(** *** The invariant *)

Lemma store_ok_empty : store_ok ∅.
Proof. intros k t. by rewrite lookup_empty. Qed.

Lemma store_ok_insert k t (m : gmap string Todo) :
  store_ok m -> entity_ok t -> store_ok (<[k := t]> m).
Proof.
  intros Hm Ht k' t'. destruct (decide (k = k')) as [<-|Hne].
  - rewrite lookup_insert_eq. by intros [= <-].
  - rewrite lookup_insert_ne by done. apply Hm.
Qed.

Lemma store_ok_delete k (m : gmap string Todo) :
  store_ok m -> store_ok (delete k m).
Proof.
  intros Hm k' t'. destruct (decide (k = k')) as [<-|Hne].
  - by rewrite lookup_delete_eq.
  - rewrite lookup_delete_ne by done. apply Hm.
Qed.

Lemma entity_ok_stamp n t : JS.trim (title t) <> "" -> entity_ok (stamp n t).
Proof. intros Ht. split; [done|]. done. Qed.

Lemma entity_ok_update n dto old :
  entity_ok old ->
  (forall s, u_title dto = Some s -> title_accepted s = true) ->
  String.le (createdAt old) n ->
  entity_ok (apply_mods (update_mods n dto) old).
Proof.
  intros [_ Htitle] Hdto Hle. split; [done|]. simpl.
  destruct (u_title dto) as [s|]; simpl; [|done].
  by apply title_accepted_trim, Hdto.
Qed.

Lemma entity_ok_completion n old :
  entity_ok old -> String.le (createdAt old) n ->
  entity_ok (apply_mods (completion n) old).
Proof. intros [_ Htitle] Hle. by split. Qed.

Create HintDb store_inv.
#[export] Hint Resolve store_ok_empty store_ok_insert store_ok_delete
  entity_ok_stamp entity_ok_update entity_ok_completion : store_inv.

Lemma for_of_invariant {X} (I : World -> Prop) (body : X -> Db unit) (xs : list X) :
  (forall x w, x ∈ xs -> I w -> I (state_of (body x w))) ->
  forall w, I w -> I (state_of (for_of xs body w)).
Proof.
  induction xs as [|x xs IH]; intros Hbody w Hw; [done|].
  simpl. unfold bind.
  pose proof (Hbody x w (list_elem_of_here _ _) Hw) as Hx.
  destruct (body x w) as [[] w1|e w1]; [|done].
  apply IH; [|done]. intros y w2 Hy. apply Hbody. by right.
Qed.

Section InvariantFacts.
Context (E : Env).

Lemma createTodo_preserves uuid dto w :
  store_ok (todos w) ->
  title_accepted (c_title dto) = true ->
  store_ok (todos (state_of (createTodo E uuid dto w))).
Proof.
  intros Hw Ht.
  unfold createTodo, table_add, creating_hook, wrap, try_catch, bind,
    request, snapshot, now, store, ret, throw.
  cbv beta. simpl. destruct (fault E (reqs w)); simpl; [done|].
  destruct (todos w !! uuid); simpl; [done|].
  apply store_ok_insert; [done|]. apply entity_ok_stamp. simpl.
  by apply title_accepted_trim.
Qed.

Lemma updateTodo_preserves key dto w :
  store_ok (todos w) ->
  (forall s, u_title dto = Some s -> title_accepted s = true) ->
  (forall t, todos w !! key = Some t -> String.le (createdAt t) (clock E (ticks w))) ->
  store_ok (todos (state_of (updateTodo E key dto w))).
Proof.
  intros Hw Ht Hle.
  destruct (fault E (reqs w)) eqn:Hf1.
  { unfold updateTodo, getTodo, try_catch, bind.
    rewrite table_get_fault by done. done. }
  destruct (todos w !! key) as [old|] eqn:Hk.
  2: { by rewrite updateTodo_missing. }
  unfold updateTodo, try_catch, bind at 1.
  rewrite (getTodo_found E key old) by done.
  unfold bind at 1, now. unfold bind.
  destruct (fault E (S (reqs w))) eqn:Hf2.
  { rewrite table_update_fault by done. done. }
  rewrite (table_update_run E key _ old) by done.
  destruct (anythingModified _ old); simpl; [|done].
  apply store_ok_insert; [done|].
  apply entity_ok_update; eauto.
Qed.

Lemma toggleTodo_preserves key w :
  store_ok (todos w) ->
  (forall t, todos w !! key = Some t -> String.le (createdAt t) (clock E (ticks w))) ->
  store_ok (todos (state_of (toggleTodo E key w))).
Proof.
  intros Hw Hle.
  destruct (fault E (reqs w)) eqn:Hf1.
  { unfold toggleTodo, getTodo, try_catch, bind.
    rewrite table_get_fault by done. done. }
  destruct (todos w !! key) as [old|] eqn:Hk.
  2: { by rewrite toggleTodo_missing. }
  unfold toggleTodo, try_catch, bind.
  rewrite (getTodo_found E key old) by done.
  pose proof (updateTodo_preserves key (negated (completed old)) (sent w)) as Hu.
  destruct (updateTodo E key (negated (completed old)) (sent w)) as [[] w1|e w1].
  - apply Hu; [done|by intros s [=]|]. simpl. by rewrite Hk.
  - assert (store_ok (todos w1)) as Hw1.
    { apply Hu; [done|by intros s [=]|]. simpl. by rewrite Hk. }
    unfold rethrow_not_found, throw. by destruct (is_TodoNotFoundError e).
Qed.

Lemma bulkComplete_preserves ids w :
  store_ok (todos w) ->
  (forall k t, k ∈ ids -> todos w !! k = Some t ->
     String.le (createdAt t) (clock E (ticks w))) ->
  store_ok (todos (state_of (bulkComplete E ids w))).
Proof.
  intros Hw Hle.
  unfold bulkComplete, try_catch, transaction, wrap, throw.
  unfold bind at 1, now.
  set (n := clock E (ticks w)) in *.
  set (I := fun w' : World =>
              store_ok (todos w')
              /\ forall k t, k ∈ ids -> todos w' !! k = Some t -> String.le (createdAt t) n).
  assert (I (state_of (for_of ids
              (fun key => _ <- table_update E key (completion n) ;; ret tt) (ticked w))))
    as HI.
  { apply (for_of_invariant I); [|by split].
    intros x w1 Hx [Hw1 Hle1]. unfold bind.
    destruct (fault E (reqs w1)) eqn:Hf.
    { rewrite table_update_fault by done. by split. }
    destruct (todos w1 !! x) as [old|] eqn:Hk.
    2: { rewrite table_update_missing by done. by split. }
    rewrite (table_update_run E x _ old) by done.
    destruct (anythingModified _ old); simpl; [|by split].
    split; simpl.
    - apply store_ok_insert; [done|].
      apply entity_ok_completion; eauto.
    - intros k t Hin. destruct (decide (x = k)) as [<-|Hne].
      + rewrite lookup_insert_eq. intros [= <-]. simpl. eauto.
      + rewrite lookup_insert_ne by done. eauto. }
  destruct (for_of ids _ (ticked w)) as [[] w1|e w1]; simpl in *; [|done].
  apply HI.
Qed.

Lemma bulkDelete_preserves ids w :
  store_ok (todos w) ->
  store_ok (todos (state_of (bulkDelete E ids w))).
Proof.
  intros Hw. unfold bulkDelete, try_catch, transaction, wrap, throw.
  assert (store_ok (todos (state_of (for_of ids (table_delete E) w)))) as HI.
  { apply (for_of_invariant (fun w' => store_ok (todos w'))); [|done].
    intros x w1 _ Hw1. destruct (fault E (reqs w1)) eqn:Hf.
    - by rewrite table_delete_fault.
    - rewrite table_delete_run by done. simpl. by apply store_ok_delete. }
  change (for_of ids (fun id0 : string => table_delete E id0))
    with (for_of ids (table_delete E)).
  destruct (for_of ids (table_delete E) w) as [[] w1|e w1]; simpl in *; done.
Qed.

Lemma import_loop_preserves rs w :
  Forall (fun r => entity_ok (as_todo r)) rs ->
  store_ok (todos w) ->
  store_ok (todos (state_of (for_of rs (import_step E) w))).
Proof.
  intros Hrs Hw.
  apply (for_of_invariant (fun w' => store_ok (todos w'))); [|done].
  intros r w1 Hr Hw1. rewrite Forall_forall in Hrs. specialize (Hrs r Hr).
  unfold import_step. destruct (invalid_record r); [done|].
  unfold bind. destruct (fault E (reqs w1)) eqn:Hf.
  - by rewrite table_put_fault.
  - rewrite table_put_run by done. simpl.
    apply store_ok_insert; [done|].
    destruct (todos w1 !! _); [exact Hrs|].
    apply entity_ok_stamp, Hrs.
Qed.

Lemma importTodos_preserves jsonData overwrite w :
  match jsonData with
  | JsonArray rs => Forall (fun r => entity_ok (as_todo r)) rs
  | _ => True
  end ->
  store_ok (todos w) ->
  store_ok (todos (state_of (importTodos E jsonData overwrite w))).
Proof.
  intros Hrs Hw. destruct jsonData as [| |rs]; [done..|].
  rewrite importTodos_unfold. unfold try_catch, bind at 1.
  assert (forall w0, store_ok (todos w0) ->
            store_ok (todos (state_of
              (match (transaction (for_of rs (import_step E)) ;;; ret (length rs)) w0 with
               | Ok a s' => Ok a s'
               | Throw e s' => wrap "Failed to import todos" e s'
               end)))) as Htx.
  { intros w0 Hw0. unfold bind, transaction, wrap, throw, ret.
    pose proof (import_loop_preserves rs w0 Hrs Hw0) as Hl.
    destruct (for_of rs (import_step E) w0) as [[] w1|e w1]; simpl in *; done. }
  destruct overwrite.
  - destruct (fault E (reqs w)) eqn:Hf.
    + by rewrite table_clear_fault.
    + rewrite table_clear_run by done. apply Htx. apply store_ok_empty.
  - unfold ret at 1. by apply Htx.
Qed.

End InvariantFacts.

(** C6, as the code has it.  The repository checks neither titles nor
    timestamps, so the invariant (updated no earlier than created, title
    not empty once trimmed) is kept under conditions on what is passed in.
    Whatever the outcome of the call: [createTodo] keeps it when the title
    is not empty once trimmed; [updateTodo] when the title, if one is given,
    is not empty once trimmed and the entity was created no later than the
    clock reading of the call; [toggleTodo] and [bulkComplete] under that
    same condition on the clock; [bulkDelete] always; [importTodos] when each
    record of the array satisfies the invariant itself. *)
Theorem writes_preserve_invariant (E : Env) (w : World) :
  store_ok (todos w) ->
  (forall uuid dto,
     title_accepted (c_title dto) = true ->
     store_ok (todos (state_of (createTodo E uuid dto w))))
  /\ (forall key dto,
        (forall s, u_title dto = Some s -> title_accepted s = true) ->
        (forall t, todos w !! key = Some t ->
           String.le (createdAt t) (clock E (ticks w))) ->
        store_ok (todos (state_of (updateTodo E key dto w))))
  /\ (forall key,
        (forall t, todos w !! key = Some t ->
           String.le (createdAt t) (clock E (ticks w))) ->
        store_ok (todos (state_of (toggleTodo E key w))))
  /\ (forall ids,
        (forall k t, k ∈ ids -> todos w !! k = Some t ->
           String.le (createdAt t) (clock E (ticks w))) ->
        store_ok (todos (state_of (bulkComplete E ids w))))
  /\ (forall ids, store_ok (todos (state_of (bulkDelete E ids w))))
  /\ (forall rs overwrite,
        Forall (fun r => entity_ok (as_todo r)) rs ->
        store_ok (todos (state_of (importTodos E (JsonArray rs) overwrite w)))).
Proof.
  intros Hw. split_and!.
  - intros uuid dto Ht. by apply createTodo_preserves.
  - intros key dto Ht Hle. by apply updateTodo_preserves.
  - intros key Hle. by apply toggleTodo_preserves.
  - intros ids Hle. by apply bulkComplete_preserves.
  - intros ids. by apply bulkDelete_preserves.
  - intros rs overwrite Hrs. by apply importTodos_preserves.
Qed.

Lemma sample_todo_ok key done_ tgs created : entity_ok (sample_todo key done_ tgs created).
Proof. split; [done|]. simpl. discriminate. Qed.

Lemma sample_world_ok : store_ok (todos sample_world).
Proof. unfold sample_world. simpl. auto using sample_todo_ok with store_inv. Qed.

Lemma writes_preserve_invariant_witness :
  store_ok (todos (state_of
    (createTodo sample_env "u-1" (mkCreate "Buy milk" None None None None) sample_world)))
  /\ store_ok (todos (state_of
       (updateTodo sample_env "a" (mkUpdate (Some " Call the bank today ") None None None None None)
          sample_world)))
  /\ store_ok (todos (state_of (toggleTodo sample_env "a" sample_world)))
  /\ store_ok (todos (state_of (bulkComplete sample_env ["a"; "b"; "c"] sample_world)))
  /\ store_ok (todos (state_of
       (importTodos sample_env
          (JsonArray [of_todo (sample_todo "n" false [] "2024-04-03T10:00:00.000Z")])
          true sample_world))).
Proof.
  destruct (writes_preserve_invariant sample_env sample_world sample_world_ok)
    as (Hc & Hu & Ht & Hb & _ & Hi).
  split; [apply Hc; reflexivity|].
  split.
  { apply Hu.
    - intros s Hs. injection Hs as <-. reflexivity.
    - intros t Ht'. injection Ht' as <-. exact I. }
  split.
  { apply Ht. intros t Ht'. injection Ht' as <-. exact I. }
  split.
  { apply Hb. intros k t _ Hk.
    destruct (decide (k = "a")) as [->|Ha].
    - injection Hk as <-. exact I.
    - destruct (decide (k = "c")) as [->|Hc'].
      + injection Hk as <-. exact I.
      + unfold sample_world in Hk. simpl in Hk.
        rewrite lookup_insert_ne, lookup_insert_ne, lookup_empty in Hk by done.
        discriminate. }
  apply Hi. constructor; [apply sample_todo_ok|constructor].
Defined.

(** C6 as stated fails: the store satisfies the invariant, [updateTodo]
    with a title of three spaces succeeds, and the entity is left with the
    empty title. *)
Lemma updateTodo_blank_title_breaks_invariant :
  store_ok (todos sample_world)
  /\ exists w1 : World,
       updateTodo sample_env "a" (mkUpdate (Some "   ") None None None None None)
         sample_world = Ok tt w1
       /\ title <$> todos w1 !! "a" = Some ""
       /\ ~ store_ok (todos w1).
Proof.
  split; [apply sample_world_ok|].
  eexists. split; [reflexivity|]. split; [reflexivity|].
  intros Hok.
  destruct (Hok "a" _ eq_refl) as [_ Ht]. by apply Ht.
Qed.

(** *** The service worker *)

Lemma caches_open_run (name : string) (s : Worker) :
  exists s',
    caches_open name s = Ok name s'
    /\ (forall c, entries c s' = entries c s)
    /\ skipWaitingCalled s' = skipWaitingCalled s
    /\ console s' = console s.
Proof.
  unfold caches_open. destruct (caches s !! name) eqn:Hc; [by eexists|].
  eexists. split; [done|]. split; [|done].
  intros c. unfold entries. simpl. destruct (decide (name = c)) as [<-|Hne].
  - by rewrite lookup_insert_eq, Hc.
  - by rewrite lookup_insert_ne.
Qed.

Lemma entries_put (c c' k : string) (r : Response) (s : Worker) :
  entries c' (mkWorker (<[c := <[k := r]> (entries c s)]> (caches s))
                (skipWaitingCalled s) (console s))
  = if decide (c = c') then <[k := r]> (entries c s) else entries c' s.
Proof.
  unfold entries at 1. simpl. case_decide as Hc; subst.
  - by rewrite lookup_insert_eq.
  - by rewrite lookup_insert_ne.
Qed.

Lemma entries_console (c : string) (s : Worker) (l : list string) :
  entries c (mkWorker (caches s) (skipWaitingCalled s) l) = entries c s.
Proof. done. Qed.

Section WorkerFacts.
Context (N : Net).

Lemma fetch_all_keys ps rs :
  fetch_all N ps = Some rs ->
  rs.*1 = resolve N <$> ps
  /\ forall k r, (k, r) ∈ rs -> network N k = Some r /\ ok r = true.
Proof.
  revert rs. induction ps as [|p ps IH]; intros rs; simpl.
  { intros [= <-]. split; [done|]. intros k r Hin. by apply elem_of_nil in Hin. }
  destruct (network N (resolve N p)) as [r0|] eqn:Hn; [|done].
  destruct (ok r0) eqn:Hok; [|done].
  destruct (fetch_all N ps) as [rs'|]; [|done].
  intros [= <-]. destruct (IH rs' eq_refl) as [Hkeys Hall].
  split; [rewrite fmap_cons, Hkeys; done|].
  intros k r [[= -> ->]|Hin]%elem_of_cons; [done|]. by apply Hall.
Qed.

Lemma fetch_all_failure ps :
  fetch_all N ps = None <->
  exists p, p ∈ ps
            /\ (network N (resolve N p) = None
                \/ exists r, network N (resolve N p) = Some r /\ ok r = false).
Proof.
  induction ps as [|p ps IH]; simpl.
  { split; [done|]. intros (p & Hin & _). by apply elem_of_nil in Hin. }
  destruct (network N (resolve N p)) as [r0|] eqn:Hn.
  2: { split; [|done]. intros _. exists p. split; [by left|]. by left. }
  destruct (ok r0) eqn:Hok.
  2: { split; [|done]. intros _. exists p. split; [by left|]. right. eauto. }
  destruct (fetch_all N ps) as [rs'|].
  - split; [done|]. intros (q & [->|Hin]%elem_of_cons & Hq).
    + destruct Hq as [Hq|(r & Hq & Hr)]; congruence.
    + assert (Some rs' = None) as Hnone by (apply IH; eauto). done.
  - split; [|done]. intros _.
    destruct (proj1 IH eq_refl) as (q & Hin & Hq). exists q. split; [by right|done].
Qed.

Lemma put_loop (c : string) (rs : list (string * Response)) (s : Worker) :
  (forall k r, (k, r) ∈ rs -> network N k = Some r) ->
  exists s',
    for_of rs (fun kr => cache_put c (fst kr) (snd kr)) s = Ok tt s'
    /\ skipWaitingCalled s' = skipWaitingCalled s
    /\ console s' = console s
    /\ (forall c', c' <> c -> entries c' s' = entries c' s)
    /\ forall k, entries c s' !! k
                 = if decide (k ∈ rs.*1) then network N k else entries c s !! k.
Proof.
  revert s. induction rs as [|[k0 r0] rs IH]; intros s Hrs.
  { exists s. by split. }
  change (for_of ((k0, r0) :: rs) (fun kr => cache_put c (fst kr) (snd kr)) s)
    with (bind (cache_put c k0 r0)
            (fun _ => for_of rs (fun kr => cache_put c (fst kr) (snd kr))) s).
  unfold bind, cache_put at 1.
  destruct (IH (mkWorker (<[c := <[k0 := r0]> (entries c s)]> (caches s))
                  (skipWaitingCalled s) (console s)))
    as (s' & Hrun & Hskip & Hcon & Hoth & Hent).
  { intros k r Hin. apply Hrs. by right. }
  exists s'. split; [exact Hrun|]. split; [exact Hskip|]. split; [exact Hcon|].
  split.
  { intros c' Hc'. rewrite Hoth, entries_put by done. by rewrite decide_False. }
  intros k. rewrite Hent, entries_put.
  rewrite (decide_True (P := c = c)) by done.
  destruct (decide (k = k0)) as [->|Hne].
  - rewrite lookup_insert_eq.
    rewrite (decide_True (P := k0 ∈ ((k0, r0) :: rs).*1)) by (by left).
    rewrite (Hrs k0 r0) by (by left). by case_decide.
  - rewrite lookup_insert_ne by done.
    destruct (decide (k ∈ rs.*1)) as [Hin|Hin].
    + by rewrite decide_True by (by right).
    + rewrite decide_False; [done|]. intros [?|?]%elem_of_cons; done.
Qed.

End WorkerFacts.

(** C4, as the code has it.  The install step stores the shell resources as
    one batch: when each of them is fetched with an [ok] status, all are
    stored in the primary cache and [skipWaiting] is called; when one of them
    fails, nothing is stored and [skipWaiting] is not called.  In both cases
    the listener catches the failure and logs it, the promise it gave to
    [waitUntil] is fulfilled, and the worker becomes installed, that is,
    waiting.  The other caches are untouched. *)
Theorem install_all_or_nothing (N : Net) (s : Worker) :
  (fetch_all N STATIC_CACHE_FILES = None <->
   exists p, p ∈ STATIC_CACHE_FILES
             /\ (network N (resolve N p) = None
                 \/ exists r, network N (resolve N p) = Some r /\ ok r = false))
  /\ exists s' : Worker,
       install N s = (Waiting, s')
       /\ (forall c, c <> CACHE_NAME -> entries c s' = entries c s)
       /\ match fetch_all N STATIC_CACHE_FILES with
          | Some _ =>
              skipWaitingCalled s' = true
              /\ (forall p, p ∈ STATIC_CACHE_FILES ->
                    exists r, network N (resolve N p) = Some r
                              /\ ok r = true
                              /\ entries CACHE_NAME s' !! resolve N p = Some r)
              /\ (forall k, k ∉ resolve N <$> STATIC_CACHE_FILES ->
                    entries CACHE_NAME s' !! k = entries CACHE_NAME s !! k)
          | None =>
              skipWaitingCalled s' = skipWaitingCalled s
              /\ entries CACHE_NAME s' = entries CACHE_NAME s
              /\ last (console s') = Some "[SW] Failed to cache static files:"
          end.
Proof.
  split; [apply fetch_all_failure|].
  unfold install, install_listener, cache_addAll.
  unfold bind at 1, console_log at 1, try_catch, bind at 1.
  set (s0 := mkWorker (caches s) (skipWaitingCalled s) (console s ++ ["[SW] Install event"])).
  destruct (caches_open_run CACHE_NAME s0) as (s1 & -> & Hent1 & Hskip1 & Hcon1).
  unfold bind at 1, console_log at 1. unfold bind at 1.
  destruct (fetch_all N STATIC_CACHE_FILES) as [rs|] eqn:Hfetch.
  - destruct (fetch_all_keys N _ _ Hfetch) as [Hkeys Hall].
    set (s2 := mkWorker (caches s1) (skipWaitingCalled s1)
                 (console s1 ++ ["[SW] Caching static files"])).
    destruct (put_loop N CACHE_NAME rs s2) as (s3 & -> & Hskip3 & Hcon3 & Hoth3 & Hent3).
    { intros k r Hin. by apply Hall. }
    unfold bind, console_log, skipWaiting. eexists. split; [done|].
    split.
    { intros c Hc. change (entries c s3 = entries c s). rewrite Hoth3 by done. subst s2. by rewrite entries_console, Hent1. }
    simpl. split; [done|]. split.
    + intros p Hp.
      assert (resolve N p ∈ rs.*1) as Hin.
      { rewrite Hkeys. by apply list_elem_of_fmap_2. }
      apply list_elem_of_fmap in Hin as ([k r] & Hk & Hin). simpl in Hk.
      destruct (Hall k r Hin) as [Hnet Hok]. subst k.
      exists r. split; [done|]. split; [done|].
      change (entries CACHE_NAME s3 !! resolve N p = Some r).
      rewrite Hent3, decide_True; [done|].
      rewrite Hkeys. by apply list_elem_of_fmap_2.
    + intros k Hk.
      change (entries CACHE_NAME s3 !! k = entries CACHE_NAME s !! k).
      rewrite Hent3, decide_False by (by rewrite Hkeys).
      subst s2. rewrite entries_console, Hent1. done.
  - unfold throw, console_log. eexists. split; [done|]. simpl.
    split; [intros c _; apply Hent1|].
    split; [done|]. split; [apply Hent1|].
    by rewrite last_snoc.
Qed.

Lemma install_all_or_nothing_witness :
  exists s' : Worker,
    install served_net fresh_worker = (Waiting, s')
    /\ skipWaitingCalled s' = true
    /\ entries CACHE_NAME s' !! "https://todo.example/offline" = Some sample_page.
Proof.
  destruct (proj2 (install_all_or_nothing served_net fresh_worker))
    as (s' & Hrun & _ & Hskip & Hall & _).
  exists s'. split; [exact Hrun|]. split; [exact Hskip|].
  destruct (Hall "/offline") as (r & Hnet & _ & Hent).
  - unfold STATIC_CACHE_FILES. set_solver.
  - injection Hnet as <-. exact Hent.
Defined.

(** C4 as stated fails: [/today] cannot be fetched, nothing is precached,
    and the worker reaches the waiting state all the same. *)
Lemma install_waiting_after_failed_fetch :
  "/today" ∈ STATIC_CACHE_FILES
  /\ network flaky_net (resolve flaky_net "/today") = None
  /\ fst (install flaky_net fresh_worker) = Waiting
  /\ entries CACHE_NAME (snd (install flaky_net fresh_worker)) = ∅.
Proof.
  split; [unfold STATIC_CACHE_FILES; set_solver|].
  split; [reflexivity|]. split; reflexivity.
Qed.

Section FetchFacts.
Context (N : Net).

Lemma getOfflineFallback_run (s : Worker) :
  exists s',
    getOfflineFallback N s
    = Ok (Some (default generated_offline_page
                  (entries CACHE_NAME s !! resolve N OFFLINE_URL))) s'
    /\ forall c, entries c s' = entries c s.
Proof.
  unfold getOfflineFallback, bind at 1.
  destruct (caches_open_run CACHE_NAME s) as (s1 & -> & Hent & _).
  unfold bind, cache_match, ret. rewrite Hent.
  destruct (entries CACHE_NAME s !! resolve N OFFLINE_URL); simpl; eauto.
Qed.

Lemma networkFirst_run (request : Request) (cacheName : string) (s : Worker) :
  exists s',
    (forall c, c <> cacheName -> entries c s' = entries c s)
    /\ match network N (url request) with
       | Some r =>
           networkFirst N request cacheName s = Ok (Some r) s'
           /\ entries cacheName s'
              = if ok r then <[url request := r]> (entries cacheName s)
                else entries cacheName s
       | None =>
           entries cacheName s' = entries cacheName s
           /\ networkFirst N request cacheName s
              = match entries cacheName s !! url request with
                | Some cached => Ok (Some cached) s'
                | None => Throw TypeError s'
                end
       end.
Proof.
  destruct (caches_open_run cacheName s) as (s1 & Hopen & Hent & Hskip & Hcon).
  destruct (network N (url request)) as [r|] eqn:Hn.
  - destruct (ok r) eqn:Hok.
    + exists (mkWorker (<[cacheName := <[url request := r]> (entries cacheName s1)]> (caches s1))
                (skipWaitingCalled s1) (console s1)).
      split; [|split].
      * intros c Hc. rewrite entries_put, decide_False by done. apply Hent.
      * unfold networkFirst, try_catch, bind, fetch, cache_put, ret.
        by rewrite Hopen, Hn, Hok.
      * rewrite entries_put, decide_True by done. by rewrite Hent.
    + exists s1. split; [intros c _; apply Hent|]. split; [|apply Hent].
      unfold networkFirst, try_catch, bind, fetch, ret.
      by rewrite Hopen, Hn, Hok.
  - set (s2 := mkWorker (caches s1) (skipWaitingCalled s1)
                 (console s1 ++ ["[SW] Network failed, trying cache:"])).
    assert (forall c, entries c s2 = entries c s) as Hent2.
    { intros c. subst s2. by rewrite entries_console. }
    exists s2. split; [intros c _; apply Hent2|]. split; [apply Hent2|].
    unfold networkFirst, try_catch, bind, fetch, console_log, cache_match, ret, throw.
    rewrite Hopen, Hn. fold s2. rewrite Hent2.
    by destruct (entries cacheName s !! url request).
Qed.

End FetchFacts.

(** C5, as the code has it.  A GET request of the worker's own origin whose
    path begins with [/api/] is answered network first: a response from the
    network is returned, and stored in the API cache when its status is
    [ok]; when the network fails, the cached entry is returned if there is
    one.  When there is none, [networkFirst] throws the failure, and
    [handleRequest] catches it and answers with the offline fallback: the
    precached offline page if present, else the generated document. *)
Theorem api_network_first (N : Net) (request : Request) (s : Worker) :
  method request = "GET" ->
  origin request = self_origin N ->
  JS.startsWith (pathname request) "/api/" = true ->
  fetch_listener N request = Some (handleRequest N request)
  /\ match network N (url request) with
     | Some r =>
         exists s',
           handleRequest N request s = Ok (Some r) s'
           /\ entries RUNTIME_CACHE_api s'
              = if ok r then <[url request := r]> (entries RUNTIME_CACHE_api s)
                else entries RUNTIME_CACHE_api s
     | None =>
         match entries RUNTIME_CACHE_api s !! url request with
         | Some cached =>
             exists s',
               handleRequest N request s = Ok (Some cached) s'
               /\ entries RUNTIME_CACHE_api s' = entries RUNTIME_CACHE_api s
         | None =>
             (exists s1, networkFirst N request RUNTIME_CACHE_api s = Throw TypeError s1)
             /\ exists s',
                  handleRequest N request s
                  = Ok (Some (default generated_offline_page
                                (entries CACHE_NAME s !! resolve N OFFLINE_URL))) s'
                  /\ entries RUNTIME_CACHE_api s' = entries RUNTIME_CACHE_api s
         end
     end.
Proof.
  intros Hm Ho Hapi. split.
  { unfold fetch_listener. by rewrite Hm, Ho, !String.eqb_refl. }
  unfold handleRequest, try_catch. rewrite Hapi.
  destruct (networkFirst_run N request RUNTIME_CACHE_api s) as (s1 & Hoth & Hrun).
  destruct (network N (url request)) as [r|].
  - destruct Hrun as [-> Hent]. eauto.
  - destruct Hrun as [Hent Hrun].
    destruct (entries RUNTIME_CACHE_api s !! url request) as [cached|].
    + rewrite Hrun. eauto.
    + split; [eauto|]. rewrite Hrun. unfold bind, console_log.
      set (s2 := mkWorker (caches s1) (skipWaitingCalled s1)
                   (console s1 ++ ["[SW] Request handling failed:"])).
      destruct (getOfflineFallback_run N s2) as (s3 & -> & Hent3).
      exists s3. split.
      * f_equal. subst s2. rewrite entries_console, Hoth; done.
      * rewrite Hent3. subst s2. by rewrite entries_console.
Qed.

Lemma api_network_first_witness :
  (exists s1, networkFirst offline_net api_request RUNTIME_CACHE_api fresh_worker
              = Throw TypeError s1)
  /\ exists s',
       handleRequest offline_net api_request fresh_worker
       = Ok (Some generated_offline_page) s'
       /\ entries RUNTIME_CACHE_api s' = entries RUNTIME_CACHE_api fresh_worker.
Proof.
  exact (proj2 (api_network_first offline_net api_request fresh_worker
                  eq_refl eq_refl eq_refl)).
Defined.

(** C5 as stated fails: the network is down and nothing is cached, and the
    requester of [/api/todos] is answered with the offline document, status
    200, in place of the failure. *)
Lemma api_failure_answered_with_offline_page :
  network offline_net (url api_request) = None
  /\ entries RUNTIME_CACHE_api fresh_worker !! url api_request = None
  /\ fetch_listener offline_net api_request = Some (handleRequest offline_net api_request)
  /\ exists s' : Worker,
       handleRequest offline_net api_request fresh_worker
       = Ok (Some generated_offline_page) s'
       /\ status generated_offline_page = 200.
Proof.
  split; [reflexivity|]. split; [reflexivity|]. split; [reflexivity|].
  eexists. split; reflexivity.
Qed.

(** * Further properties of the code *)

(** *** Sorting *)

Lemma insert_sorted_perm {A} (le : A -> A -> bool) (x : A) (l : list A) :
  insert_sorted le x l ≡ₚ x :: l.
Proof.
  induction l as [|y l IH]; simpl; [done|].
  destruct (le x y); [done|]. rewrite IH. apply Permutation_swap.
Qed.

Lemma js_sort_perm {A} (le : A -> A -> bool) (l : list A) : js_sort le l ≡ₚ l.
Proof.
  induction l as [|x l IH]; simpl; [done|].
  by rewrite insert_sorted_perm, IH.
Qed.

Lemma js_sort_sorted {A} (le : A -> A -> bool) (l : list A) :
  (forall x y, le x y = true \/ le y x = true) ->
  (forall x y z, le x y = true -> le y z = true -> le x z = true) ->
  StronglySorted (fun x y => le x y = true) (js_sort le l).
Proof.
  intros Htotal Htrans. induction l as [|x l IH]; simpl; [constructor|].
  revert IH. generalize (js_sort le l). clear l.
  intros l. induction 1 as [|y l Hl IH Hy]; simpl; [repeat constructor|].
  destruct (le x y) eqn:Hxy.
  - constructor; [by constructor|]. constructor; [done|].
    eapply Forall_impl; [exact Hy|]. intros z Hz. simpl in Hz. eauto.
  - constructor; [done|].
    rewrite insert_sorted_perm. constructor; [|done].
    destruct (Htotal x y); congruence.
Qed.

Lemma leb_total_bool (a b : string) : JS.le a b = true \/ JS.le b a = true.
Proof. apply String.leb_total. Qed.

Lemma leb_trans_bool (a b c : string) :
  JS.le a b = true -> JS.le b c = true -> JS.le a c = true.
Proof. rewrite !leb_le. intros ??. by etrans. Qed.

(** *** Deleting *)

(** X1. [deleteTodo] deletes the entity stored under the id and touches no
    other; it never fails with [TodoNotFoundError]: for an id that is not
    stored it returns normally and the table is as before.  It fails only
    when the storage engine rejects the request, with a [DatabaseError], and
    then the table is as before. *)
Theorem deleteTodo_never_not_found (E : Env) (key : string) (w : World) :
  match deleteTodo E key w with
  | Ok _ w' =>
      fault E (reqs w) = false
      /\ todos w' !! key = None
      /\ (forall k, k <> key -> todos w' !! k = todos w !! k)
      /\ (todos w !! key = None -> todos w' = todos w)
  | Throw e w' =>
      fault E (reqs w) = true
      /\ e = DatabaseError ("Failed to delete todo " +:+ key) StorageError
      /\ todos w' = todos w
  end.
Proof.
  unfold deleteTodo, try_catch, bind.
  destruct (fault E (reqs w)) eqn:Hf.
  - by rewrite table_delete_fault.
  - rewrite table_delete_run by done. simpl.
    split; [done|]. split; [apply lookup_delete_eq|].
    split; [intros k Hk; by apply lookup_delete_ne|apply delete_id].
Qed.

(** X2. Creating an entity under a free id and deleting it again gives back
    the table as it was, and the id is then unknown to [getTodo]. *)
Theorem createTodo_deleteTodo_roundtrip (E : Env) (uuid : string)
    (dto : CreateTodoDto) (w : World) :
  (forall j, j < 3 -> fault E (reqs w + j) = false) ->
  todos w !! uuid = None ->
  exists w1 w2 w3 : World,
    createTodo E uuid dto w = Ok uuid w1
    /\ deleteTodo E uuid w1 = Ok tt w2
    /\ todos w2 = todos w
    /\ getTodo E uuid w2 = Throw (TodoNotFoundError uuid) w3.
Proof.
  intros Hnf Hk.
  assert (fault E (reqs w) = false) as Hf0.
  { rewrite <- (Nat.add_0_r (reqs w)). apply Hnf. lia. }
  assert (fault E (S (reqs w)) = false) as Hf1.
  { replace (S (reqs w)) with (reqs w + 1) by lia. apply Hnf. lia. }
  assert (fault E (S (S (reqs w))) = false) as Hf2.
  { replace (S (S (reqs w))) with (reqs w + 2) by lia. apply Hnf. lia. }
  eexists _, _, _. split; [by apply createTodo_run|].
  split.
  { unfold deleteTodo, try_catch, bind. by rewrite table_delete_run. }
  simpl. split.
  - rewrite delete_insert_eq. by apply delete_id.
  - apply getTodo_missing; [done|]. simpl.
    rewrite delete_insert_eq, delete_id by done. done.
Qed.

Lemma createTodo_deleteTodo_roundtrip_witness :
  exists w1 w2 w3 : World,
    createTodo sample_env "u-1" (mkCreate "Buy milk" None None None None) sample_world
    = Ok "u-1" w1
    /\ deleteTodo sample_env "u-1" w1 = Ok tt w2
    /\ todos w2 = todos sample_world
    /\ getTodo sample_env "u-1" w2 = Throw (TodoNotFoundError "u-1") w3.
Proof.
  apply (createTodo_deleteTodo_roundtrip sample_env "u-1"
           (mkCreate "Buy milk" None None None None) sample_world).
  - intros j _. reflexivity.
  - reflexivity.
Defined.

(** *** Tags *)

Lemma elem_of_set_add (g tag : string) (s : list string) :
  g ∈ set_add tag s <-> g = tag \/ g ∈ s.
Proof.
  unfold set_add. case_bool_decide as Hin.
  - split; [auto|]. intros [->|?]; done.
  - rewrite elem_of_app, list_elem_of_singleton. tauto.
Qed.

Lemma NoDup_set_add (tag : string) (s : list string) :
  NoDup s -> NoDup (set_add tag s).
Proof.
  intros Hs. unfold set_add. case_bool_decide as Hin; [done|].
  apply NoDup_app. split; [done|]. split; [|apply NoDup_singleton].
  intros x Hx ->%list_elem_of_singleton. done.
Qed.

Lemma add_tags_spec (gs s : list string) :
  let s' := foldl (fun s' tag => set_add tag s') s gs in
  (NoDup s -> NoDup s') /\ forall g, g ∈ s' <-> g ∈ s \/ g ∈ gs.
Proof.
  revert s. induction gs as [|tag gs IH]; intros s; simpl.
  { split; [done|]. intros g. rewrite elem_of_nil. tauto. }
  destruct (IH (set_add tag s)) as [Hnd Hin]. split.
  - intros Hs. by apply Hnd, NoDup_set_add.
  - intros g. rewrite Hin, elem_of_set_add, elem_of_cons. tauto.
Qed.

Lemma collect_tags_spec (ts : list Todo) (s : list string) :
  let s' := foldl (fun s todo => foldl (fun s' tag => set_add tag s') s (tags todo)) s ts in
  (NoDup s -> NoDup s')
  /\ forall g, g ∈ s' <-> g ∈ s \/ exists t, t ∈ ts /\ g ∈ tags t.
Proof.
  revert s. induction ts as [|t ts IH]; intros s; simpl.
  { split; [done|]. intros g. split; [auto|].
    intros [?|(t & Hin & _)]; [done|]. by apply elem_of_nil in Hin. }
  destruct (add_tags_spec (tags t) s) as [Hnd1 Hin1].
  destruct (IH (foldl (fun s' tag => set_add tag s') s (tags t))) as [Hnd Hin].
  split; [auto|].
  intros g. rewrite Hin, Hin1. split.
  - intros [[?|?]|(t' & Ht' & Hg)]; [auto| |].
    + right. exists t. split; [by left|done].
    + right. exists t'. split; [by right|done].
  - intros [?|(t' & [->|Ht']%elem_of_cons & Hg)]; [auto|auto|].
    right. eauto.
Qed.

Lemma StronglySorted_strict (l : list string) :
  StronglySorted (fun a b => JS.le a b = true) l -> NoDup l ->
  StronglySorted (fun a b => String.compare a b = Lt) l.
Proof.
  induction 1 as [|x l Hl IH Hx]; intros Hnd; [constructor|].
  apply NoDup_cons in Hnd as [Hnotin Hnd]. constructor; [auto|].
  apply Forall_forall. intros y Hy.
  rewrite Forall_forall in Hx. specialize (Hx y Hy).
  apply leb_le, le_compare in Hx.
  destruct (String.compare x y) eqn:Hc; [|done|done].
  apply String.compare_eq_iff in Hc. congruence.
Qed.

(** X3. [getAllTags] returns the tags carried by the stored entities, each
    of them once, in strictly increasing order.  (The request to the
    storage engine is taken to succeed.) *)
Theorem getAllTags_sorted_distinct (E : Env) (w : World) :
  fault E (reqs w) = false ->
  exists l : list string,
    getAllTags E w = Ok l (sent w)
    /\ (forall g, g ∈ l <-> exists k t, todos w !! k = Some t /\ g ∈ tags t)
    /\ NoDup l
    /\ StronglySorted (fun a b => String.compare a b = Lt) l.
Proof.
  intros Hf. eexists. split.
  { unfold getAllTags, try_catch, bind at 1. run_table Hf. reflexivity. }
  destruct (collect_tags_spec (records (todos w)) []) as [Hnd Hin].
  specialize (Hnd (NoDup_nil_2 (A:=string))).
  assert (NoDup (js_sort JS.le (collect_tags (records (todos w))))) as Hnd'.
  { by rewrite js_sort_perm. }
  split; [|split; [done|]].
  - intros g. rewrite js_sort_perm. unfold collect_tags. rewrite Hin.
    setoid_rewrite elem_of_records. rewrite elem_of_nil. split.
    + intros [[]|(t & [k Hk] & Hg)]. eauto.
    + intros (k & t & Hk & Hg). right. eauto.
  - apply StronglySorted_strict; [|done].
    apply js_sort_sorted; [apply leb_total_bool|apply leb_trans_bool].
Qed.

Lemma getAllTags_sorted_distinct_witness :
  exists l : list string,
    getAllTags sample_env sample_world = Ok l (sent sample_world)
    /\ (forall g, g ∈ l <-> exists k t, todos sample_world !! k = Some t /\ g ∈ tags t)
    /\ NoDup l
    /\ StronglySorted (fun a b => String.compare a b = Lt) l.
Proof. exact (getAllTags_sorted_distinct sample_env sample_world eq_refl). Defined.

(** *** Due today *)

Example getAllTags_due_world :
  getAllTags sample_env due_world = Ok ["home"; "money"] (sent due_world).
Proof. reflexivity. Qed.

Example getTodosForToday_due_world :
  getTodosForToday sample_env sample_endOfDay due_world
  = Ok [due_todo "q" false (Some "2024-04-20T12:00:00.000Z");
        due_todo "p" false (Some "2024-05-01T12:00:00.000Z")]
      (sent (ticked due_world)).
Proof. reflexivity. Qed.

Lemma due_today_test (limit : string) (t : Todo) :
  negb (completed t) && JS.truthy_opt (dueDate t)
  && JS.le (default "" (dueDate t)) limit = true
  <-> completed t = false
      /\ exists d, dueDate t = Some d /\ d <> "" /\ String.le d limit.
Proof.
  rewrite <- andb_assoc, andb_true_iff, negb_true_iff.
  rewrite (due_test_true (dueDate t) (fun d => JS.le d limit)).
  by setoid_rewrite leb_le.
Qed.

(** X4. [getTodosForToday] returns exactly the stored entities that are
    incomplete and have a due date no later than the end of the current
    day, each as often as it is stored, in increasing order of due date; a
    completed entity or one without due date is never returned.  (The
    request to the storage engine is taken to succeed.) *)
Theorem getTodosForToday_due_sorted (E : Env) (endOfDay : string -> string) (w : World) :
  fault E (reqs w) = false ->
  exists l : list Todo,
    getTodosForToday E endOfDay w = Ok l (sent (ticked w))
    /\ (forall t, t ∈ l <->
          (exists k, todos w !! k = Some t)
          /\ completed t = false
          /\ exists d, dueDate t = Some d /\ d <> ""
                       /\ String.le d (endOfDay (clock E (ticks w))))
    /\ (exists p : Todo -> bool,
          l ≡ₚ filter (fun t => p t = true) (map_to_list (todos w)).*2)
    /\ StronglySorted
         (fun a b => exists da db, dueDate a = Some da /\ dueDate b = Some db
                                   /\ String.le da db) l.
Proof.
  intros Hf.
  pose (p := fun todo : Todo =>
               negb (completed todo) && JS.truthy_opt (dueDate todo)
               && JS.le (default "" (dueDate todo)) (endOfDay (clock E (ticks w)))).
  pose (le := fun a b : Todo => JS.le (default "" (dueDate a)) (default "" (dueDate b))).
  exists (js_sort le (filter (fun t => p t = true) (records (todos w)))). split.
  { unfold getTodosForToday, try_catch, bind at 1, now.
    unfold table_filter_sortBy, bind, request, snapshot, ret. cbv beta.
    simpl. rewrite Hf. reflexivity. }
  assert (forall t, t ∈ js_sort le (filter (fun t => p t = true) (records (todos w)))
            <-> (exists k, todos w !! k = Some t) /\ p t = true) as Hmem.
  { intros t. by rewrite js_sort_perm, list_elem_of_filter, elem_of_records, (comm and). }
  split; [|split].
  - intros t. rewrite Hmem. subst p. cbv beta. by rewrite due_today_test.
  - exists p. by rewrite js_sort_perm, records_perm.
  - assert (StronglySorted (fun a b => le a b = true)
              (js_sort le (filter (fun t => p t = true) (records (todos w))))) as Hs.
    { apply js_sort_sorted.
      - intros x y. apply leb_total_bool.
      - intros x y z. apply leb_trans_bool. }
    revert Hs Hmem.
    generalize (js_sort le (filter (fun t => p t = true) (records (todos w)))).
    intros l Hs Hmem.
    assert (forall t, t ∈ l -> exists d, dueDate t = Some d) as Hdue.
    { intros t [_ Hp]%Hmem. apply due_today_test in Hp as (_ & d & ? & _). eauto. }
    clear Hmem. induction Hs as [|x l Hl IH Hx]; [constructor|].
    constructor.
    + apply IH. intros t Ht. apply Hdue. by right.
    + apply Forall_forall. intros y Hy.
      rewrite Forall_forall in Hx. specialize (Hx y Hy).
      destruct (Hdue x) as [dx Hdx]; [by left|].
      destruct (Hdue y) as [dy Hdy]; [by right|].
      exists dx, dy. split; [done|]. split; [done|].
      subst le. cbv beta in Hx. rewrite Hdx, Hdy in Hx. by apply leb_le.
Qed.

Lemma getTodosForToday_due_sorted_witness :
  exists l : list Todo,
    getTodosForToday sample_env sample_endOfDay due_world = Ok l (sent (ticked due_world))
    /\ (forall t, t ∈ l <->
          (exists k, todos due_world !! k = Some t)
          /\ completed t = false
          /\ exists d, dueDate t = Some d /\ d <> ""
                       /\ String.le d "2024-05-01T21:59:59.999Z")
    /\ (exists p : Todo -> bool,
          l ≡ₚ filter (fun t => p t = true) (map_to_list (todos due_world)).*2)
    /\ StronglySorted
         (fun a b => exists da db, dueDate a = Some da /\ dueDate b = Some db
                                   /\ String.le da db) l.
Proof.
  exact (getTodosForToday_due_sorted sample_env sample_endOfDay due_world eq_refl).
Defined.

(** *** Export and import *)

Lemma as_todo_of_todo (t : Todo) : as_todo (of_todo t) = t.
Proof. by destruct t. Qed.

Lemma of_todo_valid (t : Todo) : importable t -> invalid_record (of_todo t) = false.
Proof.
  intros [Hid Htitle]. unfold invalid_record. simpl.
  apply truthy_true in Hid, Htitle. by rewrite Hid, Htitle.
Qed.

Lemma record_ids (m : gmap string Todo) :
  keys_ok m -> id <$> (map_to_list m).*2 = (map_to_list m).*1.
Proof.
  intros Hm.
  assert (Forall (fun kt => id (snd kt) = fst kt) (map_to_list m)) as Hall.
  { apply Forall_forall. intros [k t] Hin. simpl.
    by apply Hm, elem_of_map_to_list. }
  revert Hall. generalize (map_to_list m). intros l.
  induction 1 as [|[k t] l Hkt _ IH]; [done|]. simpl in Hkt.
  rewrite !fmap_cons. simpl. by rewrite Hkt, IH.
Qed.

Lemma records_ids_NoDup (m : gmap string Todo) :
  keys_ok m -> NoDup (id <$> records m).
Proof.
  intros Hm. rewrite records_perm, record_ids by done.
  apply NoDup_fst_map_to_list.
Qed.

Lemma records_lookup (m : gmap string Todo) (t : Todo) :
  keys_ok m -> t ∈ records m <-> m !! id t = Some t.
Proof.
  intros Hm. rewrite elem_of_records. split; [|eauto].
  intros [k Hk]. by rewrite (Hm k t Hk).
Qed.

Lemma exportTodos_run (E : Env) (w : World) :
  fault E (reqs w) = false ->
  exportTodos E w = Ok (JsonArray (of_todo <$> records (todos w))) (sent w).
Proof.
  intros Hf. unfold exportTodos, try_catch, bind at 1. run_table Hf. reflexivity.
Qed.

Lemma last_with_id_Some (k : string) (rs : list ImportRecord) (r : ImportRecord) :
  last_with_id k rs = Some r -> r ∈ rs /\ id (as_todo r) = k.
Proof.
  unfold last_with_id. intros Hl%last_Some_elem_of.
  by apply list_elem_of_filter in Hl as [? ?].
Qed.

Lemma last_with_id_None (k : string) (rs : list ImportRecord) :
  last_with_id k rs = None <-> forall r, r ∈ rs -> id (as_todo r) <> k.
Proof.
  induction rs as [|r0 rs IH].
  { split; [|done]. intros _ r Hr. by apply elem_of_nil in Hr. }
  rewrite last_with_id_cons. split.
  - destruct (last_with_id k rs) eqn:Hl; [done|].
    case_decide as Hk; [done|]. intros _ r [->|Hr]%elem_of_cons; [done|].
    by apply IH.
  - intros Hall.
    assert (last_with_id k rs = None) as ->.
    { apply IH. intros r Hr. apply Hall. by right. }
    rewrite decide_False; [done|]. apply Hall. by left.
Qed.

(** X5. Importing, without [overwrite], what [exportTodos] has just written
    leaves the table exactly as it was and returns the number of entities.
    (The store keys each entity by its id, ids and titles are not empty, and
    the requests to the storage engine are taken to succeed.) *)
Theorem export_import_keeps_store (E : Env) (w : World) :
  keys_ok (todos w) ->
  (forall k t, todos w !! k = Some t -> importable t) ->
  (forall j, j <= size (todos w) -> fault E (reqs w + j) = false) ->
  exists (data : Parsed) (w1 w2 : World),
    exportTodos E w = Ok data w1
    /\ importTodos E data false w1 = Ok (size (todos w)) w2
    /\ todos w2 = todos w.
Proof.
  intros Hkeys Hvalid Hnf.
  assert (fault E (reqs w) = false) as Hf0.
  { rewrite <- (Nat.add_0_r (reqs w)). apply Hnf. lia. }
  set (rs := of_todo <$> records (todos w)).
  assert (length rs = size (todos w)) as Hlen.
  { subst rs. by rewrite length_fmap, length_records. }
  destruct (import_loop_valid E rs (sent w)) as (w2 & Hrun & Hnone & _ & Hrepl).
  { apply Forall_forall. intros r (t & -> & Ht)%list_elem_of_fmap.
    apply of_todo_valid. apply elem_of_records in Ht as [k Hk]. eauto. }
  { intros j Hj. simpl. replace (S (reqs w + j)) with (reqs w + S j) by lia.
    apply Hnf. lia. }
  exists (JsonArray rs), (sent w), w2.
  split; [by apply exportTodos_run|]. split.
  { rewrite importTodos_unfold. unfold try_catch, bind, transaction, ret.
    by rewrite Hrun, Hlen. }
  apply map_eq. intros k.
  destruct (last_with_id k rs) as [r|] eqn:Hl.
  - destruct (last_with_id_Some _ _ _ Hl) as [Hr Hk].
    apply list_elem_of_fmap in Hr as (t & -> & Ht).
    rewrite as_todo_of_todo in Hk. subst k.
    apply records_lookup in Ht; [|done].
    rewrite (Hrepl _ _ Hl) by (simpl; eauto).
    by rewrite as_todo_of_todo.
  - by rewrite Hnone.
Qed.

Lemma export_import_keeps_store_witness :
  exists (data : Parsed) (w1 w2 : World),
    exportTodos sample_env sample_world = Ok data w1
    /\ importTodos sample_env data false w1 = Ok 2 w2
    /\ todos w2 = todos sample_world.
Proof.
  apply (export_import_keeps_store sample_env sample_world).
  - intros k t Hk.
    destruct (decide (k = "a")) as [->|Ha]; [by injection Hk as <-|].
    destruct (decide (k = "c")) as [->|Hc]; [by injection Hk as <-|].
    unfold sample_world in Hk. simpl in Hk.
    rewrite lookup_insert_ne, lookup_insert_ne, lookup_empty in Hk by done.
    discriminate.
  - intros k t Hk.
    destruct (decide (k = "a")) as [->|Ha]; [by injection Hk as <-|].
    destruct (decide (k = "c")) as [->|Hc]; [by injection Hk as <-|].
    unfold sample_world in Hk. simpl in Hk.
    rewrite lookup_insert_ne, lookup_insert_ne, lookup_empty in Hk by done.
    discriminate.
  - intros j _. reflexivity.
Defined.

Lemma of_todo_ids (l : list Todo) :
  (fun r => id (as_todo r)) <$> (of_todo <$> l) = id <$> l.
Proof.
  induction l as [|t l IH]; [done|].
  rewrite !fmap_cons, IH. by rewrite as_todo_of_todo.
Qed.

Lemma import_loop_fresh (E : Env) (rs : list ImportRecord) (w : World) :
  Forall (fun r => invalid_record r = false) rs ->
  NoDup ((fun r => id (as_todo r)) <$> rs) ->
  (forall r, r ∈ rs -> todos w !! id (as_todo r) = None) ->
  (forall j, j < length rs -> fault E (reqs w + j) = false) ->
  exists w',
    for_of rs (import_step E) w = Ok tt w'
    /\ (forall i r, rs !! i = Some r ->
          todos w' !! id (as_todo r)
          = Some (stamp (clock E (ticks w + i)) (as_todo r)))
    /\ (forall k, (forall r, r ∈ rs -> id (as_todo r) <> k) ->
          todos w' !! k = todos w !! k).
Proof.
  intros Hv. revert w. induction Hv as [|r rs Hr Hv IH]; intros w Hnd Hfresh Hnf.
  { exists w. split; [done|]. split; [intros i r [=]|done]. }
  rewrite fmap_cons in Hnd. apply NoDup_cons in Hnd as [Hnotin Hnd].
  change (for_of (r :: rs) (import_step E) w)
    with (bind (import_step E r) (fun _ => for_of rs (import_step E)) w).
  unfold bind at 1, import_step at 1. rewrite Hr.
  unfold bind at 1.
  rewrite table_put_run by (rewrite <- (Nat.add_0_r (reqs w)); apply Hnf; simpl; lia).
  rewrite (Hfresh r) by (by left). unfold ret.
  set (x := stamp (clock E (ticks w)) (as_todo r)).
  set (w1 := mkWorld (<[id (as_todo r) := x]> (todos w)) (S (ticks w)) (S (reqs w))).
  assert (forall r', r' ∈ rs -> id (as_todo r') <> id (as_todo r)) as Hne.
  { intros r' Hr' Heq. apply Hnotin. rewrite <- Heq.
    by apply (list_elem_of_fmap_2 (fun r => id (as_todo r))). }
  destruct (IH w1 Hnd) as (w' & Hrun & Hat & Hother).
  { intros r' Hr'. simpl. rewrite lookup_insert_ne by (symmetry; by apply Hne).
    apply Hfresh. by right. }
  { intros j Hj. simpl. replace (S (reqs w + j)) with (reqs w + S j) by lia.
    apply Hnf. simpl. lia. }
  exists w'. split; [exact Hrun|]. split.
  - intros [|i] r' Hi; simpl in Hi.
    + injection Hi as <-. rewrite Hother by done.
      subst w1 x. cbn [todos]. by rewrite lookup_insert_eq, Nat.add_0_r.
    + rewrite (Hat i r' Hi). subst w1. cbn [ticks].
      by replace (S (ticks w) + i) with (ticks w + S i) by lia.
  - intros k Hk. rewrite Hother.
    + simpl. rewrite lookup_insert_ne; [done|]. apply Hk. by left.
    + intros r' Hr'. apply Hk. by right.
Qed.

(** X6. Importing with [overwrite] what [exportTodos] has just written gives
    back the same entities under the same ids, except for their timestamps:
    every entity is created anew, so its [createdAt] and [updatedAt] are both
    the clock reading taken as it is stored.  (Same conditions as for the
    import without [overwrite].) *)
Theorem export_import_overwrite_restamps (E : Env) (w : World) :
  keys_ok (todos w) ->
  (forall k t, todos w !! k = Some t -> importable t) ->
  (forall j, j <= S (size (todos w)) -> fault E (reqs w + j) = false) ->
  exists (data : Parsed) (w1 w2 : World),
    exportTodos E w = Ok data w1
    /\ importTodos E data true w1 = Ok (size (todos w)) w2
    /\ forall k,
         match todos w !! k with
         | Some t =>
             exists j, j < size (todos w)
                       /\ todos w2 !! k = Some (stamp (clock E (ticks w + j)) t)
         | None => todos w2 !! k = None
         end.
Proof.
  intros Hkeys Hvalid Hnf.
  assert (fault E (reqs w) = false) as Hf0.
  { rewrite <- (Nat.add_0_r (reqs w)). apply Hnf. lia. }
  assert (fault E (S (reqs w)) = false) as Hf1.
  { replace (S (reqs w)) with (reqs w + 1) by lia. apply Hnf. lia. }
  set (rs := of_todo <$> records (todos w)).
  assert (length rs = size (todos w)) as Hlen.
  { subst rs. by rewrite length_fmap, length_records. }
  destruct (import_loop_fresh E rs (mkWorld ∅ (ticks w) (S (S (reqs w)))))
    as (w2 & Hrun & Hat & Hother).
  { apply Forall_forall. intros r (t & -> & Ht)%list_elem_of_fmap.
    apply of_todo_valid. apply elem_of_records in Ht as [k Hk]. eauto. }
  { subst rs. rewrite of_todo_ids. by apply records_ids_NoDup. }
  { intros r _. apply lookup_empty. }
  { intros j Hj. simpl. replace (S (S (reqs w + j))) with (reqs w + S (S j)) by lia.
    apply Hnf. lia. }
  exists (JsonArray rs), (sent w), w2.
  split; [by apply exportTodos_run|]. split.
  { rewrite importTodos_unfold. unfold try_catch, bind at 1.
    rewrite table_clear_run by done.
    unfold bind, transaction, ret. simpl. by rewrite Hrun, Hlen. }
  intros k. destruct (todos w !! k) as [t|] eqn:Hk.
  - assert (of_todo t ∈ rs) as Hin.
    { subst rs. apply list_elem_of_fmap_2, elem_of_records. eauto. }
    apply list_elem_of_lookup in Hin as [i Hi].
    exists i. split.
    { rewrite <- Hlen. by eapply lookup_lt_Some. }
    specialize (Hat i _ Hi). rewrite as_todo_of_todo in Hat.
    by rewrite (Hkeys k t Hk) in Hat.
  - rewrite Hother; [apply lookup_empty|].
    intros r (t & -> & Ht)%list_elem_of_fmap. rewrite as_todo_of_todo.
    intros <-. apply records_lookup in Ht; [|done]. congruence.
Qed.

Lemma sample_world_lookup (k : string) (t : Todo) :
  todos sample_world !! k = Some t ->
  t = sample_todo "a" false ["work"] "2024-04-01T10:00:00.000Z" /\ k = "a"
  \/ t = sample_todo "c" true ["home"] "2024-04-02T10:00:00.000Z" /\ k = "c".
Proof.
  intros Hk.
  destruct (decide (k = "a")) as [->|Ha]; [left; by injection Hk as <-|].
  destruct (decide (k = "c")) as [->|Hc]; [right; by injection Hk as <-|].
  unfold sample_world in Hk. simpl in Hk.
  rewrite lookup_insert_ne, lookup_insert_ne, lookup_empty in Hk by done.
  discriminate.
Qed.

Lemma sample_world_keys_ok : keys_ok (todos sample_world).
Proof. intros k t [[-> ->]|[-> ->]]%sample_world_lookup; done. Qed.

Lemma sample_world_importable k t :
  todos sample_world !! k = Some t -> importable t.
Proof. intros [[-> ->]|[-> ->]]%sample_world_lookup; done. Qed.

Lemma export_import_overwrite_restamps_witness :
  exists (data : Parsed) (w1 w2 : World),
    exportTodos sample_env sample_world = Ok data w1
    /\ importTodos sample_env data true w1 = Ok 2 w2
    /\ exists j, j < 2
         /\ todos w2 !! "a"
            = Some (stamp (clock sample_env j)
                      (sample_todo "a" false ["work"] "2024-04-01T10:00:00.000Z")).
Proof.
  destruct (export_import_overwrite_restamps sample_env sample_world
              sample_world_keys_ok sample_world_importable (fun j _ => eq_refl))
    as (data & w1 & w2 & Hexp & Himp & Hall).
  exists data, w1, w2. split; [exact Hexp|]. split; [exact Himp|].
  exact (Hall "a").
Defined.

Lemma import_loop_ok_valid (E : Env) (rs : list ImportRecord) (w w' : World) :
  for_of rs (import_step E) w = Ok tt w' ->
  Forall (fun r => invalid_record r = false) rs.
Proof.
  revert w. induction rs as [|r rs IH]; intros w; [constructor|].
  simpl. unfold bind, import_step at 1.
  destruct (invalid_record r) eqn:Hr; [done|].
  destruct (bind (table_put E (as_todo r)) (fun _ => ret tt) w) as [[] w1|e w1]; [|done].
  intros Hrun. constructor; [done|]. by eapply IH.
Qed.

(** X7. [importTodos] returns only for an array all of whose records pass
    the validation, and then returns its length.  When it fails, it fails
    with a [DatabaseError], and the table is as it was before the call,
    unless [overwrite] was asked for an array: then the table may have been
    emptied.  A text that is no JSON, or no array, never changes the table,
    with or without [overwrite]. *)
Theorem importTodos_outcomes (E : Env) (jsonData : Parsed) (overwrite : bool) (w : World) :
  match importTodos E jsonData overwrite w with
  | Ok n w' =>
      exists rs, jsonData = JsonArray rs
                 /\ n = length rs
                 /\ Forall (fun r => invalid_record r = false) rs
  | Throw e w' =>
      (exists cause, e = DatabaseError "Failed to import todos" cause)
      /\ (todos w' = todos w
          \/ overwrite = true /\ todos w' = ∅ /\ exists rs, jsonData = JsonArray rs)
  end.
Proof.
  destruct jsonData as [| |rs]; [simpl; eauto..|].
  rewrite importTodos_unfold. unfold try_catch, bind at 1.
  assert (forall w0,
            match
              match (transaction (for_of rs (import_step E)) ;;; ret (length rs)) w0 with
              | Ok a s' => Ok a s'
              | Throw e s' => wrap "Failed to import todos" e s'
              end
            with
            | Ok n w' => n = length rs /\ Forall (fun r => invalid_record r = false) rs
            | Throw e w' =>
                (exists cause, e = DatabaseError "Failed to import todos" cause)
                /\ todos w' = todos w0
            end) as Htx.
  { intros w0. unfold bind, transaction, wrap, throw, ret.
    destruct (for_of rs (import_step E) w0) as [[] w1|e w1] eqn:Hrun; simpl.
    - split; [done|]. by eapply import_loop_ok_valid.
    - eauto. }
  destruct overwrite.
  - destruct (fault E (reqs w)) eqn:Hf.
    + rewrite table_clear_fault by done. simpl. eauto.
    + rewrite table_clear_run by done.
      specialize (Htx (mkWorld ∅ (ticks w) (S (reqs w)))).
      destruct (match (transaction (for_of rs (import_step E)) ;;; ret (length rs))
                        (mkWorld ∅ (ticks w) (S (reqs w))) with
                | Ok a s' => Ok a s'
                | Throw e s' => wrap "Failed to import todos" e s'
                end) as [n w'|e w'].
      * destruct Htx. eauto.
      * destruct Htx as [? Hw']. split; [done|]. right. eauto.
  - unfold ret at 1. specialize (Htx w).
    destruct (match (transaction (for_of rs (import_step E)) ;;; ret (length rs)) w with
              | Ok a s' => Ok a s'
              | Throw e s' => wrap "Failed to import todos" e s'
              end) as [n w'|e w'].
    + destruct Htx. eauto.
    + destruct Htx. eauto.
Qed.

(** *** Updating *)

Lemma updateTodo_effect (E : Env) (key : string) (dto : UpdateTodoDto) (w : World) :
  match updateTodo E key dto w with
  | Ok _ w' =>
      exists old,
        todos w !! key = Some old
        /\ todos w' = <[key := apply_mods (update_mods (clock E (ticks w)) dto) old]> (todos w)
  | Throw e w' =>
      todos w' = todos w
      /\ (e = TodoNotFoundError key
          \/ exists cause, e = DatabaseError ("Failed to update todo " +:+ key) cause)
  end.
Proof.
  destruct (fault E (reqs w)) eqn:Hf1.
  { unfold updateTodo, getTodo, try_catch, bind.
    rewrite table_get_fault by done. simpl. eauto. }
  destruct (todos w !! key) as [old|] eqn:Hk.
  2: { rewrite updateTodo_missing by done. eauto. }
  unfold updateTodo, try_catch, bind at 1.
  rewrite (getTodo_found E key old) by done.
  unfold bind at 1, now. unfold bind.
  destruct (fault E (S (reqs w))) eqn:Hf2.
  { rewrite table_update_fault by done. simpl. eauto. }
  rewrite (table_update_run E key _ old) by done.
  destruct (anythingModified _ old); simpl; eauto.
Qed.

(** X8. A successful [updateTodo] changes, of the entity stored under the
    id, the properties the argument gives (title and notes trimmed) and
    [updatedAt], which becomes the clock reading of the call; the id and
    [createdAt] stay, notes and due date can be replaced but not removed, and
    no other entity is touched.  A failed [updateTodo] changes nothing, and
    fails with [TodoNotFoundError] or with a [DatabaseError]. *)
Theorem updateTodo_changes_what_is_given (E : Env) (key : string) (dto : UpdateTodoDto)
    (w : World) :
  match updateTodo E key dto w with
  | Ok _ w' =>
      exists old new : Todo,
        todos w !! key = Some old
        /\ todos w' !! key = Some new
        /\ id new = id old
        /\ createdAt new = createdAt old
        /\ updatedAt new = clock E (ticks w)
        /\ title new = default (title old) (JS.trim <$> u_title dto)
        /\ notes new = match u_notes dto with
                       | Some n => Some (JS.trim n)
                       | None => notes old
                       end
        /\ dueDate new = match u_dueDate dto with
                         | Some d => Some d
                         | None => dueDate old
                         end
        /\ priority new = default (priority old) (u_priority dto)
        /\ tags new = default (tags old) (u_tags dto)
        /\ completed new = default (completed old) (u_completed dto)
        /\ (is_Some (notes old) -> is_Some (notes new))
        /\ (is_Some (dueDate old) -> is_Some (dueDate new))
        /\ (forall k, k <> key -> todos w' !! k = todos w !! k)
  | Throw e w' =>
      todos w' = todos w
      /\ (e = TodoNotFoundError key
          \/ exists cause, e = DatabaseError ("Failed to update todo " +:+ key) cause)
  end.
Proof.
  pose proof (updateTodo_effect E key dto w) as H.
  destruct (updateTodo E key dto w) as [[] w'|e w']; [|done].
  destruct H as (old & Hk & ->).
  exists old, (apply_mods (update_mods (clock E (ticks w)) dto) old).
  split; [done|]. split; [apply lookup_insert_eq|].
  simpl. split_and!; try done.
  - by destruct (u_notes dto).
  - destruct (u_notes dto); simpl; eauto.
  - destruct (u_dueDate dto); simpl; eauto.
  - intros k Hne. by rewrite lookup_insert_ne.
Qed.

(** *** Reading after writing *)

Lemma filter_all {A} (P : A -> Prop) `{!forall x, Decision (P x)} (l : list A) :
  (forall x, P x) -> filter P l = l.
Proof.
  intros HP. induction l as [|x l IH]; [done|].
  rewrite filter_cons, decide_True by done. by rewrite IH.
Qed.

Lemma listTodos_all_run (E : Env) (w : World) :
  fault E (reqs w) = false ->
  listTodos E no_filter w
  = Ok (reverse (merge_sort createdAt_index_le (records (todos w)))) (sent w).
Proof.
  intros Hf. unfold listTodos, try_catch.
  rewrite orderBy_createdAt_reverse_run by done.
  by rewrite filter_all.
Qed.

Lemma index_antisym (m : gmap string Todo) (x y : Todo) :
  keys_ok m -> (exists k, m !! k = Some x) -> (exists k, m !! k = Some y) ->
  createdAt_index_le x y -> createdAt_index_le y x -> x = y.
Proof.
  intros Hm [kx Hx] [ky Hy]. unfold createdAt_index_le.
  rewrite (String.compare_antisym (createdAt y) (createdAt x)).
  destruct (String.compare (createdAt x) (createdAt y)); simpl; [|done..].
  intros Hxy Hyx.
  assert (id x = id y) as Hid by (by apply (anti_symm String.le)).
  rewrite (Hm kx x Hx) in Hid. rewrite (Hm ky y Hy) in Hid. subst ky. congruence.
Qed.

(** X10. A todo created at a clock reading later than the [createdAt] of
    every stored entity comes first in the list: [listTodos] with the empty
    filter returns the new entity followed by the list it returned before.
    (The store keys each entity by its id, the drawn id is free, and the
    requests to the storage engine are taken to succeed.) *)
Theorem created_todo_listed_first (E : Env) (uuid : string) (dto : CreateTodoDto)
    (w : World) :
  no_fault E ->
  keys_ok (todos w) ->
  todos w !! uuid = None ->
  (forall k t, todos w !! k = Some t ->
     String.compare (createdAt t) (clock E (S (ticks w))) = Lt) ->
  exists (before : list Todo) (w1 w2 : World) (new : Todo),
    listTodos E no_filter w = Ok before (sent w)
    /\ createTodo E uuid dto w = Ok uuid w1
    /\ todos w1 !! uuid = Some new
    /\ listTodos E no_filter w1 = Ok (new :: before) w2.
Proof.
  intros Hnf Hkeys Hfree Hlate.
  set (new := stamp (clock E (S (ticks w))) (new_todo uuid (clock E (ticks w)) dto)).
  set (w1 := mkWorld (<[uuid := new]> (todos w)) (S (S (ticks w))) (S (reqs w))).
  exists (reverse (merge_sort createdAt_index_le (records (todos w)))), w1, (sent w1), new.
  split; [by apply listTodos_all_run|].
  split; [by apply createTodo_run|].
  split; [apply lookup_insert_eq|].
  rewrite listTodos_all_run by done. f_equal.
  assert (keys_ok (todos w1)) as Hkeys1.
  { intros k t. simpl. destruct (decide (uuid = k)) as [<-|Hne].
    - rewrite lookup_insert_eq. by intros [= <-].
    - rewrite lookup_insert_ne by done. apply Hkeys. }
  assert (forall m, StronglySorted (flip createdAt_index_le)
                      (reverse (merge_sort createdAt_index_le (records m)))) as Hsorted.
  { intros m. apply Sorted_StronglySorted.
    { intros a b c Hab Hbc. unfold flip in *. by etrans. }
    apply Sorted_reverse, Sorted_merge_sort, _. }
  assert (forall m t, t ∈ reverse (merge_sort createdAt_index_le (records m))
                      <-> exists k, m !! k = Some t) as Hmem.
  { intros m t. by rewrite reverse_Permutation, merge_sort_Permutation, elem_of_records. }
  apply (StronglySorted_unique_strong (flip createdAt_index_le)).
  - intros x y Hx Hy Hxy Hyx. unfold flip in *.
    apply (index_antisym (todos w1)); [done| | |done..].
    + by apply Hmem.
    + apply elem_of_cons in Hy as [->|Hy].
      * exists uuid. apply lookup_insert_eq.
      * apply Hmem in Hy as [k Hk]. exists k. simpl.
        rewrite lookup_insert_ne; [done|]. intros <-. congruence.
  - apply Hsorted.
  - constructor; [apply Hsorted|].
    apply Forall_forall. intros t [k Hk]%Hmem. unfold flip, createdAt_index_le.
    change (createdAt new) with (clock E (S (ticks w))).
    by rewrite (Hlate k t Hk).
  - rewrite !reverse_Permutation, !merge_sort_Permutation, !records_perm.
    simpl. rewrite map_to_list_insert by done. done.
Qed.

Lemma created_todo_listed_first_witness :
  exists (before : list Todo) (w1 w2 : World) (new : Todo),
    listTodos sample_env no_filter sample_world = Ok before (sent sample_world)
    /\ createTodo sample_env "u-1" (mkCreate "Buy milk" None None None None) sample_world
       = Ok "u-1" w1
    /\ todos w1 !! "u-1" = Some new
    /\ listTodos sample_env no_filter w1 = Ok (new :: before) w2.
Proof.
  apply (created_todo_listed_first sample_env "u-1"
           (mkCreate "Buy milk" None None None None) sample_world).
  - intros k. reflexivity.
  - exact sample_world_keys_ok.
  - reflexivity.
  - intros k t [[-> ->]|[-> ->]]%sample_world_lookup; reflexivity.
Defined.

(** *** Activation *)

Lemma delete_caches_all (R : Refusals) (names : list string) (s : Worker) :
  let body := fun name => console_log "[SW] Deleting old cache:" ;;; caches_delete R name in
  skipWaitingCalled (state_of (promise_all names body s)) = skipWaitingCalled s
  /\ (forall n, caches (state_of (promise_all names body s)) !! n
                = if decide (n ∈ names)
                  then (if delete_rejected R n then caches s !! n else None)
                  else caches s !! n)
  /\ match promise_all names body s with
     | Ok _ _ => existsb (delete_rejected R) names = false
     | Throw _ _ => existsb (delete_rejected R) names = true
     end.
Proof.
  intros body. revert s. induction names as [|x names IH]; intros s.
  { split; [done|]. split; [|done]. intros n.
    by rewrite decide_False by apply not_elem_of_nil. }
  assert (forall s0 n,
             caches s0 !! n = (if decide (n = x)
                               then (if delete_rejected R x then caches s !! n else None)
                               else caches s !! n) ->
             (if decide (n ∈ names)
              then (if delete_rejected R n then caches s0 !! n else None)
              else caches s0 !! n)
             = (if decide (n ∈ x :: names)
                then (if delete_rejected R n then caches s !! n else None)
                else caches s !! n)) as Hstep.
  { intros s0 n Hs0. rewrite Hs0.
    destruct (decide (n = x)) as [->|Hne].
    - rewrite (decide_True (P := x ∈ x :: names)) by (by left).
      destruct (decide (x ∈ names)); by destruct (delete_rejected R x).
    - destruct (decide (n ∈ names)) as [Hin|Hin].
      + by rewrite decide_True by (by right).
      + rewrite decide_False; [done|]. intros [?|?]%elem_of_cons; done. }
  cbn [promise_all existsb]. unfold body at 1 4 7. unfold bind, console_log, caches_delete.
  cbn [caches skipWaitingCalled console].
  destruct (delete_rejected R x) eqn:Hx.
  - set (s0 := mkWorker (caches s) (skipWaitingCalled s)
                 (console s ++ ["[SW] Deleting old cache:"])).
    destruct (IH s0) as (Hskip & Hc & _). cbn [state_of orb].
    split; [exact Hskip|]. split; [|done].
    intros n. rewrite Hc. apply Hstep. subst s0. cbn [caches]. by case_decide.
  - set (s1 := mkWorker (delete x (caches s)) (skipWaitingCalled s)
                 (console s ++ ["[SW] Deleting old cache:"])).
    destruct (IH s1) as (Hskip & Hc & Hout). cbn [orb].
    assert (forall n, caches s1 !! n
                      = if decide (n = x) then None else caches s !! n) as Hs1.
    { intros n. subst s1. cbn [caches]. case_decide as Hn.
      - subst n. apply lookup_delete_eq.
      - by apply lookup_delete_ne. }
    destruct (promise_all names body s1) as [rest s2|e s2]; cbn [state_of] in *.
    + split; [exact Hskip|]. split; [|done]. intros n. rewrite Hc. by apply Hstep.
    + split; [exact Hskip|]. split; [|done]. intros n. rewrite Hc. by apply Hstep.
Qed.

Lemma activate_listener_run (R : Refusals) (c : Controlled) :
  exists c',
    activate_listener R c = Ok tt c'
    /\ skipWaitingCalled (worker c') = skipWaitingCalled (worker c)
    /\ (forall n, caches (worker c') !! n
                  = if old_cache n && negb (keys_rejected R) && negb (delete_rejected R n)
                    then None else caches (worker c) !! n)
    /\ clientsClaimed c'
       = (if activation_refused R (worker c) then clientsClaimed c else true)
    /\ last (console (worker c'))
       = Some (if activation_refused R (worker c) then "[SW] Activation failed:"
               else "[SW] Service worker activated and took control").
Proof.
  unfold activate_listener, activation_refused.
  unfold bind at 1, on_worker at 1, console_log at 1. cbn [worker clientsClaimed].
  unfold try_catch, bind at 1, on_worker at 1, caches_keys.
  cbn [worker clientsClaimed caches].
  destruct (keys_rejected R) eqn:Hkeys.
  { unfold on_worker, console_log. cbn [worker clientsClaimed caches console].
    eexists. split; [reflexivity|]. cbn [worker clientsClaimed caches console
                                           skipWaitingCalled orb].
    split; [done|]. split; [|split; [done|by rewrite last_snoc]].
    intros n. by rewrite andb_false_r. }
  set (s0 := mkWorker (caches (worker c)) (skipWaitingCalled (worker c))
               (console (worker c) ++ ["[SW] Activate event"])).
  change (filter (fun name => old_cache name = true) (map_to_list (caches (worker c))).*1)
    with (stale_names (worker c)).
  set (names := stale_names (worker c)).
  destruct (delete_caches_all R names s0) as (Hskip & Hc & Hout).
  assert (forall n, caches (state_of
                              (promise_all names
                                 (fun name => console_log "[SW] Deleting old cache:" ;;;
                                              caches_delete R name) s0)) !! n
                    = if old_cache n && negb false && negb (delete_rejected R n)
                      then None else caches (worker c) !! n) as Hcaches.
  { intros n. rewrite Hc. subst s0 names. cbn [caches]. unfold stale_names.
    rewrite andb_true_r.
    destruct (old_cache n) eqn:Hold; cbn [andb].
    - case_decide as Hin; [by destruct (delete_rejected R n)|].
      destruct (caches (worker c) !! n) as [e|] eqn:Hn;
        [|by destruct (delete_rejected R n)].
      destruct Hin. apply list_elem_of_filter. split; [done|].
      apply list_elem_of_fmap. exists (n, e). split; [done|].
      by apply elem_of_map_to_list.
    - rewrite decide_False; [done|].
      intros [Hold' _]%list_elem_of_filter. congruence. }
  cbn [orb].
  unfold bind at 1, on_worker at 1. cbn [worker clientsClaimed].
  destruct (promise_all names _ s0) as [rest s1|e s1]; cbn [state_of] in *.
  - rewrite Hout. cbn [orb].
    unfold bind at 1, clients_claim. destruct (claim_rejected R) eqn:Hclaim.
    + unfold on_worker, console_log. cbn [worker clientsClaimed caches console].
      eexists. split; [reflexivity|].
      cbn [worker clientsClaimed caches console skipWaitingCalled].
      split; [exact Hskip|]. split; [exact Hcaches|]. split; [done|by rewrite last_snoc].
    + unfold bind, on_worker, console_log. cbn [worker clientsClaimed caches console].
      eexists. split; [reflexivity|].
      cbn [worker clientsClaimed caches console skipWaitingCalled].
      split; [exact Hskip|]. split; [exact Hcaches|]. split; [done|by rewrite last_snoc].
  - rewrite Hout. cbn [orb].
    unfold on_worker, console_log. cbn [worker clientsClaimed caches console].
    eexists. split; [reflexivity|].
    cbn [worker clientsClaimed caches console skipWaitingCalled].
    split; [exact Hskip|]. split; [exact Hcaches|]. split; [done|by rewrite last_snoc].
Qed.

(** X11. The promise the activate listener gives to [waitUntil] is always
    fulfilled, also when the platform refuses to enumerate the caches, to
    delete one of them or to claim the clients: the listener catches the
    rejection and logs it.  The caches of the current generation, the
    primary one and the four runtime ones, are never touched.  When the
    enumeration is not refused, every other cache is deleted but those whose
    deletion is refused, which stay as they were.  The clients are claimed
    only when nothing was refused; then only the five names of the current
    generation can remain, and activating once more changes no cache. *)
Theorem activate_sweeps_old_caches (R : Refusals) (c : Controlled) :
  exists c' : Controlled,
    activate_listener R c = Ok tt c'
    /\ (forall n, caches (worker c') !! n
                  = if old_cache n && negb (keys_rejected R) && negb (delete_rejected R n)
                    then None else caches (worker c) !! n)
    /\ clientsClaimed c'
       = (if activation_refused R (worker c) then clientsClaimed c else true)
    /\ last (console (worker c'))
       = Some (if activation_refused R (worker c) then "[SW] Activation failed:"
               else "[SW] Service worker activated and took control")
    /\ (activation_refused R (worker c) = false ->
        (forall n, is_Some (caches (worker c') !! n) ->
           n = CACHE_NAME \/ n ∈ RUNTIME_CACHE_values)
        /\ exists c'' : Controlled,
             activate_listener R c' = Ok tt c''
             /\ caches (worker c'') = caches (worker c')).
Proof.
  destruct (activate_listener_run R c) as (c' & Hrun & _ & Hc & Hclaim & Hlog).
  destruct (activate_listener_run R c') as (c'' & Hrun' & _ & Hc' & _).
  exists c'. split; [exact Hrun|]. split; [exact Hc|]. split; [exact Hclaim|].
  split; [exact Hlog|].
  intros Href. unfold activation_refused in Href.
  apply orb_false_iff in Href as [Href Hcl]. apply orb_false_iff in Href as [Hkeys Hdel].
  assert (forall n, old_cache n = true -> caches (worker c') !! n = None) as Hgone.
  { intros n Hold. rewrite Hc, Hold, Hkeys. cbn [negb andb].
    destruct (delete_rejected R n) eqn:Hn; [|done]. cbn [negb].
    destruct (caches (worker c) !! n) as [e|] eqn:Hstored; [|done].
    assert (existsb (delete_rejected R) (stale_names (worker c)) = true) as Hex.
    { apply existsb_exists. exists n. split; [|done].
      apply list_elem_of_In. unfold stale_names.
      apply list_elem_of_filter. split; [done|].
      apply list_elem_of_fmap. exists (n, e). split; [done|].
      by apply elem_of_map_to_list. }
    congruence. }
  split.
  - intros n Hn. destruct (old_cache n) eqn:Hold.
    + rewrite Hgone in Hn by done. by destruct Hn.
    + unfold old_cache in Hold.
      destruct (String.eqb_spec n CACHE_NAME) as [->|Hne]; [auto|].
      case_bool_decide as Hin; [auto|]. done.
  - exists c''. split; [exact Hrun'|]. apply map_eq. intros n.
    rewrite Hc'. destruct (old_cache n) eqn:Hold; [|done].
    rewrite Hgone by done. by destruct (_ && _).
Qed.

Example activate_crowded_worker :
  exists c' : Controlled,
    activate_listener no_refusals crowded_worker = Ok tt c'
    /\ caches (worker c') !! "todo-pwa-v0" = None
    /\ caches (worker c') !! "todo-pwa-beta" = None
    /\ entries CACHE_NAME (worker c') !! "https://todo.example/offline" = Some sample_page
    /\ clientsClaimed c' = true.
Proof.
  exists (state_of (activate_listener no_refusals crowded_worker)).
  split; [vm_compute; reflexivity|]. split; [vm_compute; reflexivity|].
  split; [vm_compute; reflexivity|]. split; vm_compute; reflexivity.
Qed.

(** A deletion that is refused: the other stale cache is deleted all the
    same, the refused one stays, and the clients are not claimed. *)
Example activate_stubborn_cache :
  exists c' : Controlled,
    activate_listener stubborn_cache crowded_worker = Ok tt c'
    /\ is_Some (caches (worker c') !! "todo-pwa-v0")
    /\ caches (worker c') !! "todo-pwa-beta" = None
    /\ clientsClaimed c' = false
    /\ last (console (worker c')) = Some "[SW] Activation failed:".
Proof.
  exists (state_of (activate_listener stubborn_cache crowded_worker)).
  split; [vm_compute; reflexivity|]. split; [vm_compute; eauto|].
  split; [vm_compute; reflexivity|]. split; vm_compute; reflexivity.
Qed.

(** *** The caching strategies *)

Section StrategyFacts.
Context (N : Net).

Lemma fetch_and_store_run (request : Request) (cache : string) (s : Worker) (r : Response) :
  network N (url request) = Some r ->
  exists s',
    (networkResponse <- fetch N (url request) ;;
     (if ok networkResponse then cache_put cache (url request) networkResponse
      else ret tt) ;;;
     ret (Some networkResponse)) s = Ok (Some r) s'
    /\ entries cache s' = (if ok r then <[url request := r]> (entries cache s)
                           else entries cache s)
    /\ (forall c, c <> cache -> entries c s' = entries c s).
Proof.
  intros Hn. unfold bind, fetch, ret. rewrite Hn. destruct (ok r).
  - unfold cache_put. eexists. split; [done|]. split.
    + by rewrite entries_put, decide_True.
    + intros c Hc. by rewrite entries_put, decide_False.
  - by exists s.
Qed.

Lemma cacheFirst_run (request : Request) (cacheName : string) (s : Worker) :
  exists s',
    (forall c, c <> cacheName -> entries c s' = entries c s)
    /\ match entries cacheName s !! url request with
       | Some cached =>
           cacheFirst N request cacheName s = Ok (Some cached) s'
           /\ entries cacheName s' = entries cacheName s
       | None =>
           match network N (url request) with
           | Some r =>
               cacheFirst N request cacheName s = Ok (Some r) s'
               /\ entries cacheName s'
                  = if ok r then <[url request := r]> (entries cacheName s)
                    else entries cacheName s
           | None =>
               cacheFirst N request cacheName s = Throw TypeError s'
               /\ entries cacheName s' = entries cacheName s
           end
       end.
Proof.
  destruct (caches_open_run cacheName s) as (s1 & Hopen & Hent & _).
  destruct (entries cacheName s !! url request) as [cached|] eqn:Hc.
  - exists s1. split; [intros c _; apply Hent|]. split; [|apply Hent].
    unfold cacheFirst, bind, cache_match. by rewrite Hopen, Hent, Hc.
  - destruct (network N (url request)) as [r|] eqn:Hn.
    + destruct (fetch_and_store_run request cacheName s1 r Hn) as (s2 & Hrun & He & Ho).
      exists s2. split; [intros c Hc'; by rewrite Ho, Hent|]. split.
      * unfold cacheFirst, bind at 1. rewrite Hopen.
        unfold bind at 1, cache_match. rewrite Hent, Hc.
        unfold try_catch. by rewrite Hrun.
      * rewrite He, Hent. done.
    + exists (mkWorker (caches s1) (skipWaitingCalled s1)
                (console s1 ++ ["[SW] Cache first failed:"])).
      split; [intros c _; by rewrite entries_console|].
      split; [|by rewrite entries_console].
      unfold cacheFirst, bind at 1. rewrite Hopen.
      unfold bind at 1, cache_match. rewrite Hent, Hc.
      unfold try_catch, bind, fetch, console_log, throw. by rewrite Hn.
Qed.


Lemma networkFirstWithOfflineFallback_run (request : Request) (s : Worker) :
  exists s',
    networkFirstWithOfflineFallback N request s
    = Ok (Some
            match network N (url request) with
            | Some r => r
            | None =>
                match entries RUNTIME_CACHE_pages s !! url request with
                | Some cached => cached
                | None => default generated_offline_page
                            (entries CACHE_NAME s !! resolve N OFFLINE_URL)
                end
            end) s'
    /\ entries RUNTIME_CACHE_pages s'
       = match network N (url request) with
         | Some r => if ok r then <[url request := r]> (entries RUNTIME_CACHE_pages s)
                     else entries RUNTIME_CACHE_pages s
         | None => entries RUNTIME_CACHE_pages s
         end
    /\ (forall c, c <> RUNTIME_CACHE_pages -> entries c s' = entries c s).
Proof.
  destruct (caches_open_run RUNTIME_CACHE_pages s) as (s1 & Hopen & Hent & _).
  unfold networkFirstWithOfflineFallback, bind at 1. rewrite Hopen.
  unfold try_catch.
  destruct (network N (url request)) as [r|] eqn:Hn.
  - destruct (fetch_and_store_run request RUNTIME_CACHE_pages s1 r Hn)
      as (s2 & Hrun & He & Ho).
    rewrite Hrun. exists s2. split; [done|].
    split; [by rewrite He, Hent|]. intros c Hc. by rewrite Ho, Hent.
  - unfold bind at 1, fetch. rewrite Hn.
    unfold bind at 1, console_log. unfold bind at 1, cache_match.
    rewrite entries_console, Hent.
    destruct (entries RUNTIME_CACHE_pages s !! url request) as [cached|].
    + unfold ret. eexists. split; [done|].
      split; [by rewrite entries_console|]. intros c _. by rewrite entries_console.
    + set (s2 := mkWorker (caches s1) (skipWaitingCalled s1)
                   (console s1 ++ ["[SW] Network failed for page, trying cache:"])).
      destruct (getOfflineFallback_run N s2) as (s3 & -> & Hent3).
      exists s3. subst s2. split.
      * by rewrite entries_console, Hent.
      * split; [by rewrite Hent3, entries_console|].
        intros c _. by rewrite Hent3, entries_console.
Qed.

End StrategyFacts.

(** X12. Cache first: when the cache holds an entry for the request, that
    entry is the answer whatever the network would say, and no cache
    changes.  When it holds none, the response of the network is the answer,
    and is stored when its status is [ok]; when the network fails too, the
    failure is thrown and nothing is stored. *)
Theorem cacheFirst_hit_ignores_network (N : Net) (request : Request)
    (cacheName : string) (s : Worker) :
  match entries cacheName s !! url request with
  | Some cached =>
      (forall N', cacheFirst N' request cacheName s = cacheFirst N request cacheName s)
      /\ exists s',
           cacheFirst N request cacheName s = Ok (Some cached) s'
           /\ forall c, entries c s' = entries c s
  | None =>
      match network N (url request) with
      | Some r =>
          exists s',
            cacheFirst N request cacheName s = Ok (Some r) s'
            /\ entries cacheName s'
               = (if ok r then <[url request := r]> (entries cacheName s)
                  else entries cacheName s)
            /\ forall c, c <> cacheName -> entries c s' = entries c s
      | None =>
          exists s',
            cacheFirst N request cacheName s = Throw TypeError s'
            /\ forall c, entries c s' = entries c s
      end
  end.
Proof.
  destruct (cacheFirst_run N request cacheName s) as (s' & Hoth & Hrun).
  destruct (entries cacheName s !! url request) as [cached|] eqn:Hc.
  - destruct Hrun as [Hrun Hent]. split.
    + intros N'. destruct (caches_open_run cacheName s) as (s1 & Hopen & Hent1 & _).
      unfold cacheFirst, bind, cache_match. by rewrite Hopen, Hent1, Hc.
    + exists s'. split; [done|]. intros c.
      destruct (decide (c = cacheName)) as [->|Hne]; [done|by apply Hoth].
  - destruct (network N (url request)) as [r|].
    + destruct Hrun as [Hrun Hent]. eauto.
    + destruct Hrun as [Hrun Hent]. exists s'. split; [done|]. intros c.
      destruct (decide (c = cacheName)) as [->|Hne]; [done|by apply Hoth].
Qed.

Example cacheFirst_serves_old_script :
  exists s',
    cacheFirst fresh_net script_request RUNTIME_CACHE_static warm_worker
    = Ok (Some old_script) s'.
Proof. eexists. reflexivity. Qed.


Example staleWhileRevalidate_manifest :
  exists s1 s2,
    staleWhileRevalidate fresh_net manifest_request CACHE_NAME warm_worker
    = Ok (Some old_script) s1
    /\ staleWhileRevalidate fresh_net manifest_request CACHE_NAME s1
       = Ok (Some new_script) s2.
Proof. eexists _, _. split; reflexivity. Qed.



Section LifecycleFacts.
Context (N : Net).

Lemma install_listener_run (s : Worker) (rs : list (string * Response)) :
  fetch_all N STATIC_CACHE_FILES = Some rs ->
  exists s',
    install_listener N s = Ok tt s'
    /\ skipWaitingCalled s' = true
    /\ (forall c, c <> CACHE_NAME -> entries c s' = entries c s)
    /\ forall k, entries CACHE_NAME s' !! k
                 = if decide (k ∈ resolve N <$> STATIC_CACHE_FILES) then network N k
                   else entries CACHE_NAME s !! k.
Proof.
  intros Hfetch. destruct (fetch_all_keys N _ _ Hfetch) as [Hkeys Hall].
  unfold install_listener, cache_addAll. rewrite Hfetch.
  unfold bind at 1, console_log at 1, try_catch, bind at 1.
  set (s0 := mkWorker (caches s) (skipWaitingCalled s) (console s ++ ["[SW] Install event"])).
  destruct (caches_open_run CACHE_NAME s0) as (s1 & -> & Hent1 & Hskip1 & Hcon1).
  unfold bind at 1, console_log at 1. unfold bind at 1.
  set (s2 := mkWorker (caches s1) (skipWaitingCalled s1)
               (console s1 ++ ["[SW] Caching static files"])).
  destruct (put_loop N CACHE_NAME rs s2) as (s3 & -> & Hskip3 & Hcon3 & Hoth3 & Hent3).
  { intros k r Hin. by apply Hall. }
  unfold bind, console_log, skipWaiting. eexists. split; [done|].
  split; [done|]. split.
  - intros c Hc. change (entries c s3 = entries c s).
    rewrite Hoth3 by done. subst s2. by rewrite entries_console, Hent1.
  - intros k. change (entries CACHE_NAME s3 !! k
                      = if decide (k ∈ resolve N <$> STATIC_CACHE_FILES) then network N k
                        else entries CACHE_NAME s !! k).
    rewrite Hent3, Hkeys. subst s2. by rewrite entries_console, Hent1.
Qed.

(** With the network down and the request in no runtime cache, every route
    but that of the manifest ends in the offline fallback. *)
Lemma handleRequest_offline_run (request : Request) (s : Worker) :
  network N (url request) = None ->
  pathname request <> "/manifest.webmanifest" ->
  (forall c, c <> CACHE_NAME -> entries c s !! url request = None) ->
  exists s',
    handleRequest N request s
    = Ok (Some (default generated_offline_page
                  (entries CACHE_NAME s !! resolve N OFFLINE_URL))) s'.
Proof.
  intros Hn Hpath Hnone.
  assert (forall s1, (forall c, entries c s1 = entries c s) ->
            exists s',
              (console_log "[SW] Request handling failed:" ;;; getOfflineFallback N) s1
              = Ok (Some (default generated_offline_page
                            (entries CACHE_NAME s !! resolve N OFFLINE_URL))) s')
    as Hfallback.
  { intros s1 Hs1. unfold bind, console_log.
    destruct (getOfflineFallback_run N
                (mkWorker (caches s1) (skipWaitingCalled s1)
                   (console s1 ++ ["[SW] Request handling failed:"])))
      as (s2 & -> & _).
    rewrite entries_console, Hs1. eauto. }
  assert (forall cacheName s1,
            (forall c, c <> cacheName -> entries c s1 = entries c s) ->
            entries cacheName s1 = entries cacheName s ->
            forall c, entries c s1 = entries c s) as Hsame.
  { intros cacheName s1 Hoth Hent c.
    destruct (decide (c = cacheName)) as [->|Hne]; [done|by apply Hoth]. }
  unfold handleRequest, try_catch.
  destruct (JS.startsWith (pathname request) "/api/").
  { destruct (networkFirst_run N request RUNTIME_CACHE_api s) as (s1 & Hoth & Hrun).
    rewrite Hn in Hrun. destruct Hrun as [Hent Hrun].
    rewrite (Hnone RUNTIME_CACHE_api) in Hrun by done. rewrite Hrun.
    apply Hfallback. by apply (Hsame RUNTIME_CACHE_api). }
  destruct (JS.startsWith (pathname request) "/_next/static/").
  { destruct (cacheFirst_run N request RUNTIME_CACHE_static s) as (s1 & Hoth & Hrun).
    rewrite (Hnone RUNTIME_CACHE_static), Hn in Hrun by done.
    destruct Hrun as [Hrun Hent]. rewrite Hrun.
    apply Hfallback. by apply (Hsame RUNTIME_CACHE_static). }
  destruct (JS.startsWith (pathname request) "/icons/" || image_extension (pathname request)).
  { destruct (cacheFirst_run N request RUNTIME_CACHE_images s) as (s1 & Hoth & Hrun).
    rewrite (Hnone RUNTIME_CACHE_images), Hn in Hrun by done.
    destruct Hrun as [Hrun Hent]. rewrite Hrun.
    apply Hfallback. by apply (Hsame RUNTIME_CACHE_images). }
  destruct (String.eqb_spec (pathname request) "/manifest.webmanifest") as [Hp|_]; [done|].
  destruct (networkFirstWithOfflineFallback_run N request s) as (s1 & Hrun & _).
  rewrite Hn, (Hnone RUNTIME_CACHE_pages) in Hrun by done. rewrite Hrun. eauto.
Qed.

End LifecycleFacts.

Lemma old_cache_kept (n : string) :
  n = CACHE_NAME \/ n ∈ RUNTIME_CACHE_values -> old_cache n = false.
Proof.
  unfold old_cache. intros [->|Hin]; [done|].
  rewrite (bool_decide_eq_true_2 _ Hin). by rewrite andb_false_r.
Qed.

(** X16. Install, activate, go offline.  When every shell resource is
    fetched at install, the worker is then activated, and the network goes
    down, a request that is in no runtime cache, on any route but that of
    the manifest, is answered with the page the network served for
    [/offline] at install: activation keeps the precache, whatever the
    platform refuses while the worker activates. *)
Theorem offline_page_after_install (N N' : Net) (R : Refusals) (request : Request)
    (s : Worker) (claimed : bool) :
  fetch_all N STATIC_CACHE_FILES <> None ->
  self_origin N' = self_origin N ->
  network N' (url request) = None ->
  pathname request <> "/manifest.webmanifest" ->
  (forall c, c <> CACHE_NAME -> entries c s !! url request = None) ->
  exists (s1 : Worker) (c2 : Controlled) (offline : Response) (s3 : Worker),
    install N s = (Waiting, s1)
    /\ activate_listener R (mkControlled s1 claimed) = Ok tt c2
    /\ network N (resolve N OFFLINE_URL) = Some offline
    /\ handleRequest N' request (worker c2) = Ok (Some offline) s3.
Proof.
  intros Hfetch Horigin Hn Hpath Hnone.
  destruct (fetch_all N STATIC_CACHE_FILES) as [rs|] eqn:Hrs; [|done].
  destruct (install_listener_run N s rs Hrs) as (s1 & Hinstall & _ & Hoth & Hpre).
  destruct (activate_listener_run R (mkControlled s1 claimed))
    as (c2 & Hact & _ & Hc & _).
  cbn [worker] in Hc.
  assert (resolve N OFFLINE_URL ∈ resolve N <$> STATIC_CACHE_FILES) as Hin.
  { apply list_elem_of_fmap_2. unfold STATIC_CACHE_FILES, OFFLINE_URL. set_solver. }
  destruct (fetch_all_keys N _ _ Hrs) as [Hkeys Hall].
  assert (exists offline, network N (resolve N OFFLINE_URL) = Some offline) as [offline Hoff].
  { rewrite <- Hkeys in Hin. apply list_elem_of_fmap in Hin as ([k r] & Hk & Hin).
    simpl in Hk. subst k. exists r. by apply Hall. }
  assert (entries CACHE_NAME (worker c2) = entries CACHE_NAME s1) as Hkeep.
  { unfold entries. by rewrite Hc, old_cache_kept by (by left). }
  destruct (handleRequest_offline_run N' request (worker c2) Hn Hpath) as (s3 & Hrun).
  { intros c Hne. unfold entries at 1. rewrite Hc.
    destruct (old_cache c && negb (keys_rejected R) && negb (delete_rejected R c)); [done|].
    change (entries c s1 !! url request = None). rewrite Hoth by done. by apply Hnone. }
  exists s1, c2, offline, s3.
  split; [unfold install; by rewrite Hinstall|]. split; [exact Hact|]. split; [exact Hoff|].
  rewrite Hrun, Hkeep. unfold resolve at 1. rewrite Horigin.
  change (self_origin N +:+ OFFLINE_URL) with (resolve N OFFLINE_URL).
  by rewrite Hpre, decide_True, Hoff.
Qed.

Lemma offline_page_after_install_witness :
  exists (s1 : Worker) (c2 : Controlled) (s3 : Worker),
    install served_net fresh_worker = (Waiting, s1)
    /\ activate_listener no_refusals (mkControlled s1 false) = Ok tt c2
    /\ handleRequest offline_net page_request (worker c2) = Ok (Some sample_page) s3.
Proof.
  destruct (offline_page_after_install served_net offline_net no_refusals page_request
              fresh_worker false)
    as (s1 & c2 & offline & s3 & Hinstall & Hact & Hoff & Hrun);
    [done|reflexivity|reflexivity|done|intros c _; unfold entries; simpl; by rewrite lookup_empty|].
  injection Hoff as <-. by exists s1, c2, s3.
Defined.

(** *** The database class *)

Lemma isSeeded_run (E : Env) (w : World) :
  fault E (reqs w) = false ->
  isSeeded E w = Ok (negb (bool_decide (todos w = ∅))) (sent w).
Proof.
  intros Hf. unfold isSeeded, table_count, bind, request, snapshot, ret.
  rewrite Hf. simpl. f_equal.
  destruct (decide (todos w = ∅)) as [Hm|Hm].
  - rewrite bool_decide_eq_true_2 by done. rewrite Hm. by rewrite map_size_empty.
  - rewrite bool_decide_eq_false_2 by done. simpl. apply Nat.ltb_lt.
    assert (size (todos w) <> 0) by (by rewrite map_size_empty_iff). lia.
Qed.

(** X17. [isSeeded] tells whether the table holds a record: it answers
    no right after [clearAll], whatever the table held, and yes after the
    first [createTodo] that follows, which cannot fail on a taken id. *)
Theorem clearAll_then_isSeeded (E : Env) (uuid : string) (dto : CreateTodoDto)
    (w : World) :
  (forall j, j < 4 -> fault E (reqs w + j) = false) ->
  exists w1 w2 w3 w4 : World,
    clearAll E w = Ok tt w1
    /\ todos w1 = ∅
    /\ isSeeded E w1 = Ok false w2
    /\ createTodo E uuid dto w2 = Ok uuid w3
    /\ isSeeded E w3 = Ok true w4.
Proof.
  intros Hf.
  assert (fault E (reqs w) = false) as Hf0 by (rewrite <- (Nat.add_0_r (reqs w)); apply Hf; lia).
  assert (fault E (S (reqs w)) = false) as Hf1 by (rewrite <- Nat.add_1_r; apply Hf; lia).
  assert (fault E (S (S (reqs w))) = false) as Hf2.
  { replace (S (S (reqs w))) with (reqs w + 2) by lia. apply Hf; lia. }
  assert (fault E (S (S (S (reqs w)))) = false) as Hf3.
  { replace (S (S (S (reqs w)))) with (reqs w + 3) by lia. apply Hf; lia. }
  unfold clearAll. rewrite table_clear_run by done.
  eexists _, _, _, _. split; [done|]. split; [done|].
  split; [by rewrite isSeeded_run by done|].
  split; [by rewrite createTodo_run by done|].
  rewrite isSeeded_run by done.
  rewrite bool_decide_eq_false_2; [done|]. simpl. apply insert_non_empty.
Qed.

Lemma clearAll_then_isSeeded_witness :
  exists w1 w2 w3 w4 : World,
    clearAll sample_env sample_world = Ok tt w1
    /\ todos w1 = ∅
    /\ isSeeded sample_env w1 = Ok false w2
    /\ createTodo sample_env "n" (mkCreate "Call the bank" None None None None) w2
       = Ok "n" w3
    /\ isSeeded sample_env w3 = Ok true w4.
Proof.
  apply (clearAll_then_isSeeded sample_env "n" (mkCreate "Call the bank" None None None None)
           sample_world).
  intros j _. reflexivity.
Defined.

(** *** The form *)

Lemma is_space_lower (c : ascii) : JS.is_space (JS.lower_ascii c) = JS.is_space c.
Proof. destruct c as [[] [] [] [] [] [] [] []]; reflexivity. Qed.

Lemma lower_ascii_idemp (c : ascii) : JS.lower_ascii (JS.lower_ascii c) = JS.lower_ascii c.
Proof. destruct c as [[] [] [] [] [] [] [] []]; reflexivity. Qed.

Lemma toLowerCase_idemp (s : string) : lower_case (JS.toLowerCase s).
Proof.
  unfold lower_case. induction s as [|c s IH]; simpl; [done|].
  by rewrite lower_ascii_idemp, IH.
Qed.

Lemma trimStart_toLowerCase (s : string) :
  JS.trimStart (JS.toLowerCase s) = JS.toLowerCase (JS.trimStart s).
Proof.
  induction s as [|c s IH]; simpl; [done|].
  rewrite is_space_lower. by destruct (JS.is_space c).
Qed.

Lemma trimEnd_toLowerCase (s : string) :
  JS.trimEnd (JS.toLowerCase s) = JS.toLowerCase (JS.trimEnd s).
Proof.
  induction s as [|c s IH]; simpl; [done|].
  rewrite IH. destruct (JS.trimEnd s); simpl; [|done].
  rewrite is_space_lower. by destruct (JS.is_space c).
Qed.

Lemma trim_toLowerCase (s : string) :
  JS.trim (JS.toLowerCase s) = JS.toLowerCase (JS.trim s).
Proof. unfold JS.trim. by rewrite trimStart_toLowerCase, trimEnd_toLowerCase. Qed.

Lemma handle_fields (s : TodoForm.State) (e : TodoForm.TagEvent) :
  TodoForm.title (TodoForm.formData (TodoForm.handle s e))
  = TodoForm.title (TodoForm.formData s)
  /\ TodoForm.notes (TodoForm.formData (TodoForm.handle s e))
     = TodoForm.notes (TodoForm.formData s)
  /\ TodoForm.dueDate (TodoForm.formData (TodoForm.handle s e))
     = TodoForm.dueDate (TodoForm.formData s)
  /\ TodoForm.priority (TodoForm.formData (TodoForm.handle s e))
     = TodoForm.priority (TodoForm.formData s).
Proof.
  destruct e; simpl; [done| |done].
  unfold TodoForm.handleAddTag. by destruct (_ && _).
Qed.

(** The text is a tag the form accepts: not empty, trimmed, lower case. *)
Lemma handle_tags (s : TodoForm.State) (e : TodoForm.TagEvent) (P : string -> Prop) :
  (forall value, JS.toLowerCase (JS.trim value) <> "" -> P (JS.toLowerCase (JS.trim value))) ->
  NoDup (TodoForm.tags (TodoForm.formData s)) ->
  Forall P (TodoForm.tags (TodoForm.formData s)) ->
  NoDup (TodoForm.tags (TodoForm.formData (TodoForm.handle s e)))
  /\ Forall P (TodoForm.tags (TodoForm.formData (TodoForm.handle s e))).
Proof.
  intros HP Hnd Hall. destruct e as [value| |tag]; simpl; [done| |].
  - unfold TodoForm.handleAddTag.
    destruct (JS.truthy _) eqn:Ht; simpl; [|done].
    case_bool_decide as Hin; simpl; [done|].
    split.
    + apply NoDup_app. split; [done|]. split; [|apply NoDup_singleton].
      intros x Hx ->%list_elem_of_singleton. done.
    + apply Forall_app. split; [done|]. apply Forall_singleton. apply HP.
      by apply truthy_true.
  - split; [by apply NoDup_filter|].
    apply Forall_forall. intros x [_ Hx]%list_elem_of_filter.
    by apply (proj1 (Forall_forall P _) Hall).
Qed.

(** X18. The tags of the form.  Whatever is typed, added and removed, the
    list of tags never gains a duplicate, and a tag that was added is not
    empty, has no blanks around it and is in lower case; the other fields
    of the form are left alone; and a tag that is removed is gone. *)
Theorem form_tags_stay_distinct (s : TodoForm.State) (events : list TodoForm.TagEvent) :
  NoDup (TodoForm.tags (TodoForm.formData s)) ->
  let s' := foldl TodoForm.handle s events in
  NoDup (TodoForm.tags (TodoForm.formData s'))
  /\ (forall tag, tag ∈ TodoForm.tags (TodoForm.formData s') ->
        tag ∈ TodoForm.tags (TodoForm.formData s)
        \/ (tag <> "" /\ JS.trim tag = tag /\ lower_case tag))
  /\ TodoForm.title (TodoForm.formData s') = TodoForm.title (TodoForm.formData s)
  /\ TodoForm.notes (TodoForm.formData s') = TodoForm.notes (TodoForm.formData s)
  /\ (forall tag, tag ∉ TodoForm.tags (TodoForm.formData (TodoForm.handleRemoveTag tag s'))).
Proof.
  intros Hnd s'.
  set (P := fun tag => tag ∈ TodoForm.tags (TodoForm.formData s)
                       \/ (tag <> "" /\ JS.trim tag = tag /\ lower_case tag)).
  assert (NoDup (TodoForm.tags (TodoForm.formData s'))
          /\ Forall P (TodoForm.tags (TodoForm.formData s'))
          /\ TodoForm.title (TodoForm.formData s') = TodoForm.title (TodoForm.formData s)
          /\ TodoForm.notes (TodoForm.formData s') = TodoForm.notes (TodoForm.formData s))
    as (Hnd' & Hall & Ht & Hn).
  { subst s'. induction events as [|e events IH] using rev_ind.
    - split; [done|]. split; [|done]. apply Forall_forall. intros x Hx. by left.
    - rewrite foldl_app. simpl. destruct IH as (IH1 & IH2 & IH3 & IH4).
      assert (forall value, JS.toLowerCase (JS.trim value) <> "" ->
                P (JS.toLowerCase (JS.trim value))) as HP.
      { intros value Hne. right. split; [done|].
        split; [|apply toLowerCase_idemp].
        by rewrite trim_toLowerCase, trim_idemp. }
      destruct (handle_tags (foldl TodoForm.handle s events) e P HP IH1 IH2) as [H1 H2].
      destruct (handle_fields (foldl TodoForm.handle s events) e) as (-> & -> & _).
      done. }
  split; [done|]. split; [by apply Forall_forall|]. split; [done|]. split; [done|].
  intros tag [Hne _]%list_elem_of_filter. done.
Qed.

Lemma form_tags_stay_distinct_witness :
  TodoForm.tags
    (TodoForm.formData
       (foldl TodoForm.handle sample_form
          [TodoForm.AddTag; TodoForm.TypeTag "URGENT"; TodoForm.AddTag;
           TodoForm.RemoveTag "money"]))
  = ["urgent"]
  /\ NoDup
       (TodoForm.tags
          (TodoForm.formData
             (foldl TodoForm.handle sample_form
                [TodoForm.AddTag; TodoForm.TypeTag "URGENT"; TodoForm.AddTag;
                 TodoForm.RemoveTag "money"]))).
Proof.
  split; [reflexivity|].
  apply (form_tags_stay_distinct sample_form
           [TodoForm.AddTag; TodoForm.TypeTag "URGENT"; TodoForm.AddTag;
            TodoForm.RemoveTag "money"]).
  apply NoDup_singleton.
Defined.

Lemma handleSubmit_data (invalid_date : string -> bool)
    (fromDateInputValue : string -> string) (isLoading : bool)
    (s s' : TodoForm.State) (d : SubmitData) :
  TodoForm.handleSubmit invalid_date fromDateInputValue isLoading s = (Some d, s') ->
  isLoading = false
  /\ TodoForm.errors s' = ∅
  /\ JS.trim (TodoForm.title (TodoForm.formData s)) <> ""
  /\ (TodoForm.dueDate (TodoForm.formData s) <> "" ->
      invalid_date (TodoForm.dueDate (TodoForm.formData s)) = false)
  /\ d = {| d_title := JS.trim (TodoForm.title (TodoForm.formData s));
            d_notes := or_undefined (JS.trim (TodoForm.notes (TodoForm.formData s)));
            d_dueDate :=
              if JS.truthy (TodoForm.dueDate (TodoForm.formData s))
              then Some (fromDateInputValue (TodoForm.dueDate (TodoForm.formData s)))
              else None;
            d_priority := TodoForm.priority (TodoForm.formData s);
            d_tags := TodoForm.tags (TodoForm.formData s) |}.
Proof.
  unfold TodoForm.handleSubmit, TodoForm.validateForm.
  destruct (JS.truthy (JS.trim (TodoForm.title (TodoForm.formData s)))) eqn:Ht; simpl.
  2: { destruct (JS.truthy (TodoForm.dueDate _)); [destruct (invalid_date _)|];
       vm_compute; discriminate. }
  apply truthy_true in Ht.
  destruct (JS.truthy (TodoForm.dueDate (TodoForm.formData s))) eqn:Hd.
  - destruct (invalid_date _) eqn:Hi; [vm_compute; discriminate|].
    destruct isLoading; simpl; [discriminate|]. intros [= <- <-]. done.
  - destruct isLoading; simpl; [discriminate|]. intros [= <- <-].
    split; [done|]. split; [done|]. split; [done|]. split; [|done].
    intros Hne. apply truthy_true in Hne. congruence.
Qed.

(** X19. What the form submits keeps the invariant of the store.  The
    form calls [onSubmit] only when it is not loading and the title is
    not blank, and it hands on the trimmed title, and the notes only when
    they are not blank; given to [createTodo], and, when the clock has not
    gone back behind the creation of the entity, to [updateTodo], these
    leave a store that satisfies the invariant one that satisfies it. *)
Theorem form_submission_keeps_invariant (invalid_date : string -> bool)
    (fromDateInputValue : string -> string) (isLoading : bool)
    (s s' : TodoForm.State) (d : SubmitData) (E : Env) (uuid key : string) (w : World) :
  TodoForm.handleSubmit invalid_date fromDateInputValue isLoading s = (Some d, s') ->
  store_ok (todos w) ->
  isLoading = false
  /\ TodoForm.errors s' = ∅
  /\ d_title d = JS.trim (TodoForm.title (TodoForm.formData s))
  /\ title_accepted (d_title d) = true
  /\ d_notes d <> Some ""
  /\ store_ok (todos (state_of (createTodo E uuid (as_CreateTodoDto d) w)))
  /\ ((forall t, todos w !! key = Some t -> String.le (createdAt t) (clock E (ticks w))) ->
      store_ok (todos (state_of (updateTodo E key (as_UpdateTodoDto d) w)))).
Proof.
  intros Hsub Hw.
  destruct (handleSubmit_data _ _ _ _ _ _ Hsub) as (Hl & He & Ht & _ & ->).
  assert (title_accepted (JS.trim (TodoForm.title (TodoForm.formData s))) = true) as Hacc.
  { unfold title_accepted. rewrite trim_idemp. by apply truthy_true. }
  split; [done|]. split; [done|]. split; [done|]. split; [exact Hacc|]. split.
  { cbn [d_notes]. unfold or_undefined.
    destruct (JS.truthy (JS.trim (TodoForm.notes (TodoForm.formData s)))) eqn:Hn;
      [|discriminate].
    apply truthy_true in Hn. congruence. }
  split.
  - by apply createTodo_preserves.
  - intros Hle. apply updateTodo_preserves; [done| |done].
    simpl. by intros ? [= <-].
Qed.

Lemma form_submission_keeps_invariant_witness :
  exists (d : SubmitData) (s' : TodoForm.State),
    TodoForm.handleSubmit sample_invalid_date sample_fromDateInputValue false sample_form
    = (Some d, s')
    /\ d_title d = "Call the bank"
    /\ d_notes d = None
    /\ store_ok (todos (state_of (createTodo sample_env "n" (as_CreateTodoDto d)
                                    sample_world))).
Proof.
  eexists _, _. split; [reflexivity|]. split; [reflexivity|]. split; [reflexivity|].
  eapply (form_submission_keeps_invariant sample_invalid_date sample_fromDateInputValue
            false sample_form _ _ sample_env "n" "a" sample_world).
  - reflexivity.
  - exact sample_world_ok.
Defined.

(** X20. Editing through the form cannot clear the notes or the due
    date.  The form hands on blank notes and an empty date as
    [undefined], and [updateTodo] leaves alone what is [undefined]: after
    the update the entity has the trimmed title, the priority and the tags
    of the form, and the notes and the due date it had before wherever the
    field of the form was left blank. *)
Theorem form_edit_cannot_clear (invalid_date : string -> bool)
    (fromDateInputValue : string -> string) (isLoading : bool)
    (s s' : TodoForm.State) (d : SubmitData) (E : Env) (key : string) (w w' : World) :
  TodoForm.handleSubmit invalid_date fromDateInputValue isLoading s = (Some d, s') ->
  updateTodo E key (as_UpdateTodoDto d) w = Ok tt w' ->
  exists old new : Todo,
    todos w !! key = Some old
    /\ todos w' !! key = Some new
    /\ title new = JS.trim (TodoForm.title (TodoForm.formData s))
    /\ priority new = TodoForm.priority (TodoForm.formData s)
    /\ tags new = TodoForm.tags (TodoForm.formData s)
    /\ completed new = completed old
    /\ (JS.trim (TodoForm.notes (TodoForm.formData s)) = "" -> notes new = notes old)
    /\ (JS.trim (TodoForm.notes (TodoForm.formData s)) <> "" ->
        notes new = Some (JS.trim (TodoForm.notes (TodoForm.formData s))))
    /\ (TodoForm.dueDate (TodoForm.formData s) = "" -> dueDate new = dueDate old).
Proof.
  intros Hsub Hup.
  destruct (handleSubmit_data _ _ _ _ _ _ Hsub) as (_ & _ & _ & _ & ->).
  pose proof (updateTodo_effect E key
                (as_UpdateTodoDto
                   {| d_title := JS.trim (TodoForm.title (TodoForm.formData s));
                      d_notes := or_undefined (JS.trim (TodoForm.notes (TodoForm.formData s)));
                      d_dueDate :=
                        if JS.truthy (TodoForm.dueDate (TodoForm.formData s))
                        then Some (fromDateInputValue (TodoForm.dueDate (TodoForm.formData s)))
                        else None;
                      d_priority := TodoForm.priority (TodoForm.formData s);
                      d_tags := TodoForm.tags (TodoForm.formData s) |}) w) as Heff.
  rewrite Hup in Heff. destruct Heff as (old & Hold & Hnew).
  eexists old, _. split; [done|]. split; [rewrite Hnew; apply lookup_insert_eq|].
  cbn [as_UpdateTodoDto update_mods apply_mods title priority tags completed notes
       dueDate u_title u_notes u_dueDate u_priority u_tags u_completed
       m_title m_notes m_dueDate m_priority m_tags m_completed
       d_title d_notes d_dueDate d_priority d_tags fmap option_fmap option_map default].
  split; [apply trim_idemp|]. split; [done|]. split; [done|]. split; [done|].
  unfold or_undefined.
  destruct (JS.truthy (JS.trim (TodoForm.notes (TodoForm.formData s)))) eqn:Hn.
  - apply truthy_true in Hn. split; [done|]. split.
    + intros _. simpl. by rewrite trim_idemp.
    + intros ->. done.
  - assert (JS.trim (TodoForm.notes (TodoForm.formData s)) = "") as Hblank.
    { unfold JS.truthy in Hn. apply negb_false_iff in Hn. by apply String.eqb_eq. }
    split; [done|]. split; [done|]. intros ->. done.
Qed.

Lemma form_edit_cannot_clear_witness :
  exists (w' : World) (old new : Todo),
    todos sample_world !! "a" = Some old
    /\ todos w' !! "a" = Some new
    /\ title new = "Call the bank"
    /\ priority new = high
    /\ notes new = notes old.
Proof.
  destruct (form_edit_cannot_clear sample_invalid_date sample_fromDateInputValue false
              sample_form sample_form
              (mkSubmitData "Call the bank" None (Some "2024-05-02T00:00:00.000Z") high
                 ["money"])
              sample_env "a" sample_world
              (state_of
                 (updateTodo sample_env "a"
                    (as_UpdateTodoDto
                       (mkSubmitData "Call the bank" None (Some "2024-05-02T00:00:00.000Z")
                          high ["money"]))
                    sample_world)))
    as (old & new & Hold & Hnew & Ht & Hp & _ & _ & Hn & _);
    [reflexivity|reflexivity|].
  eexists _, old, new. split; [exact Hold|]. split; [exact Hnew|].
  split; [exact Ht|]. split; [exact Hp|]. apply Hn. reflexivity.
Defined.

(** X21. The quick-add field hands a title to [onAdd] only when it is not
    blank and no submission is under way, and hands it on trimmed; created
    under a free id, the entity has that title, no notes, no due date,
    priority normal, no tags, is not completed, and satisfies the
    invariant of the store. *)
Theorem quick_add_creates_plain_todo (isLoading : bool) (s : QuickAddTodo.State)
    (dto : CreateTodoDto) (E : Env) (uuid : string) (w : World) :
  QuickAddTodo.handleSubmit isLoading s = Some dto ->
  fault E (reqs w) = false ->
  todos w !! uuid = None ->
  isLoading = false
  /\ QuickAddTodo.isSubmitting s = false
  /\ exists (w' : World) (new : Todo),
       createTodo E uuid dto w = Ok uuid w'
       /\ todos w' = <[uuid := new]> (todos w)
       /\ title new = JS.trim (QuickAddTodo.title s)
       /\ title new <> ""
       /\ notes new = None /\ dueDate new = None /\ priority new = normal
       /\ tags new = [] /\ completed new = false
       /\ entity_ok new.
Proof.
  unfold QuickAddTodo.handleSubmit. intros Hsub Hf Hfree.
  destruct (JS.truthy (JS.trim (QuickAddTodo.title s))) eqn:Ht; [|done].
  destruct (QuickAddTodo.isSubmitting s); [done|].
  destruct isLoading; [done|]. simpl in Hsub. injection Hsub as <-.
  apply truthy_true in Ht.
  split; [done|]. split; [done|].
  rewrite createTodo_run by done. eexists _, _. split; [done|]. split; [done|].
  simpl. rewrite trim_idemp. split; [done|]. split; [done|].
  do 5 (split; [done|]).
  apply entity_ok_stamp. simpl. by rewrite !trim_idemp.
Qed.

Lemma quick_add_creates_plain_todo_witness :
  exists (w' : World) (new : Todo),
    createTodo sample_env "n" (mkCreate "Water the plants" None None None None) sample_world
    = Ok "n" w'
    /\ todos w' !! "n" = Some new
    /\ title new = "Water the plants".
Proof.
  destruct (quick_add_creates_plain_todo false sample_quick
              (mkCreate "Water the plants" None None None None) sample_env "n" sample_world)
    as (_ & _ & w' & new & Hrun & Hw & Ht & _);
    [reflexivity|reflexivity|reflexivity|].
  exists w', new. split; [exact Hrun|]. split; [rewrite Hw; apply lookup_insert_eq|].
  exact Ht.
Defined.

(** *** The hook *)

Section HookFacts.
Context (E : Env) (t : string -> string) (platform_message : Exn -> string)
  (f : TodoFilter).

Lemma listTodos_run (w : World) :
  fault E (reqs w) = false ->
  listTodos E f w
  = Ok (filter (fun x => build_collection f x = true)
          (reverse (merge_sort createdAt_index_le (records (todos w))))) (sent w).
Proof.
  intros Hf. unfold listTodos, try_catch.
  by rewrite orderBy_createdAt_reverse_run.
Qed.

Lemma listTodos_fault (w : World) :
  fault E (reqs w) = true ->
  listTodos E f w = Throw (DatabaseError "Failed to list todos" StorageError) (sent w).
Proof.
  intros Hf. unfold listTodos, try_catch, wrap. by run_table Hf.
Qed.

Lemma getStats_run (w : World) :
  fault E (reqs w) = false ->
  exists st : Stats,
    getStats E w = Ok st (ticked (sent w)) /\ s_total st = size (todos w).
Proof.
  intros Hf. eexists. split.
  { unfold getStats, table_toArray, try_catch, bind, request, snapshot, now, ret.
    cbv beta. rewrite Hf. reflexivity. }
  simpl. apply length_records.
Qed.

Lemma getStats_fault (w : World) :
  fault E (reqs w) = true ->
  getStats E w
  = Throw (DatabaseError "Failed to get todo statistics" StorageError) (sent w).
Proof.
  intros Hf. unfold getStats, try_catch, wrap, bind at 1. by run_table Hf.
Qed.

Lemma loadTodos_run (a : UseTodos.App) :
  exists a' : UseTodos.App,
    UseTodos.loadTodos E platform_message f a = Ok tt a'
    /\ todos (UseTodos.db a') = todos (UseTodos.db a)
    /\ UseTodos.h_loading (UseTodos.ui a') = false
    /\ UseTodos.h_toasts (UseTodos.ui a') = UseTodos.h_toasts (UseTodos.ui a)
    /\ if fault E (reqs (UseTodos.db a)) then
         UseTodos.h_todos (UseTodos.ui a') = UseTodos.h_todos (UseTodos.ui a)
         /\ UseTodos.h_stats (UseTodos.ui a') = UseTodos.h_stats (UseTodos.ui a)
         /\ UseTodos.h_error (UseTodos.ui a') = Some "Failed to list todos"
       else
         UseTodos.h_todos (UseTodos.ui a')
         = filter (fun x => build_collection f x = true)
             (reverse (merge_sort createdAt_index_le (records (todos (UseTodos.db a)))))
         /\ if fault E (S (reqs (UseTodos.db a))) then
              UseTodos.h_stats (UseTodos.ui a') = UseTodos.h_stats (UseTodos.ui a)
              /\ UseTodos.h_error (UseTodos.ui a') = Some "Failed to get todo statistics"
            else
              s_total (UseTodos.h_stats (UseTodos.ui a')) = size (todos (UseTodos.db a))
              /\ UseTodos.h_error (UseTodos.ui a') = None.
Proof.
  destruct a as [w u].
  unfold UseTodos.loadTodos, try_finally, try_catch.
  unfold bind at 1, UseTodos.setError at 1, UseTodos.set_ui at 1.
  unfold bind at 1, UseTodos.on_db at 1. cbn [UseTodos.db UseTodos.ui].
  destruct (fault E (reqs w)) eqn:Hf1.
  { rewrite listTodos_fault by done. eexists. split; [reflexivity|]. done. }
  rewrite listTodos_run by done.
  unfold bind at 1, UseTodos.setTodos at 1, UseTodos.set_ui at 1.
  unfold bind at 1, UseTodos.on_db at 1. cbn [UseTodos.db UseTodos.ui].
  change (reqs (sent w)) with (S (reqs w)).
  destruct (fault E (S (reqs w))) eqn:Hf2.
  { rewrite getStats_fault by done. eexists. split; [reflexivity|]. done. }
  destruct (getStats_run (sent w) Hf2) as (st & -> & Hst).
  eexists. split; [reflexivity|]. done.
Qed.

Lemma loadTodos_sync (a : UseTodos.App) :
  exists a' : UseTodos.App,
    UseTodos.loadTodos E platform_message f a = Ok tt a'
    /\ todos (UseTodos.db a') = todos (UseTodos.db a)
    /\ UseTodos.h_loading (UseTodos.ui a') = false
    /\ (fault E (reqs (UseTodos.db a)) = false ->
        fault E (S (reqs (UseTodos.db a))) = false -> in_sync f a').
Proof.
  destruct (loadTodos_run a) as (a' & Hrun & Hdb & Hl & _ & Hcase).
  exists a'. split; [done|]. split; [done|]. split; [done|].
  intros Hf1 Hf2. rewrite Hf1, Hf2 in Hcase. destruct Hcase as (Ht & Hs & He).
  unfold in_sync. by rewrite Hdb.
Qed.

Lemma mirrors_hook {A B} (repo : Db A) (after : A -> Async UseTodos.App B)
    (h : Exn -> Async UseTodos.App B) (good : A -> B) (bad : B) :
  (forall x a, exists a',
      after x a = Ok (good x) a'
      /\ UseTodos.db a' = UseTodos.db a
      /\ UseTodos.h_todos (UseTodos.ui a') = UseTodos.h_todos (UseTodos.ui a)
      /\ UseTodos.h_stats (UseTodos.ui a') = UseTodos.h_stats (UseTodos.ui a)
      /\ UseTodos.h_error (UseTodos.ui a') = UseTodos.h_error (UseTodos.ui a)
      /\ UseTodos.h_loading (UseTodos.ui a') = UseTodos.h_loading (UseTodos.ui a)) ->
  (forall e a, exists a' title_ description,
      h e a = Ok bad a'
      /\ UseTodos.db a' = UseTodos.db a
      /\ UseTodos.h_todos (UseTodos.ui a') = UseTodos.h_todos (UseTodos.ui a)
      /\ UseTodos.h_stats (UseTodos.ui a') = UseTodos.h_stats (UseTodos.ui a)
      /\ UseTodos.h_error (UseTodos.ui a') = UseTodos.h_error (UseTodos.ui a)
      /\ UseTodos.h_loading (UseTodos.ui a') = UseTodos.h_loading (UseTodos.ui a)
      /\ UseTodos.h_toasts (UseTodos.ui a')
         = (UseTodos.h_toasts (UseTodos.ui a)
            ++ [UseTodos.toast_error title_ description])%list) ->
  mirrors E f repo
    (try_catch
       (x <- UseTodos.on_db repo ;;
        UseTodos.loadTodos E platform_message f ;;;
        after x)
       h)
    good bad.
Proof.
  intros Hafter Hh a. unfold try_catch, bind at 1, UseTodos.on_db.
  destruct (repo (UseTodos.db a)) as [x w'|e w'].
  - destruct (loadTodos_sync (UseTodos.mkApp w' (UseTodos.ui a)))
      as (a1 & Hload & Hdb & Hl & Hsync).
    unfold bind. rewrite Hload.
    destruct (Hafter x a1) as (a2 & -> & Hdb2 & Ht2 & Hs2 & He2 & Hl2).
    exists (good x), a2. split; [done|]. split; [done|].
    split; [by rewrite Hdb2, Hdb|]. split; [by rewrite Hl2|].
    intros Hf1 Hf2. destruct (Hsync Hf1 Hf2) as (S1 & S2 & S3 & S4).
    unfold in_sync. by rewrite Hdb2, Ht2, Hs2, He2, Hl2.
  - destruct (Hh e (UseTodos.mkApp w' (UseTodos.ui a)))
      as (a' & title_ & description & -> & Hdb & Ht & Hs & He & Hl & Htoast).
    exists bad, a'. split; [done|]. split; [done|]. split; [done|].
    do 4 (split; [done|]). eauto.
Qed.

End HookFacts.

(** X22. [loadTodos] never fails and never writes to the store; it always
    ends with [loading] off and raises no toast.  When the list cannot be
    read, the list and the counts shown stay as they were and the error is
    shown; when the list is read but the counts cannot, the new list is
    shown beside the old counts and the error; when both are read, the hook
    shows the list and the size of the store, and no error. *)
Theorem loadTodos_never_fails (E : Env) (platform_message : Exn -> string)
    (f : TodoFilter) (a : UseTodos.App) :
  exists a' : UseTodos.App,
    UseTodos.loadTodos E platform_message f a = Ok tt a'
    /\ todos (UseTodos.db a') = todos (UseTodos.db a)
    /\ UseTodos.h_loading (UseTodos.ui a') = false
    /\ UseTodos.h_toasts (UseTodos.ui a') = UseTodos.h_toasts (UseTodos.ui a)
    /\ match fault E (reqs (UseTodos.db a)), fault E (S (reqs (UseTodos.db a))) with
       | true, _ =>
           UseTodos.h_todos (UseTodos.ui a') = UseTodos.h_todos (UseTodos.ui a)
           /\ UseTodos.h_stats (UseTodos.ui a') = UseTodos.h_stats (UseTodos.ui a)
           /\ UseTodos.h_error (UseTodos.ui a') = Some "Failed to list todos"
       | false, true =>
           UseTodos.h_todos (UseTodos.ui a')
           = filter (fun x => build_collection f x = true)
               (reverse (merge_sort createdAt_index_le
                           (records (todos (UseTodos.db a)))))
           /\ UseTodos.h_stats (UseTodos.ui a') = UseTodos.h_stats (UseTodos.ui a)
           /\ UseTodos.h_error (UseTodos.ui a') = Some "Failed to get todo statistics"
       | false, false => in_sync f a'
       end.
Proof.
  destruct (loadTodos_run E platform_message f a) as (a' & Hrun & Hdb & Hl & Htoast & Hcase).
  exists a'. split; [done|]. split; [done|]. split; [done|]. split; [done|].
  destruct (fault E (reqs (UseTodos.db a))); [done|].
  destruct (fault E (S (reqs (UseTodos.db a)))).
  - by destruct Hcase as (? & ? & ?).
  - destruct Hcase as (? & ? & ?). unfold in_sync. by rewrite Hdb.
Qed.

Example loadTodos_sample_app :
  exists a' : UseTodos.App,
    UseTodos.loadTodos sample_env sample_platform_message no_filter sample_app = Ok tt a'
    /\ (id <$> UseTodos.h_todos (UseTodos.ui a')) = ["c"; "a"]
    /\ UseTodos.h_stats (UseTodos.ui a') = mkStats 2 1 1 0.
Proof.
  exists (state_of
            (UseTodos.loadTodos sample_env sample_platform_message no_filter sample_app)).
  split; [vm_compute; reflexivity|]. split; vm_compute; reflexivity.
Qed.

(** X23. The functions of the hook answer as the repository does and never
    throw: [createTodo] gives the id, the others [true], when the
    repository returns, and [null] or [false] when it throws.  They write
    nothing of their own to the store.  After a failure what the hook shows
    is as before, with one more error toast; after a success [loading] is
    off, and the hook shows the store as it is if the two reads that follow
    are not rejected. *)
Theorem hook_mirrors_repository (E : Env) (t : string -> string)
    (platform_message : Exn -> string) (f : TodoFilter) :
  (forall uuid data,
     mirrors E f (createTodo E uuid data)
       (UseTodos.createTodo E t platform_message f uuid data) Some None)
  /\ (forall key data,
        mirrors E f (updateTodo E key data)
          (UseTodos.updateTodo E t platform_message f key data) (fun _ => true) false)
  /\ (forall key,
        mirrors E f (deleteTodo E key)
          (UseTodos.deleteTodo E t platform_message f key) (fun _ => true) false)
  /\ (forall key,
        mirrors E f (toggleTodo E key)
          (UseTodos.toggleTodo E t platform_message f key) (fun _ => true) false)
  /\ (forall ids,
        mirrors E f (bulkComplete E ids)
          (UseTodos.bulkComplete E t platform_message f ids) (fun _ => true) false)
  /\ (forall ids,
        mirrors E f (bulkDelete E ids)
          (UseTodos.bulkDelete E t platform_message f ids) (fun _ => true) false).
Proof.
  assert (forall (B : Type) (title_ : string) (description : option string) (b : B) e a,
            exists a' title' description',
              (UseTodos.toast (UseTodos.toast_error title_ description) ;;;
               UseTodos.console_error e ;;;
               ret b) a = Ok b a'
              /\ UseTodos.db a' = UseTodos.db a
              /\ UseTodos.h_todos (UseTodos.ui a') = UseTodos.h_todos (UseTodos.ui a)
              /\ UseTodos.h_stats (UseTodos.ui a') = UseTodos.h_stats (UseTodos.ui a)
              /\ UseTodos.h_error (UseTodos.ui a') = UseTodos.h_error (UseTodos.ui a)
              /\ UseTodos.h_loading (UseTodos.ui a') = UseTodos.h_loading (UseTodos.ui a)
              /\ UseTodos.h_toasts (UseTodos.ui a')
                 = (UseTodos.h_toasts (UseTodos.ui a)
                    ++ [UseTodos.toast_error title' description'])%list) as Herr.
  { intros. eexists _, _, _. split; [reflexivity|]. done. }
  assert (forall (B : Type) (title_ : string) (b : B) a,
            exists a',
              (UseTodos.toast (UseTodos.toast_success title_) ;;; ret b) a = Ok b a'
              /\ UseTodos.db a' = UseTodos.db a
              /\ UseTodos.h_todos (UseTodos.ui a') = UseTodos.h_todos (UseTodos.ui a)
              /\ UseTodos.h_stats (UseTodos.ui a') = UseTodos.h_stats (UseTodos.ui a)
              /\ UseTodos.h_error (UseTodos.ui a') = UseTodos.h_error (UseTodos.ui a)
              /\ UseTodos.h_loading (UseTodos.ui a') = UseTodos.h_loading (UseTodos.ui a))
    as Hgood.
  { intros. eexists. split; [reflexivity|]. done. }
  assert (forall (title_ : string) (description : option string) e err a,
            exists a' title' description',
              ((if is_TodoNotFoundError err
                then UseTodos.toast (UseTodos.toast_error "Todo not found" None)
                else UseTodos.toast (UseTodos.toast_error title_ description)) ;;;
               UseTodos.console_error e ;;;
               ret false) a = Ok false a'
              /\ UseTodos.db a' = UseTodos.db a
              /\ UseTodos.h_todos (UseTodos.ui a') = UseTodos.h_todos (UseTodos.ui a)
              /\ UseTodos.h_stats (UseTodos.ui a') = UseTodos.h_stats (UseTodos.ui a)
              /\ UseTodos.h_error (UseTodos.ui a') = UseTodos.h_error (UseTodos.ui a)
              /\ UseTodos.h_loading (UseTodos.ui a') = UseTodos.h_loading (UseTodos.ui a)
              /\ UseTodos.h_toasts (UseTodos.ui a')
                 = (UseTodos.h_toasts (UseTodos.ui a)
                    ++ [UseTodos.toast_error title' description'])%list) as Herr'.
  { intros. destruct (is_TodoNotFoundError err); apply Herr. }
  repeat split; intros.
  - apply (mirrors_hook E platform_message f (createTodo E uuid data)
             (fun id => UseTodos.toast (UseTodos.toast_success (t "messages.todoAdded")) ;;;
                        ret (Some id))).
    + intros x a. apply Hgood.
    + intros e a. apply Herr.
  - apply (mirrors_hook E platform_message f (updateTodo E key data)
             (fun _ => UseTodos.toast (UseTodos.toast_success (t "messages.todoUpdated")) ;;;
                       ret true)).
    + intros x a. apply Hgood.
    + intros e a. apply Herr'.
  - apply (mirrors_hook E platform_message f (deleteTodo E key)
             (fun _ => UseTodos.toast (UseTodos.toast_success (t "messages.todoDeleted")) ;;;
                       ret true)).
    + intros x a. apply Hgood.
    + intros e a. apply Herr'.
  - apply (mirrors_hook E platform_message f (toggleTodo E key) (fun _ => ret true)).
    + intros x a. exists a. done.
    + intros e a. apply Herr'.
  - apply (mirrors_hook E platform_message f (bulkComplete E ids)
             (fun _ => UseTodos.toast (UseTodos.toast_success (t "messages.todosCompleted")) ;;;
                       ret true)).
    + intros x a. apply Hgood.
    + intros e a. apply Herr.
  - apply (mirrors_hook E platform_message f (bulkDelete E ids)
             (fun _ => UseTodos.toast (UseTodos.toast_success (t "messages.todosDeleted")) ;;;
                       ret true)).
    + intros x a. apply Hgood.
    + intros e a. apply Herr.
Qed.

Example hook_createTodo_sample_app :
  exists a' : UseTodos.App,
    UseTodos.createTodo sample_env sample_t sample_platform_message no_filter "n"
      (mkCreate "Water the plants" None None None None) sample_app
    = Ok (Some "n") a'
    /\ (id <$> UseTodos.h_todos (UseTodos.ui a')) = ["n"; "c"; "a"]
    /\ s_total (UseTodos.h_stats (UseTodos.ui a')) = 3
    /\ UseTodos.h_toasts (UseTodos.ui a') = [UseTodos.toast_success "messages.todoAdded"].
Proof.
  exists (state_of
            (UseTodos.createTodo sample_env sample_t sample_platform_message no_filter "n"
               (mkCreate "Water the plants" None None None None) sample_app)).
  split; [vm_compute; reflexivity|]. split; [vm_compute; reflexivity|].
  split; vm_compute; reflexivity.
Qed.

(** X24. An id that is not stored.  The hook's [deleteTodo] answers
    [true] and raises the toast of a deletion: the repository's
    [deleteTodo] does not fail on a missing id, so the hook's
    [Todo not found] toast is never raised by it.  The hook's [updateTodo]
    and [toggleTodo] answer [false] and raise that toast.  None of them
    changes the store. *)
Theorem hook_missing_id (E : Env) (t : string -> string)
    (platform_message : Exn -> string) (f : TodoFilter) (key : string)
    (a : UseTodos.App) :
  todos (UseTodos.db a) !! key = None ->
  fault E (reqs (UseTodos.db a)) = false ->
  (exists a',
     UseTodos.deleteTodo E t platform_message f key a = Ok true a'
     /\ todos (UseTodos.db a') = todos (UseTodos.db a)
     /\ UseTodos.h_toasts (UseTodos.ui a')
        = (UseTodos.h_toasts (UseTodos.ui a)
           ++ [UseTodos.toast_success (t "messages.todoDeleted")])%list)
  /\ (forall data, exists a',
        UseTodos.updateTodo E t platform_message f key data a = Ok false a'
        /\ todos (UseTodos.db a') = todos (UseTodos.db a)
        /\ UseTodos.h_toasts (UseTodos.ui a')
           = (UseTodos.h_toasts (UseTodos.ui a)
              ++ [UseTodos.toast_error "Todo not found" None])%list)
  /\ (exists a',
        UseTodos.toggleTodo E t platform_message f key a = Ok false a'
        /\ todos (UseTodos.db a') = todos (UseTodos.db a)
        /\ UseTodos.h_toasts (UseTodos.ui a')
           = (UseTodos.h_toasts (UseTodos.ui a)
              ++ [UseTodos.toast_error "Todo not found" None])%list).
Proof.
  intros Hk Hf. destruct a as [w u]. cbn [UseTodos.db UseTodos.ui] in *.
  split; [|split].
  - unfold UseTodos.deleteTodo, try_catch, bind at 1, UseTodos.on_db.
    cbn [UseTodos.db UseTodos.ui].
    assert (deleteTodo E key w = Ok tt (mkWorld (todos w) (ticks w) (S (reqs w)))) as ->.
    { unfold deleteTodo, try_catch, bind. rewrite table_delete_run by done.
      simpl. by rewrite delete_id. }
    destruct (loadTodos_run E platform_message f
                (UseTodos.mkApp (mkWorld (todos w) (ticks w) (S (reqs w))) u))
      as (a1 & Hload & Hdb & _ & Htoast & _).
    unfold bind at 1. rewrite Hload.
    eexists. split; [reflexivity|]. cbn. split; [done|]. by rewrite Htoast.
  - intros data.
    unfold UseTodos.updateTodo, try_catch, bind at 1, UseTodos.on_db.
    cbn [UseTodos.db UseTodos.ui]. rewrite updateTodo_missing by done.
    eexists. split; [reflexivity|]. done.
  - unfold UseTodos.toggleTodo, try_catch, bind at 1, UseTodos.on_db.
    cbn [UseTodos.db UseTodos.ui]. rewrite toggleTodo_missing by done.
    eexists. split; [reflexivity|]. done.
Qed.

Lemma hook_missing_id_witness :
  exists a',
    UseTodos.deleteTodo sample_env sample_t sample_platform_message no_filter "zz"
      sample_app = Ok true a'
    /\ todos (UseTodos.db a') = todos sample_world
    /\ UseTodos.h_toasts (UseTodos.ui a') = [UseTodos.toast_success "messages.todoDeleted"].
Proof.
  exact (proj1 (hook_missing_id sample_env sample_t sample_platform_message no_filter "zz"
                  sample_app eq_refl eq_refl)).
Defined.

(** *** Seeding *)

Lemma seed_loop (E : Env) (uuid : nat -> string) (items : list (nat * SampleTodo))
    (w : World) :
  match for_of items (seed_step E uuid) w with
  | Ok _ w' =>
      todos w ⊆ todos w'
      /\ size (todos w') = size (todos w) + length items
      /\ (forall k t, todos w' !! k = Some t ->
            todos w !! k = Some t
            \/ exists i todo, (i, todo) ∈ items /\ k = uuid i
                              /\ t = seeded todo (uuid i) (createdAt t) (createdAt t))
  | Throw _ _ => True
  end.
Proof.
  revert w. induction items as [|[i todo] items IH]; intros w.
  { simpl. split; [done|]. split; [lia|]. eauto. }
  change (for_of ((i, todo) :: items) (seed_step E uuid) w)
    with (bind (seed_step E uuid (i, todo)) (fun _ => for_of items (seed_step E uuid)) w).
  unfold bind at 1. unfold seed_step at 1. unfold bind at 1 2, now. unfold bind at 1.
  cbn [fst snd].
  set (w2 := ticked (ticked w)).
  set (obj := seeded todo (uuid i) (clock E (ticks w)) (clock E (ticks (ticked w)))).
  destruct (fault E (reqs w2)) eqn:Hf.
  { unfold table_add, bind, request. rewrite Hf. exact I. }
  destruct (todos w2 !! id obj) as [old|] eqn:Hk.
  { rewrite table_add_taken by (by rewrite ?Hk). exact I. }
  rewrite table_add_run by done. unfold ret.
  match goal with |- context [for_of items _ ?w3] => specialize (IH w3); set (w3' := w3) in * end.
  destruct (for_of items (seed_step E uuid) w3') as [[] w'|e w']; [|exact I].
  destruct IH as (Hsub & Hsize & Hnew). subst w3'. cbn [todos] in *.
  change (todos w2) with (todos w) in *. change (id obj) with (uuid i) in *.
  split; [|split].
  - etrans; [|exact Hsub]. by apply insert_subseteq.
  - rewrite Hsize, map_size_insert_None by done. simpl. lia.
  - intros k t Ht. destruct (Hnew k t Ht) as [Hin|(j & todo' & Hin & -> & Heq)].
    + destruct (decide (k = uuid i)) as [->|Hne].
      * rewrite lookup_insert_eq in Hin. injection Hin as <-.
        right. exists i, todo. split; [by left|]. split; [done|]. done.
      * rewrite lookup_insert_ne in Hin by done. by left.
    + right. exists j, todo'. split; [by right|]. done.
Qed.

(** X25. Seeding is all or nothing.  When [seedDatabase] returns, the
    table holds what it held and five entities more, each under one of the
    five ids drawn, with [createdAt] and [updatedAt] equal: the creating
    hook stamps them, whatever timestamps [seedDatabase] wrote.  When it
    throws, the table is as before.  The initialisation seeds an empty
    table only: after it the table is as before, or it was empty and holds
    the five samples. *)
Theorem seeding_all_or_nothing (E : Env) (later : N -> string -> string)
    (uuid : nat -> string) (w : World) :
  match seedDatabase E later uuid w with
  | Ok _ w' =>
      todos w ⊆ todos w'
      /\ size (todos w') = size (todos w) + 5
      /\ (forall k t, todos w' !! k = Some t ->
            todos w !! k = Some t
            \/ (createdAt t = updatedAt t /\ id t = k /\ exists i, i < 5 /\ k = uuid i))
  | Throw _ w' => todos w' = todos w
  end
  /\ match initialize E later uuid w with
     | Ok _ w' => todos w' = todos w \/ (todos w = ∅ /\ size (todos w') = 5)
     | Throw _ w' => todos w' = todos w
     end.
Proof.
  assert (forall w0,
            match seedDatabase E later uuid w0 with
            | Ok _ w' =>
                todos w0 ⊆ todos w'
                /\ size (todos w') = size (todos w0) + 5
                /\ (forall k t, todos w' !! k = Some t ->
                      todos w0 !! k = Some t
                      \/ (createdAt t = updatedAt t /\ id t = k
                          /\ exists i, i < 5 /\ k = uuid i))
            | Throw _ w' => todos w' = todos w0
            end) as Hseed.
  { intros w0. unfold seedDatabase, bind, now, transaction.
    set (items := imap _ _).
    pose proof (seed_loop E uuid items (ticked (ticked (ticked w0)))) as Hloop.
    destruct (for_of items (seed_step E uuid) (ticked (ticked (ticked w0))))
      as [[] w'|e w']; [|done].
    destruct Hloop as (Hsub & Hsize & Hnew).
    split; [exact Hsub|]. split; [exact Hsize|].
    intros k t Ht. destruct (Hnew k t Ht) as [Hin|(i & todo & Hin & -> & Heq)]; [by left|].
    right. split; [by rewrite Heq|]. split; [by rewrite Heq|].
    exists i. split; [|done]. subst items.
    apply elem_of_lookup_imap in Hin as (j & y & [= -> ->] & Hj).
    apply lookup_lt_Some in Hj. exact Hj. }
  split; [apply Hseed|].
  unfold initialize, bind at 1.
  destruct (fault E (reqs w)) eqn:Hf.
  { unfold isSeeded, table_count, bind, request. by rewrite Hf. }
  rewrite isSeeded_run by done.
  destruct (decide (todos w = ∅)) as [Hm|Hm].
  - rewrite bool_decide_eq_true_2 by done. cbn [negb].
    specialize (Hseed (sent w)).
    destruct (seedDatabase E later uuid (sent w)) as [[] w'|e w']; [|done].
    destruct Hseed as (_ & Hsize & _). right. split; [done|].
    rewrite Hsize. cbn [sent todos]. by rewrite Hm, map_size_empty.
  - rewrite bool_decide_eq_false_2 by done. by left.
Qed.

Example seedDatabase_empty_table :
  exists w' : World,
    seedDatabase sample_env (fun _ n => n) (fun i => String (ascii_of_nat (97 + i)) "")
      (mkWorld ∅ 0 0) = Ok tt w'
    /\ (title <$> records (todos w'))
       = ["Complete the Todo PWA project"; "Buy groceries"; "Exercise for 30 minutes";
          "Read a book chapter"; "Plan weekend trip"].
Proof.
  exists (state_of
            (seedDatabase sample_env (fun _ n => n)
               (fun i => String (ascii_of_nat (97 + i)) "") (mkWorld ∅ 0 0))).
  split; vm_compute; reflexivity.
Qed.
